(** * Session orchestration and event relay of the Fact Checker tray app

    A shallow embedding of the main-process module of the application
    (the file that owns [backendProcess], [clientProcess] and
    [sseRequest]) and the properties of its session control surface.

    The module is single-threaded JavaScript: module-level variables,
    callbacks registered on child processes, timers and one HTTP request,
    and [async] IPC handlers.  The embedding follows that shape:

    - the module-level variables are the record [State];
    - the closures the runtime keeps alive (pending timers, the variables
      captured by the handlers of each HTTP request, the live children)
      are the rest of [World];
    - synchronous code is a state function [M A := World -> A * World];
    - an [async] function is a [Prog]: synchronous segments separated by
      [Await] nodes, with [pcatch] and [pfinally] for [try]/[catch]/
      [finally];
    - the event loop is [handle] (the callbacks an event triggers) and
      [run]/[deliver] (which continuation an event resumes).

    Console output ([log], [warn], [logError]) is write-only and is not
    part of the model.  Strings are sequences of code units below 256. *)

From Stdlib Require Import ZArith List String Ascii Bool Lia.
From Stdlib Require Import DecimalString DecimalPos.
From Stdlib Require Import Floats.PrimFloat.
Import ListNotations.
Local Open Scope string_scope.
Local Open Scope Z_scope.

(* ------------------------------------------------------------------ *)
(** ** JavaScript values and string primitives                          *)
(* ------------------------------------------------------------------ *)

Module Js.

(** The result of [parseInt]: an integer or [NaN].  Integers are kept
    exact; JavaScript agrees below 2^53. *)
Inductive number : Type :=
| NaN
| Int (z : Z).

(** Truthiness of a number: [NaN] and [0] are falsy. *)
Definition truthy_number (n : number) : bool :=
  match n with
  | NaN => false
  | Int z => negb (z =? 0)
  end.

(** Truthiness of a string: only the empty string is falsy. *)
Definition truthy_string (s : string) : bool :=
  match s with
  | EmptyString => false
  | String _ _ => true
  end.

Definition LF : ascii := ascii_of_nat 10.
Definition CR : ascii := ascii_of_nat 13.
Definition nl : string := String LF EmptyString.

(** [s.startsWith(p)] *)
Definition startsWith (p s : string) : bool := String.prefix p s.

(** [s.includes(sub)] *)
Fixpoint includes (sub s : string) : bool :=
  if String.prefix sub s then true
  else match s with
       | EmptyString => false
       | String _ s' => includes sub s'
       end.

(** [s.slice(n)] for [n >= 0] *)
Fixpoint slice (n : nat) (s : string) : string :=
  match n, s with
  | O, _ => s
  | S n', String _ s' => slice n' s'
  | S _, EmptyString => EmptyString
  end.

(** [s.split(sep)] for a non-empty separator: the pieces between the
    leftmost non-overlapping occurrences of [sep].  [skip] counts the
    code units of a matched separator still to be passed over, [cur]
    is the piece being read. *)
Fixpoint split_go (sep s : string) (skip : nat) (cur : string)
  : list string :=
  match s with
  | EmptyString => [cur]
  | String c s' =>
      match skip with
      | S k => split_go sep s' k cur
      | O =>
          if String.prefix sep s
          then cur :: split_go sep s' (Nat.pred (String.length sep)) ""
          else split_go sep s' O (cur ++ String c "")
      end
  end.

Definition split (sep s : string) : list string := split_go sep s O "".

(** White space as [trim] and [parseInt] see it, among the code units
    below 256: TAB, LF, VT, FF, CR, SPACE and NBSP. *)
Definition is_space (c : ascii) : bool :=
  let n := nat_of_ascii c in
  (Nat.leb 9 n && Nat.leb n 13) || Nat.eqb n 32 || Nat.eqb n 160.

Fixpoint trimStart (s : string) : string :=
  match s with
  | String c s' => if is_space c then trimStart s' else s
  | EmptyString => EmptyString
  end.

(** [!s.trim()]: the string is empty once white space is trimmed. *)
Definition trim_is_empty (s : string) : bool :=
  negb (truthy_string (trimStart s)).

Definition digit_of (c : ascii) : option Z :=
  let n := nat_of_ascii c in
  if (Nat.leb 48 n && Nat.leb n 57)%bool
  then Some (Z.of_nat (n - 48)) else None.

(** The longest prefix of decimal digits, read as a number. *)
Fixpoint digits (s : string) (acc : option Z) : option Z :=
  match s with
  | String c s' =>
      match digit_of c with
      | Some d =>
          digits s' (Some (10 * match acc with Some a => a | None => 0 end + d))
      | None => acc
      end
  | EmptyString => acc
  end.

(** [parseInt(s, 10)]: leading white space, an optional sign, then as
    many decimal digits as there are; [NaN] when there is none. *)
Definition parseInt (s : string) : number :=
  let s := trimStart s in
  let '(neg, body) :=
    match s with
    | String "-" s' => (true, s')
    | String "+" s' => (false, s')
    | _ => (false, s)
    end in
  match digits body None with
  | Some z => Int (if neg then - z else z)
  | None => NaN
  end.

(** [s.replace(/[\r\n]/g, '')] *)
Fixpoint strip_line_terminators (s : string) : string :=
  match s with
  | EmptyString => EmptyString
  | String c s' =>
      if (Ascii.eqb c CR || Ascii.eqb c LF)%bool
      then strip_line_terminators s'
      else String c (strip_line_terminators s')
  end.

(** [Math.min(a, b)] on doubles: [NaN] if either is, and [-0] below
    [+0]. *)
Definition Math_min (a b : float) : float :=
  if (PrimFloat.is_nan a || PrimFloat.is_nan b)%bool then PrimFloat.nan
  else if PrimFloat.ltb a b then a
  else if PrimFloat.ltb b a then b
  else if PrimFloat.is_zero a
       then (if PrimFloat.get_sign a then a else b)
       else a.

(** The double of an integer (exact below 2^53). *)
Fixpoint number_of_pos (p : positive) : float :=
  match p with
  | xH => 1
  | xO q => 2 * number_of_pos q
  | xI q => 2 * number_of_pos q + 1
  end%float.

Definition number_of_Z (z : Z) : float :=
  match z with
  | Z0 => 0
  | Zpos p => number_of_pos p
  | Zneg p => - number_of_pos p
  end%float.

(** [String(n)] for an integer: its decimal numeral. *)
Definition String_of_int (z : Z) : string :=
  NilZero.string_of_int (Z.to_int z).

(** [s.trim()] is [trimStart] at both ends. *)
Fixpoint rev_string (s acc : string) : string :=
  match s with
  | EmptyString => acc
  | String c s' => rev_string s' (String c acc)
  end.

Definition trim (s : string) : string :=
  rev_string (trimStart (rev_string (trimStart s) "")) "".

(** [s.toLowerCase()] on the ASCII letters (the only ones the module's
    searches look for). *)
Definition lower_ascii (c : ascii) : ascii :=
  let n := nat_of_ascii c in
  if (Nat.leb 65 n && Nat.leb n 90)%bool then ascii_of_nat (n + 32) else c.

Fixpoint toLowerCase (s : string) : string :=
  match s with
  | EmptyString => EmptyString
  | String c s' => String (lower_ascii c) (toLowerCase s')
  end.

(** A value produced by [JSON.parse]. *)
#[local] Set Warnings "-register-all".
Inductive json : Type :=
| JNull
| JBool (b : bool)
| JNumber (x : float)
| JString (s : string)
| JArray (items : list json)
| JObject (members : list (string * json)).

(** [JSON.parse] on the three literal texts.  The development is
    parametric in the parser; this instance runs it on concrete streams
    whose payloads are literals or are not JSON at all. *)
Definition parse_literal (s : string) : option json :=
  if String.eqb s "null" then Some JNull
  else if String.eqb s "true" then Some (JBool true)
  else if String.eqb s "false" then Some (JBool false)
  else None.

End Js.

(* ------------------------------------------------------------------ *)
(** ** Module state, runtime closures and observable effects            *)
(* ------------------------------------------------------------------ *)

Definition Pid := nat.
Definition ReqId := nat.
Definition TimerId := nat.
Definition CallId := nat.

Inductive Signal : Type := SIGINT | SIGTERM | SIGKILL.

(** Which child a process is: the service ([backend.py]) or the capture
    client ([client.py]). *)
Inductive Role : Type := Backend | Client.

Record Window : Type := { isDestroyed : bool }.

(** The module-level [let] variables. *)
Record State : Type := mkState {
  backendProcess : option Pid;
  clientProcess : option Pid;
  sseRequest : option ReqId;
  tray : bool;
  popupWindow : option Window;
  isShuttingDown : bool;
  isPaused : bool;
  sseReconnectTimer : option TimerId;
  sseBackoffDelay : float;
  _sessionOpInProgress : bool
}.

Definition SSE_BACKOFF_INITIAL : float := 2000.
Definition SSE_BACKOFF_MULTIPLIER : float := 1.5.
Definition SSE_BACKOFF_MAX : float := 30000.

(** The module as loaded, before [app.whenReady]. *)
Definition initial_state : State :=
  {| backendProcess := None; clientProcess := None; sseRequest := None;
     tray := false; popupWindow := None; isShuttingDown := false;
     isPaused := false; sseReconnectTimer := None;
     sseBackoffDelay := 2000; _sessionOpInProgress := false |}.

(** What a pending timer does when it fires. *)
Inductive TimerAction : Type :=
| TReconnect (lastId : Z)             (* scheduleSSEReconnect's callback *)
| TForceKill (p : Pid) (sig : Signal) (* the escalation of a stop *)
| TSettle.                            (* only settles a promise *)

(** The variables captured by the handlers of one HTTP request. *)
Inductive ConnPhase : Type :=
| Connecting                                    (* no response yet *)
| Streaming (buffer : string) (currentLastId : Z)
| Refused                                       (* status was not 200 *)
| Closed.                                       (* 'end' or 'error' seen *)

Record Conn : Type := { conn_lastId : Z; conn_phase : ConnPhase }.

(** What the renderer is sent. *)
Inductive Payload : Type :=
| PAlert (parsed : Js.json)
| PStatus (status : string)
| PError (title detail : string).

(** Promises of the platform the module awaits:
    [systemPreferences.askForMediaAccess('microphone')] and
    [fetchJSON(BACKEND_URL + '/health')]. *)
Inductive ExternalCall : Type := AskMicrophone | FetchHealth.

(** A member found by [choiceMap[sourceType]]: one of the four own
    strings, or a member inherited from [Object.prototype] (a function, or
    the prototype itself for [__proto__]); the latter are truthy too. *)
Inductive Member : Type :=
| Own (value : string)
| Inherited (name : string).

Inductive Effect : Type :=
| ESpawn (p : Pid) (r : Role)
| EStdinChoice (p : Pid) (choice : Member)   (* stdin.write(`${choice}\n`) *)
| EStdin (p : Pid) (line : string)
| EStdinEnd (p : Pid)
| EKill (p : Pid) (sig : Signal)
| EHttpGet (r : ReqId) (lastEventId : Z)
| EDestroy (r : ReqId)
| ESetTimeout (t : TimerId) (callback : TimerAction) (ms : float)
| ESend (channel : string) (payload : Payload)
| EOpenExternal (url : string)
| ESetTray (active : bool)
| EDestroyTray
| ERemoveHandlers
| ECall (c : CallId) (what : ExternalCall).

Record World : Type := mkWorld {
  vars : State;
  timers : list (TimerId * TimerAction);
  conns : list (ReqId * Conn);
  procs : list (Pid * Role);          (* spawned and not yet closed *)
  fresh : nat;                        (* next unused handle *)
  pythonInstalled : bool;             (* fs.existsSync(getPythonPath()) *)
  out : list Effect                   (* effects so far, oldest first *)
}.

Definition boot (python : bool) : World :=
  {| vars := initial_state; timers := []; conns := []; procs := [];
     fresh := O; pythonInstalled := python; out := [] |}.

(** *** The state monad of synchronous code *)

Definition M (A : Type) : Type := World -> A * World.

Definition ret {A} (a : A) : M A := fun w => (a, w).

Definition bind {A B} (m : M A) (k : A -> M B) : M B :=
  fun w => let (a, w') := m w in k a w'.

Declare Scope m_scope.
Delimit Scope m_scope with M.
Notation "x <- m ;; k" := (bind m (fun x => k))
  (at level 61, m at next level, right associativity) : m_scope.
Notation "m ;; k" := (bind m (fun _ => k))
  (at level 61, right associativity) : m_scope.
Local Open Scope m_scope.

Definition exec {A} (m : M A) (w : World) : World := snd (m w).

Definition get {A} (f : State -> A) : M A := fun w => (f (vars w), w).

Definition modify (f : State -> State) : M unit :=
  fun w => (tt, {| vars := f (vars w); timers := timers w; conns := conns w;
                   procs := procs w; fresh := fresh w;
                   pythonInstalled := pythonInstalled w; out := out w |}).

Definition emit (e : Effect) : M unit :=
  fun w => (tt, {| vars := vars w; timers := timers w; conns := conns w;
                   procs := procs w; fresh := fresh w;
                   pythonInstalled := pythonInstalled w;
                   out := (out w ++ [e])%list |}).

Definition newHandle : M nat :=
  fun w => (fresh w,
            {| vars := vars w; timers := timers w; conns := conns w;
               procs := procs w; fresh := S (fresh w);
               pythonInstalled := pythonInstalled w; out := out w |}).

Definition set_timers (f : list (TimerId * TimerAction) ->
                           list (TimerId * TimerAction)) : M unit :=
  fun w => (tt, {| vars := vars w; timers := f (timers w); conns := conns w;
                   procs := procs w; fresh := fresh w;
                   pythonInstalled := pythonInstalled w; out := out w |}).

Definition set_conns (f : list (ReqId * Conn) -> list (ReqId * Conn))
  : M unit :=
  fun w => (tt, {| vars := vars w; timers := timers w; conns := f (conns w);
                   procs := procs w; fresh := fresh w;
                   pythonInstalled := pythonInstalled w; out := out w |}).

Definition set_procs (f : list (Pid * Role) -> list (Pid * Role)) : M unit :=
  fun w => (tt, {| vars := vars w; timers := timers w; conns := conns w;
                   procs := f (procs w); fresh := fresh w;
                   pythonInstalled := pythonInstalled w; out := out w |}).

(** Assignments to the module variables. *)
Definition set_backendProcess (v : option Pid) : M unit :=
  modify (fun s =>
    mkState v (clientProcess s) (sseRequest s) (tray s) (popupWindow s)
      (isShuttingDown s) (isPaused s) (sseReconnectTimer s)
      (sseBackoffDelay s) (_sessionOpInProgress s)).

Definition set_clientProcess (v : option Pid) : M unit :=
  modify (fun s =>
    mkState (backendProcess s) v (sseRequest s) (tray s) (popupWindow s)
      (isShuttingDown s) (isPaused s) (sseReconnectTimer s)
      (sseBackoffDelay s) (_sessionOpInProgress s)).

Definition set_sseRequest (v : option ReqId) : M unit :=
  modify (fun s =>
    mkState (backendProcess s) (clientProcess s) v (tray s) (popupWindow s)
      (isShuttingDown s) (isPaused s) (sseReconnectTimer s)
      (sseBackoffDelay s) (_sessionOpInProgress s)).

Definition set_tray (v : bool) : M unit :=
  modify (fun s =>
    mkState (backendProcess s) (clientProcess s) (sseRequest s) v
      (popupWindow s) (isShuttingDown s) (isPaused s) (sseReconnectTimer s)
      (sseBackoffDelay s) (_sessionOpInProgress s)).

Definition set_popupWindow (v : option Window) : M unit :=
  modify (fun s =>
    mkState (backendProcess s) (clientProcess s) (sseRequest s) (tray s) v
      (isShuttingDown s) (isPaused s) (sseReconnectTimer s)
      (sseBackoffDelay s) (_sessionOpInProgress s)).

Definition set_isShuttingDown (v : bool) : M unit :=
  modify (fun s =>
    mkState (backendProcess s) (clientProcess s) (sseRequest s) (tray s)
      (popupWindow s) v (isPaused s) (sseReconnectTimer s)
      (sseBackoffDelay s) (_sessionOpInProgress s)).

Definition set_isPaused (v : bool) : M unit :=
  modify (fun s =>
    mkState (backendProcess s) (clientProcess s) (sseRequest s) (tray s)
      (popupWindow s) (isShuttingDown s) v (sseReconnectTimer s)
      (sseBackoffDelay s) (_sessionOpInProgress s)).

Definition set_sseReconnectTimer (v : option TimerId) : M unit :=
  modify (fun s =>
    mkState (backendProcess s) (clientProcess s) (sseRequest s) (tray s)
      (popupWindow s) (isShuttingDown s) (isPaused s) v
      (sseBackoffDelay s) (_sessionOpInProgress s)).

Definition set_sseBackoffDelay (v : float) : M unit :=
  modify (fun s =>
    mkState (backendProcess s) (clientProcess s) (sseRequest s) (tray s)
      (popupWindow s) (isShuttingDown s) (isPaused s) (sseReconnectTimer s)
      v (_sessionOpInProgress s)).

Definition set_sessionOpInProgress (v : bool) : M unit :=
  modify (fun s =>
    mkState (backendProcess s) (clientProcess s) (sseRequest s) (tray s)
      (popupWindow s) (isShuttingDown s) (isPaused s) (sseReconnectTimer s)
      (sseBackoffDelay s) v).

(** [setTimeout(callback, ms)] and [clearTimeout(t)] *)
Definition setTimeout (a : TimerAction) (ms : float) : M TimerId :=
  t <- newHandle ;;
  set_timers (fun l => (l ++ [(t, a)])%list) ;;
  emit (ESetTimeout t a ms) ;;
  ret t.

Definition remove_key {A} (k : nat) (l : list (nat * A)) : list (nat * A) :=
  filter (fun e => negb (Nat.eqb (fst e) k)) l.

Fixpoint lookup {A} (k : nat) (l : list (nat * A)) : option A :=
  match l with
  | [] => None
  | (k', a) :: l' => if Nat.eqb k' k then Some a else lookup k l'
  end.

Definition clearTimeout (t : TimerId) : M unit :=
  set_timers (remove_key t).

(** *** Promises *)

Inductive Value : Type :=
| VUndefined
| VBool (b : bool)
| VJson.                    (* a parsed response body *)

Definition truthy (v : Value) : bool :=
  match v with
  | VBool b => b
  | VUndefined => false
  | VJson => true
  end.

Inductive Settled : Type :=
| Fulfilled (v : Value)
| Rejected (message : string).   (* [new Error(message)] *)

(** What a pending promise is waiting for. *)
Inductive Wait : Type :=
| WBackendStart (p : Pid) (t : TimerId)   (* startBackend's promise *)
| WClientStart (p : Pid) (t : TimerId)    (* startClient's promise *)
| WStop (p : Pid) (t : TimerId)           (* stopClient's / stopBackend's *)
| WTimer (t : TimerId)                    (* new Promise(r => setTimeout(r, d)) *)
| WCall (c : CallId)                      (* a promise of the platform *)
| WRace (w : Wait) (t : TimerId) (label : string).  (* withTimeout *)

Inductive Promise : Type :=
| Already (o : Settled)
| Pending (w : Wait).

Inductive Event : Type :=
| ProcStdout (p : Pid) (text : string)
| ProcClose (p : Pid) (code : option Z)
| TimerFire (t : TimerId)
| SseResponse (req : ReqId) (statusCode : Z)
| SseData (req : ReqId) (chunk : string)
| SseEnd (req : ReqId)
| SseError (req : ReqId)
| SseRequestError (req : ReqId)
| CallSettled (c : CallId) (o : Settled).


(* ------------------------------------------------------------------ *)
(** ** Asynchronous functions                                         *)
(* ------------------------------------------------------------------ *)

(** An [async] function body: synchronous segments ([Do]) between
    suspension points ([Await]). *)
Inductive Prog (R : Type) : Type :=
| Ret (r : R)
| Throw (message : string)
| Do {A : Type} (m : M A) (k : A -> Prog R)
| Await (p : Wait) (k : Settled -> Prog R).

Arguments Ret {R} r.
Arguments Throw {R} message.
Arguments Do {R A} m k.
Arguments Await {R} p k.

Fixpoint pbind {A B} (p : Prog A) (f : A -> Prog B) : Prog B :=
  match p with
  | Ret a => f a
  | Throw m => Throw m
  | Do m k => Do m (fun a => pbind (k a) f)
  | Await w k => Await w (fun o => pbind (k o) f)
  end.

(** [try { p } catch (err) { h(err.message) }] *)
Fixpoint pcatch {R} (p : Prog R) (h : string -> Prog R) : Prog R :=
  match p with
  | Ret r => Ret r
  | Throw m => h m
  | Do m k => Do m (fun a => pcatch (k a) h)
  | Await w k => Await w (fun o => pcatch (k o) h)
  end.

(** [try { p } finally { fin }] for a synchronous [fin]. *)
Fixpoint pfinally {R} (p : Prog R) (fin : M unit) : Prog R :=
  match p with
  | Ret r => Do fin (fun _ => Ret r)
  | Throw m => Do fin (fun _ => Throw m)
  | Do m k => Do m (fun a => pfinally (k a) fin)
  | Await w k => Await w (fun o => pfinally (k o) fin)
  end.

(** [await promise] *)
Definition await {R} (p : Promise) (k : Value -> Prog R) : Prog R :=
  let settle o :=
    match o with
    | Fulfilled v => k v
    | Rejected m => Throw m
    end in
  match p with
  | Already o => settle o
  | Pending w => Await w settle
  end.


(** What an IPC handler returns: [{ success: true }],
    [{ success: false, error }], the object of [get-session-state], or
    nothing. *)
Inductive Reply : Type :=
| Success
| Failure (error : string)
| SessionState (backendRunning clientRunning sseConnected paused : bool)
| Void.


Inductive Result (R : Type) : Type :=
| Returned (r : R)
| Threw (message : string).

Arguments Returned {R} r.
Arguments Threw {R} message.

(** Where an asynchronous function stops when run synchronously. *)
Inductive Paused (R : Type) : Type :=
| Finished (res : Result R)
| Blocked (p : Wait) (k : Settled -> Prog R).

Arguments Finished {R} res.
Arguments Blocked {R} p k.

(** [advance p w]: the synchronous segment of [p] from [w], up to its
    end or its next [await]. *)
Fixpoint advance {R} (p : Prog R) (w : World) : Paused R * World :=
  match p with
  | Ret r => (Finished (Returned r), w)
  | Throw m => (Finished (Threw m), w)
  | Do m k => let (a, w') := m w in advance (k a) w'
  | Await wt k => (Blocked wt k, w)
  end.

Inductive Run (R : Type) : Type :=
| Done (res : Result R) (w : World) (rest : list Event)
| Suspended (p : Wait) (k : Settled -> Prog R) (w : World).

Arguments Done {R} res w rest.
Arguments Suspended {R} p k w.


(* ------------------------------------------------------------------ *)
(** ** The synchronous functions of the module                          *)
(* ------------------------------------------------------------------ *)

Section Relay.

(** [JSON.parse], as the engine provides it: [None] when it throws. *)
Variable JSON_parse : string -> option Js.json.

(** [path.resolve(__dirname, '..')] *)
Variable PROJECT_ROOT : string.

Definition BACKEND_DIR : string := PROJECT_ROOT ++ "/backend".

Definition getPythonPath : string := BACKEND_DIR ++ "/venv/bin/python".

(** [popupWindow && !popupWindow.isDestroyed()] *)
Definition window_live : M bool :=
  pw <- get popupWindow ;;
  ret match pw with
      | Some win => negb (isDestroyed win)
      | None => false
      end.

Definition send (channel : string) (payload : Payload) : M unit :=
  live <- window_live ;;
  if live then emit (ESend channel payload) else ret tt.

Definition sendErrorToRenderer (title detail : string) : M unit :=
  send "error-message" (PError title detail).

Definition setTrayActive (active : bool) : M unit :=
  t <- get tray ;;
  if t then emit (ESetTray active) else ret tt.

(** *** SSE relay *)

Definition disconnectSSE : M unit :=
  t <- get sseReconnectTimer ;;
  match t with
  | Some timer => clearTimeout timer ;; set_sseReconnectTimer None
  | None => ret tt
  end ;;
  r <- get sseRequest ;;
  match r with
  | Some req => emit (EDestroy req) ;; set_sseRequest None
  | None => ret tt
  end ;;
  (* Reset backoff on manual disconnect *)
  set_sseBackoffDelay SSE_BACKOFF_INITIAL.

(** The synchronous part of [connectSSE(lastId)]: the request is issued
    and its callbacks are registered. *)
Definition connectSSE (lastId : Z) : M unit :=
  disconnectSSE ;;
  req <- newHandle ;;
  set_conns (fun l => (l ++ [(req, {| conn_lastId := lastId;
                                      conn_phase := Connecting |})])%list) ;;
  emit (EHttpGet req lastId) ;;
  set_sseRequest (Some req).

Definition scheduleSSEReconnect (lastId : Z) : M unit :=
  t <- get sseReconnectTimer ;;
  match t with
  | Some _ => ret tt
  | None =>
      delay <- get sseBackoffDelay ;;
      timer <- setTimeout (TReconnect lastId) delay ;;
      set_sseReconnectTimer (Some timer) ;;
      (* Increase backoff for next failure *)
      set_sseBackoffDelay
        (Js.Math_min (delay * SSE_BACKOFF_MULTIPLIER)%float SSE_BACKOFF_MAX)
  end.

(** The inner loop of the 'data' handler over the lines of one event
    block: the last [id: ] and [data: ] lines win. *)
Definition read_line (acc : option Js.number * option string)
                     (line : string) : option Js.number * option string :=
  let '(eventId, eventData) := acc in
  if Js.startsWith ":" line then acc
  else if Js.startsWith "id: " line
       then (Some (Js.parseInt (Js.slice 4 line)), eventData)
  else if Js.startsWith "data: " line
       then (eventId, Some (Js.slice 6 line))
  else acc.

Definition read_block (msg : string) : option Js.number * option string :=
  fold_left read_line (Js.split Js.nl msg) (None, None).

(** The body of [for (const msg of messages)]: returns the new
    [currentLastId]. *)
Definition on_message (currentLastId : Z) (msg : string) : M Z :=
  if Js.trim_is_empty msg then ret currentLastId
  else
    let '(eventId, eventData) := read_block msg in
    match eventData with
    | Some data =>
        if Js.truthy_string data then
          match JSON_parse data with
          | Some parsed =>
              let last :=
                match eventId with
                | Some (Js.Int z) =>
                    if Js.truthy_number (Js.Int z) then z else currentLastId
                | _ => currentLastId
                end in
              paused <- get isPaused ;;
              (if negb paused
               then send "fact-check-alert" (PAlert parsed)
               else ret tt) ;;
              ret last
          | None => ret currentLastId      (* Parse error: logged *)
          end
        else ret currentLastId
    | None => ret currentLastId
    end.

Fixpoint on_messages (currentLastId : Z) (messages : list string) : M Z :=
  match messages with
  | [] => ret currentLastId
  | msg :: rest =>
      last <- on_message currentLastId msg ;;
      on_messages last rest
  end.

Definition set_phase (req : ReqId) (ph : ConnPhase) : M unit :=
  set_conns (map (fun e : ReqId * Conn =>
                    if Nat.eqb (fst e) req
                    then (fst e, {| conn_lastId := conn_lastId (snd e);
                                    conn_phase := ph |})
                    else e)).

Definition get_conn (req : ReqId) : M (option Conn) :=
  fun w => (lookup req (conns w), w).

(** [res.on('data', chunk => ...)] *)
Definition on_data (req : ReqId) (chunk : string) : M unit :=
  c <- get_conn req ;;
  match c with
  | Some {| conn_phase := Streaming buffer currentLastId |} =>
      let messages := Js.split (Js.nl ++ Js.nl) (buffer ++ chunk) in
      last <- on_messages currentLastId (removelast messages) ;;
      set_phase req (Streaming (List.last messages "") last)
  | _ => ret tt
  end.

(** The response callback of [http.get]. *)
Definition on_response (req : ReqId) (statusCode : Z) : M unit :=
  c <- get_conn req ;;
  match c with
  | Some {| conn_lastId := lastId; conn_phase := Connecting |} =>
      if negb (statusCode =? 200) then
        sendErrorToRenderer "SSE connection failed"
          ("Backend returned status " ++ Js.String_of_int statusCode) ;;
        scheduleSSEReconnect lastId ;;
        set_phase req Refused
      else
        (* Reset backoff on successful connection *)
        set_sseBackoffDelay SSE_BACKOFF_INITIAL ;;
        set_phase req (Streaming "" lastId)
  | _ => ret tt
  end.

(** [res.on('end', ...)] and [res.on('error', ...)] *)
Definition on_stream_closed (req : ReqId) : M unit :=
  c <- get_conn req ;;
  match c with
  | Some {| conn_phase := Streaming _ currentLastId |} =>
      scheduleSSEReconnect currentLastId ;;
      set_phase req Closed
  | _ => ret tt
  end.

(** [sseRequest.on('error', ...)] *)
Definition on_request_error (req : ReqId) : M unit :=
  c <- get_conn req ;;
  match c with
  | Some {| conn_lastId := lastId |} => scheduleSSEReconnect lastId
  | None => ret tt
  end.

(** *** Child processes *)

(** The names every object inherits from [Object.prototype]. *)
Definition Object_prototype : list string :=
  [ "constructor"; "__defineGetter__"; "__defineSetter__";
    "hasOwnProperty"; "__lookupGetter__"; "__lookupSetter__";
    "isPrototypeOf"; "propertyIsEnumerable"; "toString"; "valueOf";
    "__proto__"; "toLocaleString" ].

(** [choiceMap[sourceType]] for
    [choiceMap = { youtube: '1', meet: '2', local: '3', stream: '4' }];
    [None] is [undefined]. *)
Definition choiceMap (sourceType : string) : option Member :=
  if String.eqb sourceType "youtube" then Some (Own "1")
  else if String.eqb sourceType "meet" then Some (Own "2")
  else if String.eqb sourceType "local" then Some (Own "3")
  else if String.eqb sourceType "stream" then Some (Own "4")
  else if existsb (String.eqb sourceType) Object_prototype
       then Some (Inherited sourceType)
  else None.

Definition spawn (r : Role) : M Pid :=
  p <- newHandle ;;
  set_procs (fun l => (l ++ [(p, r)])%list) ;;
  emit (ESpawn p r) ;;
  ret p.

(** The executor of [startBackend()]'s promise. *)
Definition startBackend : M Promise :=
  bp <- get backendProcess ;;
  match bp with
  | Some _ => ret (Already (Fulfilled VUndefined))
  | None =>
      py <- (fun w => (pythonInstalled w, w)) ;;
      if negb py then
        let msg := "Python not found at " ++ getPythonPath
                   ++ ". Run ./scripts/setup.sh first." in
        sendErrorToRenderer "Setup required" msg ;;
        ret (Already (Rejected msg))
      else
        p <- spawn Backend ;;
        set_backendProcess (Some p) ;;
        (* Timeout after 60s *)
        t <- setTimeout TSettle 60000 ;;
        ret (Pending (WBackendStart p t))
  end.

(** The executor of [startClient(sourceType, target)]'s promise. *)
Definition startClient (sourceType target : string) : M Promise :=
  cp <- get clientProcess ;;
  match cp with
  | Some _ => ret (Already (Rejected "Client already running"))
  | None =>
      match choiceMap sourceType with
      | None =>
          ret (Already (Rejected ("Unknown source type: " ++ sourceType)))
      | Some choice =>
          p <- spawn Client ;;
          set_clientProcess (Some p) ;;
          let safeTarget := Js.strip_line_terminators target in
          emit (EStdinChoice p choice) ;;
          emit (EStdin p (safeTarget ++ Js.nl)) ;;
          emit (EStdinEnd p) ;;
          (* Timeout after 120s *)
          t <- setTimeout TSettle 120000 ;;
          ret (Pending (WClientStart p t))
      end
  end.

(** The executor of [stopClient()]'s promise. *)
Definition stopClient : M Promise :=
  cp <- get clientProcess ;;
  match cp with
  | None => ret (Already (Fulfilled VUndefined))
  | Some proc =>
      (* Clear reference immediately to prevent double-stop *)
      set_clientProcess None ;;
      t <- setTimeout (TForceKill proc SIGTERM) 10000 ;;
      emit (EKill proc SIGINT) ;;
      ret (Pending (WStop proc t))
  end.

(** The executor of [stopBackend()]'s promise. *)
Definition stopBackend : M Promise :=
  bp <- get backendProcess ;;
  match bp with
  | None => ret (Already (Fulfilled VUndefined))
  | Some proc =>
      set_backendProcess None ;;
      t <- setTimeout (TForceKill proc SIGKILL) 5000 ;;
      emit (EKill proc SIGTERM) ;;
      ret (Pending (WStop proc t))
  end.

(** [`${code}`] for an exit code: [null] when killed by a signal. *)
Definition show_code (code : option Z) : string :=
  match code with
  | Some z => Js.String_of_int z
  | None => "null"
  end.

(** [proc.once('close', () => clearTimeout(timeout))], registered by a
    stop of [p]: the escalation timer is cancelled if still pending. *)
Definition cancel_escalation (p : Pid) : M unit :=
  set_timers (filter (fun e : TimerId * TimerAction =>
                        match snd e with
                        | TForceKill p' _ => negb (Nat.eqb p' p)
                        | _ => true
                        end)).

(** [backendProcess.once('close', code => ...)] *)
Definition on_backend_close (code : option Z) : M unit :=
  set_backendProcess None ;;
  send "backend-status" (PStatus "stopped") ;;
  (* Cascade: kill client and disconnect SSE *)
  stopClient ;;
  disconnectSSE ;;
  sendErrorToRenderer "Backend crashed"
    ("Backend process exited with code " ++ show_code code).

(** [clientProcess.once('close', code => ...)] *)
Definition on_client_close (code : option Z) : M unit :=
  set_clientProcess None ;;
  setTrayActive false ;;
  send "session-status" (PStatus "stopped") ;;
  (* Disconnect SSE on client crash *)
  disconnectSSE ;;
  match code with
  | Some z =>
      if negb (z =? 0)
      then sendErrorToRenderer "Client crashed"
             ("Client process exited with code " ++ show_code code)
      else ret tt
  | None => ret tt
  end.

(** [text.split('\n').find(l => l.includes('[ERROR]')) || text] *)
Definition error_line (text : string) : string :=
  match find (Js.includes "[ERROR]") (Js.split Js.nl text) with
  | Some l => l
  | None => text
  end.

(** [errorLine.replace(/^\[ERROR]\s*/, '').trim()] *)
Definition error_detail (errorLine : string) : string :=
  Js.trim (if Js.startsWith "[ERROR]" errorLine
           then Js.trimStart (Js.slice 7 errorLine)
           else errorLine).

(** [clientProcess.stdout.on('data', ...)], apart from settling the
    start promise. *)
Definition on_client_stdout (text : string) : M unit :=
  if Js.includes "[ERROR]" text then
    let detail := error_detail (error_line text) in
    sendErrorToRenderer "Capture error" detail ;;
    if (Js.includes "permission" (Js.toLowerCase detail)
        || Js.includes "capture" (Js.toLowerCase detail))%bool
    then
      sendErrorToRenderer "Screen Recording may be required"
        "Grant Screen Recording in System Settings > Privacy & Security > Screen & System Audio Recording, then restart the app." ;;
      emit (EOpenExternal
        "x-apple.systempreferences:com.apple.preference.security?Privacy_ScreenCapture")
    else ret tt
  else ret tt.

(* ---------------------------------------------------------------- *)
(** ** Events and the callbacks they trigger                          *)
(* ---------------------------------------------------------------- *)

Definition role_of (p : Pid) : M (option Role) :=
  fun w => (lookup p (procs w), w).

Definition timer_action (t : TimerId) : M (option TimerAction) :=
  fun w => (lookup t (timers w), w).

(** The callbacks the module registered that event [e] runs, in
    registration order.  An event of a child that is not live, of a
    timer that is not pending or of an unknown request runs none. *)
Definition handle (e : Event) : M unit :=
  match e with
  | ProcStdout p text =>
      r <- role_of p ;;
      match r with
      | Some Client => on_client_stdout text
      | _ => ret tt
      end
  | ProcClose p code =>
      r <- role_of p ;;
      match r with
      | Some Backend =>
          set_procs (remove_key p) ;;
          on_backend_close code ;;
          cancel_escalation p
      | Some Client =>
          set_procs (remove_key p) ;;
          on_client_close code ;;
          cancel_escalation p
      | None => ret tt
      end
  | TimerFire t =>
      a <- timer_action t ;;
      match a with
      | Some (TReconnect lastId) =>
          set_timers (remove_key t) ;;
          set_sseReconnectTimer None ;;
          connectSSE lastId
      | Some (TForceKill p sig) =>
          set_timers (remove_key t) ;;
          emit (EKill p sig)
      | Some TSettle => set_timers (remove_key t)
      | None => ret tt
      end
  | SseResponse req statusCode => on_response req statusCode
  | SseData req chunk => on_data req chunk
  | SseEnd req => on_stream_closed req
  | SseError req => on_stream_closed req
  | SseRequestError req => on_request_error req
  | CallSettled _ _ => ret tt
  end.

(** Whether the runtime can deliver [e] now: a child must be live and
    a timer pending. *)
Definition enabled (e : Event) (w : World) : bool :=
  match e with
  | ProcStdout p _ | ProcClose p _ =>
      match lookup p (procs w) with Some _ => true | None => false end
  | TimerFire t =>
      match lookup t (timers w) with Some _ => true | None => false end
  | _ => true
  end.

(** How event [e] settles the promise that waits for [p], if it does:
    the [resolve]/[reject] calls in the callbacks of each promise. *)
Fixpoint wake (p : Wait) (e : Event) : option Settled :=
  match p with
  | WBackendStart proc t =>
      match e with
      | ProcStdout proc' text =>
          if (Nat.eqb proc' proc
              && Js.includes "[READY] Backend running" text)%bool
          then Some (Fulfilled VUndefined) else None
      | ProcClose proc' code =>
          if Nat.eqb proc' proc
          then Some (Rejected ("Backend exited with code " ++ show_code code))
          else None
      | TimerFire t' =>
          if Nat.eqb t' t
          then Some (Rejected "Backend failed to start within 60 seconds")
          else None
      | _ => None
      end
  | WClientStart proc t =>
      match e with
      | ProcStdout proc' text =>
          if (Nat.eqb proc' proc
              && Js.includes "[CAPTURE] Recording" text)%bool
          then Some (Fulfilled VUndefined) else None
      | ProcClose proc' _ =>
          (* resolve even on failure so UI can update *)
          if Nat.eqb proc' proc then Some (Fulfilled VUndefined) else None
      | TimerFire t' =>
          if Nat.eqb t' t then Some (Fulfilled VUndefined) else None
      | _ => None
      end
  | WStop proc t =>
      match e with
      | ProcClose proc' _ =>
          if Nat.eqb proc' proc then Some (Fulfilled VUndefined) else None
      | TimerFire t' =>
          if Nat.eqb t' t then Some (Fulfilled VUndefined) else None
      | _ => None
      end
  | WTimer t =>
      match e with
      | TimerFire t' =>
          if Nat.eqb t' t then Some (Fulfilled VUndefined) else None
      | _ => None
      end
  | WCall c =>
      match e with
      | CallSettled c' o => if Nat.eqb c' c then Some o else None
      | _ => None
      end
  | WRace inner t message =>
      match wake inner e with
      | Some o => Some o
      | None =>
          match e with
          | TimerFire t' =>
              if Nat.eqb t' t then Some (Rejected message) else None
          | _ => None
          end
      end
  end.

Declare Scope prog_scope.
Delimit Scope prog_scope with P.
Notation "x <~ p ;; k" := (pbind p (fun x => k))
  (at level 61, p at next level, right associativity) : prog_scope.
Local Open Scope prog_scope.

(** A call of a platform promise. *)
Definition call (what : ExternalCall) : M Promise :=
  c <- newHandle ;;
  emit (ECall c what) ;;
  ret (Pending (WCall c)).

(** [withTimeout(promise, ms, label)]: [Promise.race] with a timer that
    rejects.  The timer is armed even when [promise] is already
    settled, and is never cleared.  [ms / 1000] is exact at both call
    sites. *)
Definition withTimeout (promise : Promise) (ms : Z) (label : string)
  : M Promise :=
  t <- setTimeout TSettle (Js.number_of_Z ms) ;;
  ret match promise with
      | Already o => Already o
      | Pending w =>
          Pending (WRace w t (label ++ " timed out after "
                              ++ Js.String_of_int (ms / 1000) ++ "s"))
      end.

Definition ensurePermissions : Prog bool :=
  Do (call AskMicrophone) (fun p =>
  await p (fun micGranted =>
  if negb (truthy micGranted) then
    Do (sendErrorToRenderer "Microphone permission denied"
          "Please grant Microphone access in System Settings > Privacy & Security > Microphone." ;;
        emit (EOpenExternal
          "x-apple.systempreferences:com.apple.preference.security?Privacy_Microphone"))
       (fun _ => Ret false)
  else
    (* the Screen Recording status is only logged *)
    Ret true)).

(** [waitForBackendReady(retries, delay = 1000)] with [remaining]
    iterations of its loop left; [i < retries - 1] holds exactly when
    another iteration follows. *)
Fixpoint waitForBackendReady (remaining : nat) : Prog bool :=
  match remaining with
  | O => Ret false
  | S n =>
      pcatch
        (Do (call FetchHealth) (fun p =>
         await p (fun _ =>
         Ret true)))
        (fun _ =>
           match n with
           | O => waitForBackendReady n
           | S _ =>
               Do (setTimeout TSettle 1000) (fun t =>
               Await (WTimer t) (fun _ => waitForBackendReady n))
           end)
  end.

(** The [try] block of the start-session handler. *)
Definition session_body (sourceType target : string) : Prog Reply :=
  permsOk <~ ensurePermissions ;;
  if negb permsOk
  then Ret (Failure "Screen Recording permission required")
  else
    Do startBackend (fun p =>
    Do (withTimeout p 60000 "Backend startup") (fun p =>
    await p (fun _ =>
    (* Health check with retry before proceeding *)
    healthy <~ waitForBackendReady 5 ;;
    Do (r <- get sseRequest ;;
        match r with
        | None => connectSSE 0
        | Some _ => ret tt
        end) (fun _ =>
    Do (startClient sourceType target) (fun p =>
    Do (withTimeout p 120000 "Client startup") (fun p =>
    await p (fun _ =>
    Do (set_isPaused false ;; setTrayActive true) (fun _ =>
    Ret Success)))))))).

(** The [catch] block of the start-session handler: clean up any
    partially-started resources. *)
Definition rollback (message : string) : Prog Reply :=
  Do disconnectSSE (fun _ =>
  Do stopClient (fun p =>
  await p (fun _ =>
  Ret (Failure message)))).

Definition release : M unit := set_sessionOpInProgress false.

(** [ipcMain.handle('start-session', ...)] *)
Definition start_session (sourceType target : string) : Prog Reply :=
  Do (get _sessionOpInProgress) (fun busy =>
  if (busy : bool) then Ret (Failure "Operation already in progress")
  else
    Do (set_sessionOpInProgress true) (fun _ =>
    pfinally (pcatch (session_body sourceType target) rollback) release)).

(** The [try] block of the stop-session handler. *)
Definition stop_body : Prog Reply :=
  Do (set_isPaused false ;; setTrayActive false ;; disconnectSSE) (fun _ =>
  Do stopClient (fun p =>
  await p (fun _ =>
  Ret Success))).

(** [ipcMain.handle('stop-session', ...)] *)
Definition stop_session : Prog Reply :=
  Do (get _sessionOpInProgress) (fun busy =>
  if (busy : bool) then Ret (Failure "Operation already in progress")
  else
    Do (set_sessionOpInProgress true) (fun _ =>
    pfinally (pcatch stop_body (fun m => Ret (Failure m))) release)).

(** [ipcMain.handle('get-session-state', ...)] *)
Definition get_session_state : M Reply :=
  s <- get (fun s => s) ;;
  ret (SessionState
         (match backendProcess s with Some _ => true | None => false end)
         (match clientProcess s with Some _ => true | None => false end)
         (match sseRequest s with Some _ => true | None => false end)
         (isPaused s)).

(** [ipcMain.handle('pause-session', ...)] *)
Definition pause_session : M Reply :=
  set_isPaused true ;;
  disconnectSSE ;;
  ret Success.

(** [ipcMain.handle('resume-session', ...)]: [connectSSE()] is called
    without an argument, so its parameter takes the default [0]. *)
Definition resume_session : M Reply :=
  set_isPaused false ;;
  connectSSE 0 ;;
  ret Success.

(** [shutdownApp()] *)
Definition shutdownApp : Prog Reply :=
  Do (get isShuttingDown) (fun down =>
  if (down : bool) then Ret Void
  else
    Do (set_isShuttingDown true ;; emit ERemoveHandlers ;; disconnectSSE)
       (fun _ =>
    Do stopClient (fun p =>
    await p (fun _ =>
    Do stopBackend (fun p =>
    await p (fun _ =>
    Do (t <- get tray ;;
        if (t : bool) then emit EDestroyTray ;; set_tray false else ret tt)
       (fun _ => Ret Void))))))).

(* ---------------------------------------------------------------- *)
(** ** The event loop                                                 *)
(* ---------------------------------------------------------------- *)

(** [run p w evs]: one asynchronous function against a sequence of
    events.  [p] runs from [w] to its next suspension point; there the
    events of [evs] are delivered one by one (each runs its callbacks,
    [handle]) until one settles the awaited promise; an event the
    runtime cannot deliver is skipped. *)
Fixpoint run {R} (p : Prog R) (w : World) (evs : list Event) {struct evs}
  : Run R :=
  match advance p w with
  | (Finished res, w') => Done res w' evs
  | (Blocked wt k, w') =>
      match evs with
      | [] => Suspended wt k w'
      | e :: evs' =>
          if enabled e w' then
            let w'' := exec (handle e) w' in
            match wake wt e with
            | Some o => run (k o) w'' evs'
            | None => run (Await wt k) w'' evs'
            end
          else run (Await wt k) w' evs'
      end
  end.

(** The IPC channels of the session control surface, and the
    termination signals. *)
Inductive Handler : Type :=
| StartSession (sourceType target : string)
| StopSession
| PauseSession
| ResumeSession
| GetSessionState
| Shutdown.

Definition program (h : Handler) : Prog Reply :=
  match h with
  | StartSession sourceType target => start_session sourceType target
  | StopSession => stop_session
  | PauseSession => Do pause_session Ret
  | ResumeSession => Do resume_session Ret
  | GetSessionState => Do get_session_state Ret
  | Shutdown => shutdownApp
  end.

(** A handler invocation suspended at an [await]. *)
Record Task : Type := {
  task_handler : Handler;
  task_wait : Wait;
  task_cont : Settled -> Prog Reply
}.

(** The main process between two turns of the event loop. *)
Record Loop : Type := {
  world : World;
  tasks : list Task;                        (* invocations in flight *)
  replies : list (Handler * Result Reply)   (* settled, oldest first *)
}.

(** An invocation runs synchronously to its first suspension point. *)
Definition invoke (h : Handler) (c : Loop) : Loop :=
  match advance (program h) (world c) with
  | (Finished res, w') =>
      {| world := w'; tasks := tasks c;
         replies := (replies c ++ [(h, res)])%list |}
  | (Blocked wt k, w') =>
      {| world := w';
         tasks := (tasks c ++ [{| task_handler := h; task_wait := wt;
                                  task_cont := k |}])%list;
         replies := replies c |}
  end.

(** The continuation of task [t], if event [e] settles what it awaits. *)
Definition resume (e : Event) (c : Loop) (t : Task) : Loop :=
  match wake (task_wait t) e with
  | Some o =>
      match advance (task_cont t o) (world c) with
      | (Finished res, w') =>
          {| world := w'; tasks := tasks c;
             replies := (replies c ++ [(task_handler t, res)])%list |}
      | (Blocked wt k, w') =>
          {| world := w';
             tasks := (tasks c ++ [{| task_handler := task_handler t;
                                      task_wait := wt;
                                      task_cont := k |}])%list;
             replies := replies c |}
      end
  | None =>
      {| world := world c; tasks := (tasks c ++ [t])%list;
         replies := replies c |}
  end.

(** An event runs its callbacks, then the continuations it wakes, in
    the order the invocations were made. *)
Definition deliver (e : Event) (c : Loop) : Loop :=
  if enabled e (world c) then
    fold_left (resume e) (tasks c)
      {| world := exec (handle e) (world c); tasks := [];
         replies := replies c |}
  else c.

Inductive Input : Type :=
| Invoke (h : Handler)
| Occur (e : Event).

Definition step (c : Loop) (i : Input) : Loop :=
  match i with
  | Invoke h => invoke h c
  | Occur e => deliver e c
  end.

Definition steps (c : Loop) (inputs : list Input) : Loop :=
  fold_left step inputs c.

Definition idle (w : World) : Loop :=
  {| world := w; tasks := []; replies := [] |}.

(** [createTray(); createPopupWindow()] of [app.whenReady()]. *)
Definition app_ready : M unit :=
  set_tray true ;;
  set_popupWindow (Some {| isDestroyed := false |}).

(* ---------------------------------------------------------------- *)
(** ** Properties                                                     *)
(* ---------------------------------------------------------------- *)

(** *** The string primitives on the shapes the module meets *)

Example split_blank_line :
  Js.split (Js.nl ++ Js.nl) ("a" ++ Js.nl ++ "b" ++ Js.nl ++ Js.nl ++ "c")
  = ["a" ++ Js.nl ++ "b"; "c"].
Proof. reflexivity. Qed.

Example split_keeps_trailing_empty :
  Js.split (Js.nl ++ Js.nl) ("a" ++ Js.nl ++ Js.nl) = ["a"; ""].
Proof. reflexivity. Qed.

Example parseInt_examples :
  Js.parseInt "42" = Js.Int 42 /\ Js.parseInt " -7x" = Js.Int (-7)
  /\ Js.parseInt "abc" = Js.NaN /\ Js.parseInt "" = Js.NaN.
Proof. repeat split; reflexivity. Qed.

Example Math_min_examples :
  Js.Math_min 3000 30000 = 3000%float /\ Js.Math_min 45000 30000 = 30000%float.
Proof. split; reflexivity. Qed.

Example String_of_int_examples :
  Js.String_of_int 0 = "0" /\ Js.String_of_int 137 = "137"
  /\ Js.String_of_int (-1) = "-1".
Proof. repeat split; reflexivity. Qed.

Example trim_example : Js.trim ("  a b" ++ Js.nl) = "a b".
Proof. reflexivity. Qed.

(** The effects of [w'] that [w] did not have yet. *)
Definition since (w w' : World) : list Effect :=
  skipn (List.length (out w)) (out w').

Lemma skipn_length_app {A} (l l' : list A) :
  skipn (List.length l) (l ++ l') = l'.
Proof. induction l; simpl; auto. Qed.

(** C10: a capture start while a capture process handle exists is
    rejected at once with 'Client already running' and spawns nothing
    (the world is left as it was); a service start while a service
    process handle exists resolves at once and does nothing. *)
Theorem duplicate_start_client_rejects_backend_resolves :
  forall (w w' : World) (c b : Pid) (sourceType target : string),
    clientProcess (vars w) = Some c ->
    backendProcess (vars w') = Some b ->
    startClient sourceType target w
      = (Already (Rejected "Client already running"), w)
    /\ startBackend w' = (Already (Fulfilled VUndefined), w').
Proof.
  intros w w' c b sourceType target Hc Hb.
  unfold startClient, startBackend, bind, get.
  rewrite Hc, Hb.
  split; reflexivity.
Qed.

(** *** What [disconnectSSE] and [stopClient] leave behind *)

Lemma disconnectSSE_vars w :
  vars (exec disconnectSSE w)
  = mkState (backendProcess (vars w)) (clientProcess (vars w)) None
      (tray (vars w)) (popupWindow (vars w)) (isShuttingDown (vars w))
      (isPaused (vars w)) None SSE_BACKOFF_INITIAL
      (_sessionOpInProgress (vars w)).
Proof.
  destruct w as [s ts cs ps f py o]; destruct s; simpl.
  unfold exec, disconnectSSE, bind, get; simpl.
  destruct sseReconnectTimer0, sseRequest0; reflexivity.
Qed.

Lemma disconnectSSE_out w :
  out (exec disconnectSSE w)
  = (out w ++ match sseRequest (vars w) with
              | Some req => [EDestroy req]
              | None => []
              end)%list.
Proof.
  destruct w as [s ts cs ps f py o]; destruct s; simpl.
  unfold exec, disconnectSSE, bind, get; simpl.
  destruct sseReconnectTimer0, sseRequest0; simpl;
    try reflexivity; now rewrite app_nil_r.
Qed.

Lemma stopClient_vars w :
  vars (exec stopClient w)
  = mkState (backendProcess (vars w)) None (sseRequest (vars w))
      (tray (vars w)) (popupWindow (vars w)) (isShuttingDown (vars w))
      (isPaused (vars w)) (sseReconnectTimer (vars w))
      (sseBackoffDelay (vars w)) (_sessionOpInProgress (vars w)).
Proof.
  destruct w as [s ts cs ps f py o]; destruct s; simpl.
  unfold exec, stopClient, bind, get; simpl.
  destruct clientProcess0; reflexivity.
Qed.

Lemma stopClient_out w :
  out (exec stopClient w)
  = (out w ++ match clientProcess (vars w) with
              | Some proc => [ESetTimeout (fresh w) (TForceKill proc SIGTERM) 10000;
                             EKill proc SIGINT]
              | None => []
              end)%list.
Proof.
  destruct w as [s ts cs ps f py o]; destruct s; simpl.
  unfold exec, stopClient, bind, get; simpl.
  destruct clientProcess0; simpl.
  - now rewrite <- app_assoc.
  - now rewrite app_nil_r.
Qed.

(** When the service process exits while a capture process is
    running, its close handler sends the capture process SIGINT and
    destroys the stream request (cancelling any pending reconnect), and
    at the return of the handler [get-session-state] reports the
    service, the capture process and the stream all inactive.  The
    handlers of the destroyed request are still registered; what they
    do to this state afterwards is shown further on. *)
Theorem backend_crash_tears_down_session :
  forall (w : World) (b c : Pid) (code : option Z),
    backendProcess (vars w) = Some b ->
    clientProcess (vars w) = Some c ->
    lookup b (procs w) = Some Backend ->
    let w' := exec (handle (ProcClose b code)) w in
    fst (get_session_state w')
      = SessionState false false false (isPaused (vars w))
    /\ In (EKill c SIGINT) (since w w')
    /\ (forall req, sseRequest (vars w) = Some req ->
                    In (EDestroy req) (since w w'))
    /\ sseReconnectTimer (vars w') = None
    /\ (forall p, ~ In (ESpawn p Client) (since w w')).
Proof.
  intros w b c code Hb Hc Hrole w'.
  subst w'.
  destruct w as [s ts cs ps f py o]; destruct s as [bp cp rq tr pw sd ip rt bd fl].
  simpl in *. subst bp cp.
  unfold since, exec, handle, role_of, bind. simpl.
  rewrite Hrole.
  unfold on_backend_close, send, sendErrorToRenderer, send, window_live,
    stopClient, disconnectSSE, cancel_escalation, bind, get. simpl.
  destruct pw as [[[]]|], rt, rq; simpl.
  all: repeat rewrite <- app_assoc; rewrite skipn_length_app; simpl.
  all: repeat split; auto 10.
  all: match goal with
       | |- forall req, _ = Some req -> _ =>
           intros req Hreq; inversion Hreq; subst; simpl; auto 10
       | |- forall p, ~ _ =>
           intros p H; simpl in H;
           repeat (destruct H as [H|H]; try discriminate); auto
       end.
Qed.

(* ---------------------------------------------------------------- *)
(** ** Invariants of synchronous code and of asynchronous functions   *)
(* ---------------------------------------------------------------- *)

(** [m] keeps the property [I] of the world. *)
Definition Preserves (I : World -> Prop) {A} (m : M A) : Prop :=
  forall w, I w -> I (snd (m w)).

Lemma pres_ret I {A} (a : A) : Preserves I (ret a).
Proof. intros w H; exact H. Qed.

Lemma pres_bind I {A B} (m : M A) (k : A -> M B) :
  Preserves I m -> (forall a, Preserves I (k a)) -> Preserves I (bind m k).
Proof.
  intros Hm Hk w H. unfold bind.
  specialize (Hm w H). destruct (m w) as [a w1]. apply Hk, Hm.
Qed.

Lemma pres_read I {A} (f : World -> A) : Preserves I (fun w => (f w, w)).
Proof. intros w H; exact H. Qed.

Lemma pres_get I {A} (f : State -> A) : Preserves I (get f).
Proof. intros w H; exact H. Qed.

(** Structural steps of a preservation proof. *)
Ltac pres_step :=
  match goal with
  | |- Preserves _ (bind _ _) => apply pres_bind; [ | intros ? ]
  | |- Preserves _ (ret _) => apply pres_ret
  | |- Preserves _ (get _) => apply pres_get
  | |- Preserves _ (fun w => (_, w)) => apply pres_read
  | |- Preserves _ (match ?x with _ => _ end) => destruct x
  | |- Preserves _ (let (_, _) := ?x in _) => destruct x
  end.

(** An assignment or an effect keeps [I] when [I] does not read what
    it writes: checked by unfolding both. *)
Ltac pres_prim :=
  let w := fresh "w" in
  let H := fresh "H" in
  intros w H; destruct w as [[] ? ? ? ? ? ?];
  cbv [set_backendProcess set_clientProcess set_sseRequest set_tray
       set_popupWindow set_isShuttingDown set_isPaused
       set_sseReconnectTimer set_sseBackoffDelay set_sessionOpInProgress
       modify emit newHandle set_timers set_conns set_procs
       setTimeout clearTimeout spawn bind ret snd fst
       vars timers conns procs fresh pythonInstalled out
       backendProcess clientProcess sseRequest tray popupWindow
       isShuttingDown isPaused sseReconnectTimer sseBackoffDelay
       _sessionOpInProgress] in *;
  try exact H.

(** The functions of the module that are built from the primitives
    without recursion are unfolded. *)
Ltac pres_unfold :=
  progress unfold window_live, send, sendErrorToRenderer, setTrayActive,
    disconnectSSE, connectSSE, scheduleSSEReconnect, on_message, on_data,
    on_response, on_stream_closed, on_request_error, set_phase, get_conn,
    startBackend, startClient, stopClient, stopBackend, cancel_escalation,
    on_backend_close, on_client_close, on_client_stdout, role_of,
    timer_action, handle, call, withTimeout, get_session_state,
    pause_session, resume_session, app_ready, release,
    setTimeout, clearTimeout, spawn.

Create HintDb pres.

(** [prim] closes the goals about single assignments and effects. *)
Ltac pres_with prim :=
  repeat first [ solve [ eauto with pres ] | pres_step | pres_unfold ];
  try solve [ prim ].

Ltac pres := pres_with pres_prim.

(** [Safe I Q p]: along every execution of [p] from a world satisfying
    [I], every synchronous segment keeps [I], and the result, if [p]
    finishes, satisfies [Q]. *)
Inductive Safe (I : World -> Prop) {R} (Q : Result R -> Prop)
  : Prog R -> Prop :=
| Safe_ret r : Q (Returned r) -> Safe I Q (Ret r)
| Safe_throw m : Q (Threw m) -> Safe I Q (Throw m)
| Safe_do {A} (m : M A) k :
    Preserves I m ->
    (forall w, Safe I Q (k (fst (m w)))) ->
    Safe I Q (Do m k)
| Safe_await wt k :
    (forall e o, wake wt e = Some o -> Safe I Q (k o)) ->
    Safe I Q (Await wt k).

Lemma Safe_do' I {R} (Q : Result R -> Prop) {A} (m : M A) k :
  Preserves I m -> (forall a, Safe I Q (k a)) -> Safe I Q (Do m k).
Proof. intros Hm Hk. constructor; auto. Qed.

Lemma Safe_weaken I {R} (Q Q' : Result R -> Prop) p :
  (forall res, Q res -> Q' res) -> Safe I Q p -> Safe I Q' p.
Proof. intros HQ H. induction H; constructor; auto. Qed.

(** The result of [p], continued as a program. *)
Definition of_result {R} (res : Result R) : Prog R :=
  match res with
  | Returned r => Ret r
  | Threw m => Throw m
  end.

Lemma Safe_pbind I {A B} (Q : Result A -> Prop) (Q' : Result B -> Prop)
      (p : Prog A) (f : A -> Prog B) :
  Safe I Q p ->
  (forall a, Q (Returned a) -> Safe I Q' (f a)) ->
  (forall m, Q (Threw m) -> Q' (Threw m)) ->
  Safe I Q' (pbind p f).
Proof.
  intros H Hf Ht. induction H; simpl; auto; constructor; auto.
Qed.

Lemma Safe_pcatch I {R} (Q Q' : Result R -> Prop) (p : Prog R) h :
  Safe I Q p ->
  (forall r, Q (Returned r) -> Q' (Returned r)) ->
  (forall m, Q (Threw m) -> Safe I Q' (h m)) ->
  Safe I Q' (pcatch p h).
Proof.
  intros H Hr Hh. induction H; simpl; auto; constructor; auto.
Qed.

Lemma Safe_pfinally I {R} (Q : Result R -> Prop) (p : Prog R) fin :
  Safe I Q p -> Preserves I fin -> Safe I Q (pfinally p fin).
Proof.
  intros H Hf. induction H; simpl; constructor; auto;
    intros; constructor; auto.
Qed.

Lemma Safe_await_promise I {R} (Q : Result R -> Prop) (p : Promise) k :
  (forall v, Safe I Q (k v)) ->
  (forall m, Q (Threw m)) ->
  Safe I Q (await p k).
Proof.
  intros Hk Ht. unfold await.
  destruct p as [[v|m]|wt]; auto.
  - constructor; auto.
  - constructor. intros e [v|m] _; auto. constructor; auto.
Qed.

(** *** Safety along [advance] and [run] *)

Lemma advance_result I {R} (Q : Result R -> Prop) (p : Prog R) :
  Safe I Q p ->
  forall w,
    match fst (advance p w) with
    | Finished res => Q res
    | Blocked wt k => forall e o, wake wt e = Some o -> Safe I Q (k o)
    end.
Proof.
  induction 1; intros w0; simpl; auto.
  specialize (H1 w0 (snd (m w0))).
  destruct (m w0) as [a w1]; simpl in *. exact H1.
Qed.

Lemma advance_keeps I {R} (Q : Result R -> Prop) (p : Prog R) :
  Safe I Q p -> forall w, I w -> I (snd (advance p w)).
Proof.
  induction 1; intros w0 Hw; simpl; auto.
  specialize (H w0 Hw). specialize (H1 w0 (snd (m w0))).
  destruct (m w0) as [a w1]; simpl in *. auto.
Qed.

Lemma advance_safe I {R} (Q : Result R -> Prop) (p : Prog R) :
  Safe I Q p ->
  forall w, I w ->
    I (snd (advance p w))
    /\ match fst (advance p w) with
       | Finished res => Q res
       | Blocked wt k => forall e o, wake wt e = Some o -> Safe I Q (k o)
       end.
Proof.
  intros Hp w Hw. split.
  - apply (advance_keeps I Q p Hp w Hw).
  - apply (advance_result I Q p Hp w).
Qed.

Lemma run_unfold {R} (p : Prog R) w evs :
  run p w evs
  = match advance p w with
    | (Finished res, w') => Done res w' evs
    | (Blocked wt k, w') =>
        match evs with
        | [] => Suspended wt k w'
        | e :: evs' =>
            if enabled e w' then
              match wake wt e with
              | Some o => run (k o) (exec (handle e) w') evs'
              | None => run (Await wt k) (exec (handle e) w') evs'
              end
            else run (Await wt k) w' evs'
        end
    end.
Proof. destruct evs; reflexivity. Qed.

Theorem run_safe I {R} (Q : Result R -> Prop) :
  (forall e, Preserves I (handle e)) ->
  forall evs (p : Prog R) w,
    Safe I Q p -> I w ->
    match run p w evs with
    | Done res w' _ => Q res /\ I w'
    | Suspended wt k w' =>
        I w' /\ forall e o, wake wt e = Some o -> Safe I Q (k o)
    end.
Proof.
  intros Hh. induction evs as [|e evs IH]; intros p w Hp Hw;
    rewrite run_unfold;
    destruct (advance_safe I Q p Hp w Hw) as [Hw' Hres];
    destruct (advance p w) as [[res|wt k] w']; simpl in *; auto.
  destruct (enabled e w').
  - destruct (wake wt e) as [o|] eqn:Hwake.
    + apply IH; [ eapply Hres; eauto | apply Hh, Hw' ].
    + apply IH; [constructor; auto | apply Hh, Hw'].
  - apply IH; auto. constructor; auto.
Qed.

(** *** The in-progress flag is written by the session handlers only *)

Definition flag_is (b : bool) (w : World) : Prop :=
  _sessionOpInProgress (vars w) = b.

Lemma flag_on_messages b msgs :
  forall cur, Preserves (flag_is b) (on_messages cur msgs).
Proof.
  unfold flag_is. induction msgs as [|msg msgs IH]; intros cur; simpl; pres.
Qed.
Hint Resolve flag_on_messages : pres.

Lemma flag_handle b e : Preserves (flag_is b) (handle e).
Proof. destruct e; pres; unfold flag_is; pres. Qed.

(** The structural steps of a safety proof whose result predicate is
    trivial. *)
Ltac safe_step :=
  match goal with
  | |- Safe _ _ (Ret _) => apply Safe_ret; exact I
  | |- Safe _ _ (Throw _) => apply Safe_throw; exact I
  | |- Safe _ _ (Do _ _) => apply Safe_do'; [ pres | intros ? ]
  | |- Safe _ _ (Await _ _) => apply Safe_await; intros ? ? _
  | |- Safe _ _ (await _ _) =>
      apply Safe_await_promise; [ intros ? | intros ?; exact I ]
  | |- Safe _ _ (pbind _ _) =>
      apply Safe_pbind with (Q := fun _ => True);
      [ | intros ? _ | intros ? _; exact I ]
  | |- Safe _ _ (pcatch _ _) =>
      apply Safe_pcatch with (Q := fun _ => True);
      [ | intros ? _; exact I | intros ? _ ]
  | |- Safe _ _ (match ?x with _ => _ end) => destruct x
  end.

Ltac safe := repeat safe_step; eauto with pres.

(** [p] never writes the in-progress flag. *)
Definition Quiet {R} (p : Prog R) : Prop :=
  forall b, Safe (flag_is b) (fun _ => True) p.

Lemma quiet_ensurePermissions : Quiet ensurePermissions.
Proof. intros b. unfold ensurePermissions, flag_is. safe. Qed.

Lemma quiet_waitForBackendReady n : Quiet (waitForBackendReady n).
Proof.
  intros b. unfold flag_is.
  induction n as [|n IH]; simpl; safe.
  all: destruct n; safe.
Qed.

Lemma quiet_session_body sourceType target :
  Quiet (session_body sourceType target).
Proof.
  intros b. unfold session_body.
  apply Safe_pbind with (Q := fun _ => True);
    [ apply quiet_ensurePermissions | intros permsOk _ | intros; exact I ].
  destruct permsOk; simpl; [ | safe ].
  unfold flag_is. safe.
Qed.

Lemma quiet_rollback m : Quiet (rollback m).
Proof. intros b. unfold rollback, flag_is. safe. Qed.

Lemma quiet_stop_body : Quiet stop_body.
Proof. intros b. unfold stop_body, flag_is. safe. Qed.

Lemma quiet_shutdownApp : Quiet shutdownApp.
Proof. intros b. unfold shutdownApp, flag_is. safe. Qed.

(** *** Mutual exclusion of start-session and stop-session *)

(** The two handlers guarded by [_sessionOpInProgress]. *)
Definition session_op (h : Handler) : bool :=
  match h with
  | StartSession _ _ | StopSession => true
  | _ => false
  end.

(** The guarded invocations in flight. *)
Definition in_flight (ts : list Task) : list Task :=
  filter (fun t => session_op (task_handler t)) ts.

(** What a guarded handler runs once it has passed the guard. *)
Definition under_guard (h : Handler) : Prog Reply :=
  match h with
  | StartSession sourceType target =>
      pfinally (pcatch (session_body sourceType target) rollback) release
  | _ => pfinally (pcatch stop_body (fun m => Ret (Failure m))) release
  end.

Lemma program_guarded h :
  session_op h = true ->
  program h
  = Do (get _sessionOpInProgress) (fun busy =>
      if (busy : bool) then Ret (Failure "Operation already in progress")
      else Do (set_sessionOpInProgress true) (fun _ => under_guard h)).
Proof. destruct h; try discriminate; reflexivity. Qed.

(** A program that runs with the flag set and clears it exactly when it
    finishes: the rest of a [try ... finally] around a quiet body. *)
Definition Holding (p : Prog Reply) : Prop :=
  exists q, p = pfinally q release
            /\ Safe (flag_is true) (fun _ => True) q.

Lemma advance_holding p :
  Holding p ->
  forall w, flag_is true w ->
    match advance p w with
    | (Finished _, w') => flag_is false w'
    | (Blocked wt k, w') =>
        flag_is true w'
        /\ forall e o, wake wt e = Some o -> Holding (k o)
    end.
Proof.
  intros [q [-> Hq]].
  induction Hq as [r _|m _|A m k Hm Hk IH|wt k Hk IH]; intros w Hw; simpl.
  - destruct w as [[] ? ? ? ? ? ?]; reflexivity.
  - destruct w as [[] ? ? ? ? ? ?]; reflexivity.
  - specialize (Hm w Hw). specialize (IH w (snd (m w))).
    destruct (m w) as [a w1]; simpl in *. apply IH, Hm.
  - split; [ exact Hw | ]. intros e o Hwake. exists (k o). split; eauto.
Qed.

Lemma holding_under_guard h : Holding (under_guard h).
Proof.
  assert (Hstop : Holding (pfinally (pcatch stop_body
                                       (fun m => Ret (Failure m))) release)).
  { eexists; split; [ reflexivity | ].
    apply Safe_pcatch with (Q := fun _ => True); auto.
    - apply quiet_stop_body.
    - intros m _. constructor; exact I. }
  destruct h; try exact Hstop.
  eexists; split; [ reflexivity | ].
  apply Safe_pcatch with (Q := fun _ => True); auto.
  - apply quiet_session_body.
  - intros m _. apply quiet_rollback.
Qed.

Lemma quiet_program h : session_op h = false -> Quiet (program h).
Proof.
  destruct h; simpl; intros Hh; try discriminate; intros b.
  - unfold flag_is. safe.
  - unfold flag_is. safe.
  - unfold flag_is. safe.
  - apply quiet_shutdownApp.
Qed.

Definition task_ok (t : Task) : Prop :=
  if session_op (task_handler t)
  then forall e o, wake (task_wait t) e = Some o -> Holding (task_cont t o)
  else forall e o, wake (task_wait t) e = Some o -> Quiet (task_cont t o).

Definition busy (ts : list Task) : bool :=
  match in_flight ts with
  | [] => false
  | _ :: _ => true
  end.

(** The invariant of the event loop: at most one guarded invocation is
    in flight, and the flag is set exactly while one is. *)
Definition exclusive (c : Loop) : Prop :=
  Forall task_ok (tasks c)
  /\ (List.length (in_flight (tasks c)) <= 1)%nat
  /\ flag_is (busy (tasks c)) (world c).

Lemma in_flight_snoc ts t :
  in_flight (ts ++ [t])
  = (in_flight ts ++ if session_op (task_handler t) then [t] else [])%list.
Proof. unfold in_flight. rewrite filter_app. simpl. now destruct session_op. Qed.

(** One continuation step of an invocation that holds the flag
    ([guarded = true]) or never touches it. *)
Lemma advance_task (guarded : bool) (p : Prog Reply) w :
  (if guarded then Holding p else Quiet p) ->
  flag_is (if guarded then true else _sessionOpInProgress (vars w)) w ->
  match advance p w with
  | (Finished _, w') =>
      flag_is (if guarded then false else _sessionOpInProgress (vars w)) w'
  | (Blocked wt k, w') =>
      flag_is (if guarded then true else _sessionOpInProgress (vars w)) w'
      /\ if guarded
         then forall e o, wake wt e = Some o -> Holding (k o)
         else forall e o, wake wt e = Some o -> Quiet (k o)
  end.
Proof.
  destruct guarded; intros Hp Hw.
  - apply advance_holding; auto.
  - pose proof (advance_keeps _ _ _ (Hp _) w Hw) as Hkeep.
    assert (Hres : forall b, match fst (advance p w) with
                             | Finished _ => True
                             | Blocked wt k =>
                                 forall e o, wake wt e = Some o ->
                                   Safe (flag_is b) (fun _ => True) (k o)
                             end).
    { intros b. apply (advance_result _ _ _ (Hp b) w). }
    destruct (advance p w) as [[res|wt k] w']; simpl in *; auto.
    split; auto. intros e o Hwake b. apply (Hres b e o Hwake).
Qed.

Lemma exclusive_invoke h c : exclusive c -> exclusive (invoke h c).
Proof.
  intros (Hok & Hlen & Hflag). unfold invoke, exclusive.
  destruct (session_op h) eqn:Hh.
  - (* a guarded handler *)
    rewrite (program_guarded h Hh).
    cbn [advance get]. unfold flag_is in Hflag. rewrite Hflag.
    destruct (busy (tasks c)) eqn:Hbusy.
    + cbn. repeat split; auto. unfold flag_is. congruence.
    + cbn [advance].
      pose proof (advance_task true (under_guard h)
                    (exec (set_sessionOpInProgress true) (world c))
                    (holding_under_guard h)) as Hadv.
      unfold exec in Hadv.
      destruct (set_sessionOpInProgress true (world c)) as [[] w1] eqn:Hset.
      cbn [snd] in Hadv.
      assert (Hw1 : flag_is true w1).
      { destruct (world c) as [[] ? ? ? ? ? ?]. inversion Hset. reflexivity. }
      specialize (Hadv Hw1).
      unfold busy in Hbusy.
      destruct (in_flight (tasks c)) eqn:Hin; try discriminate.
      destruct (advance (under_guard h) w1) as [[res|wt k] w'];
        cbn [world tasks replies].
      * repeat split; auto. rewrite Hin. auto. unfold busy. rewrite Hin. exact Hadv.
      * destruct Hadv as [Hw' Hk].
        repeat split.
        -- apply Forall_app; split; auto. constructor; auto.
           unfold task_ok; cbn. rewrite Hh. exact Hk.
        -- rewrite in_flight_snoc, Hin. cbn. rewrite Hh. cbn. lia.
        -- unfold busy. rewrite in_flight_snoc, Hin. cbn. rewrite Hh.
           exact Hw'.
  - (* the other handlers do not touch the flag *)
    pose proof (advance_task false (program h) (world c)
                  (quiet_program h Hh) eq_refl) as Hadv.
    cbv beta iota in Hadv.
    destruct (advance (program h) (world c)) as [[res|wt k] w'];
      cbn [world tasks replies].
    + repeat split; auto. unfold flag_is in *. now rewrite Hadv.
    + destruct Hadv as [Hw' Hk]. repeat split.
      * apply Forall_app; split; auto. constructor; auto.
        unfold task_ok; cbn. rewrite Hh. exact Hk.
      * rewrite in_flight_snoc. cbn. rewrite Hh, app_nil_r. auto.
      * unfold busy. rewrite in_flight_snoc. cbn. rewrite Hh, app_nil_r.
        unfold flag_is in *. now rewrite Hw'.
Qed.

Definition guarded_count (ts : list Task) : nat :=
  List.length (in_flight ts).

Lemma guarded_count_app ts ts' :
  guarded_count (ts ++ ts') = (guarded_count ts + guarded_count ts')%nat.
Proof. unfold guarded_count, in_flight. now rewrite filter_app, length_app. Qed.

Lemma guarded_count_cons t ts :
  guarded_count (t :: ts)
  = ((if session_op (task_handler t) then 1 else 0) + guarded_count ts)%nat.
Proof. unfold guarded_count, in_flight. simpl. now destruct session_op. Qed.

Lemma busy_count ts : busy ts = negb (Nat.eqb (guarded_count ts) 0).
Proof. unfold busy, guarded_count. now destruct (in_flight ts). Qed.

Lemma exclusive_resume e :
  forall ts acc,
    Forall task_ok ts ->
    Forall task_ok (tasks acc) ->
    (guarded_count (tasks acc ++ ts) <= 1)%nat ->
    flag_is (busy (tasks acc ++ ts)) (world acc) ->
    exclusive (fold_left (resume e) ts acc).
Proof.
  induction ts as [|t ts IH]; intros acc Hts Hacc Hlen Hflag.
  - simpl. rewrite app_nil_r in *. repeat split; auto.
  - inversion Hts as [|? ? Ht Hts']; subst. simpl.
    rewrite busy_count in Hflag.
    rewrite guarded_count_app, guarded_count_cons in Hlen, Hflag.
    unfold resume at 2.
    destruct (wake (task_wait t) e) as [o|] eqn:Hwake.
    + unfold task_ok in Ht.
      pose proof (advance_task (session_op (task_handler t))
                    (task_cont t o) (world acc)) as Hadv.
      destruct (session_op (task_handler t)) eqn:Hg.
      * (* the guarded invocation continues *)
        assert (Hz : guarded_count (tasks acc) = O /\ guarded_count ts = O)
          by lia.
        destruct Hz as [Hz1 Hz2]. rewrite Hz1, Hz2 in Hflag.
        specialize (Hadv (Ht e o Hwake) Hflag).
        destruct (advance (task_cont t o) (world acc)) as [[res|wt k] w'].
        -- apply IH; cbn [world tasks replies]; auto.
           ++ rewrite guarded_count_app. lia.
           ++ rewrite busy_count, guarded_count_app, Hz1, Hz2. exact Hadv.
        -- destruct Hadv as [Hw' Hk].
           apply IH; cbn [world tasks replies]; auto.
           ++ apply Forall_app; split; auto. constructor; auto.
              unfold task_ok; cbn. rewrite Hg. exact Hk.
           ++ rewrite !guarded_count_app, guarded_count_cons. cbn.
              rewrite Hg, Hz1, Hz2. cbn. lia.
           ++ rewrite busy_count, !guarded_count_app, guarded_count_cons.
              cbn. rewrite Hg, Hz1, Hz2. exact Hw'.
      * (* an invocation that never touches the flag continues *)
        specialize (Hadv (Ht e o Hwake) eq_refl). cbv beta iota in Hadv.
        destruct (advance (task_cont t o) (world acc)) as [[res|wt k] w'].
        -- apply IH; cbn [world tasks replies]; auto.
           ++ rewrite guarded_count_app. lia.
           ++ rewrite busy_count, guarded_count_app.
              unfold flag_is in *. now rewrite Hadv.
        -- destruct Hadv as [Hw' Hk].
           apply IH; cbn [world tasks replies]; auto.
           ++ apply Forall_app; split; auto. constructor; auto.
              unfold task_ok; cbn. rewrite Hg. exact Hk.
           ++ rewrite !guarded_count_app, guarded_count_cons. cbn.
              rewrite Hg. cbn. lia.
           ++ rewrite busy_count, !guarded_count_app, guarded_count_cons.
              cbn. rewrite Hg. cbn.
              unfold flag_is in *. rewrite Hw', Hflag.
              f_equal. f_equal. lia.
    + apply IH; cbn [world tasks replies]; auto.
      * apply Forall_app; split; auto.
      * rewrite <- app_assoc. cbn.
        rewrite guarded_count_app, guarded_count_cons. exact Hlen.
      * rewrite <- app_assoc. cbn.
        rewrite busy_count, guarded_count_app, guarded_count_cons.
        exact Hflag.
Qed.

Lemma exclusive_deliver e c : exclusive c -> exclusive (deliver e c).
Proof.
  intros (Hok & Hlen & Hflag). unfold deliver.
  destruct (enabled e (world c)); [ | repeat split; auto ].
  apply exclusive_resume; cbn [world tasks replies]; auto.
  apply flag_handle, Hflag.
Qed.

Lemma exclusive_steps inputs :
  forall c, exclusive c -> exclusive (steps c inputs).
Proof.
  induction inputs as [|i inputs IH]; intros c Hc; simpl; auto.
  apply IH. destruct i; [ apply exclusive_invoke | apply exclusive_deliver ];
    exact Hc.
Qed.

(** C4: in every state the event loop can reach from a state with no
    invocation in flight, at most one start-session or stop-session
    invocation is in flight; and while one is, any further
    start-session or stop-session invocation returns
    [{ success: false, error: 'Operation already in progress' }] in its
    synchronous part, leaving the world and the invocations in flight
    as they were: it is neither queued nor run. *)
Theorem session_operations_are_mutually_exclusive :
  forall (w : World) (inputs : list Input),
    _sessionOpInProgress (vars w) = false ->
    let c := steps (idle w) inputs in
    (List.length (in_flight (tasks c)) <= 1)%nat
    /\ forall h,
         session_op h = true ->
         in_flight (tasks c) <> [] ->
         invoke h c
         = {| world := world c;
              tasks := tasks c;
              replies :=
                (replies c
                 ++ [(h, Returned (Failure "Operation already in progress"))])%list
           |}.
Proof.
  intros w inputs Hw c.
  assert (Hc : exclusive c).
  { apply exclusive_steps. repeat split; auto. }
  destruct Hc as (Hok & Hlen & Hflag). split; [ exact Hlen | ].
  intros h Hh Hin. unfold invoke.
  rewrite (program_guarded h Hh). cbn [advance get].
  unfold flag_is, busy in Hflag. rewrite Hflag.
  destruct (in_flight (tasks c)); [ contradiction | reflexivity ].
Qed.

(** *** Framing of the event stream *)

(** No line feed among the code units of [s]. *)
Fixpoint no_newline (s : string) : bool :=
  match s with
  | EmptyString => true
  | String c s' => negb (Ascii.eqb c Js.LF) && no_newline s'
  end.

Lemma string_app_assoc (a b c : string) : (a ++ b) ++ c = a ++ (b ++ c).
Proof. induction a; simpl; congruence. Qed.

Lemma string_app_nil (a : string) : a ++ "" = a.
Proof. induction a; simpl; congruence. Qed.

(** Scanning for a separator that begins with a line feed passes over a
    text that has none. *)
Lemma split_go_no_newline sep' :
  forall s t cur,
    no_newline s = true ->
    Js.split_go (String Js.LF sep') (s ++ t) O cur
    = Js.split_go (String Js.LF sep') t O (cur ++ s).
Proof.
  induction s as [|c s IH]; intros t cur Hs.
  - simpl. now rewrite string_app_nil.
  - simpl in Hs. apply andb_prop in Hs. destruct Hs as [Hc Hs].
    cbn [append Js.split_go String.prefix].
    destruct (ascii_dec Js.LF c) as [E|Hne].
    + subst c. rewrite Ascii.eqb_refl in Hc. discriminate.
    + rewrite IH by exact Hs.
      now rewrite string_app_assoc.
Qed.

Lemma prefix_empty t : String.prefix "" t = true.
Proof. destruct t; reflexivity. Qed.

Lemma split_go_at_separator sep' t cur :
  String.prefix sep' t = true ->
  Js.split_go (String Js.LF sep') (String Js.LF t) O cur
  = cur :: Js.split_go (String Js.LF sep') t (String.length sep') "".
Proof.
  intros Hp. cbn [Js.split_go String.prefix String.length Nat.pred].
  destruct (ascii_dec Js.LF Js.LF) as [_|Hn]; [ | contradiction ].
  now rewrite Hp.
Qed.

Lemma split_lines_single s :
  no_newline s = true -> Js.split Js.nl s = [s].
Proof.
  intros Hs. unfold Js.split, Js.nl.
  rewrite <- (string_app_nil s) at 1.
  rewrite split_go_no_newline by exact Hs. reflexivity.
Qed.

Lemma split_lines_two a b :
  no_newline a = true -> no_newline b = true ->
  Js.split Js.nl (a ++ Js.nl ++ b) = [a; b].
Proof.
  intros Ha Hb. unfold Js.split, Js.nl.
  rewrite split_go_no_newline by exact Ha.
  cbn [append]. rewrite split_go_at_separator by apply prefix_empty.
  cbn [String.length append]. f_equal.
  rewrite <- (string_app_nil b) at 1.
  rewrite split_go_no_newline by exact Hb. reflexivity.
Qed.

Definition blank_line : string := Js.nl ++ Js.nl.

(** *** Framing does not depend on how the stream is cut into chunks *)

Lemma split_go_step sep c s cur :
  Js.split_go sep (String c s) O cur
  = if String.prefix sep (String c s)
    then cur :: Js.split_go sep s (Nat.pred (String.length sep)) ""
    else Js.split_go sep s O (cur ++ String c "").
Proof. reflexivity. Qed.

Lemma split_go_nonempty sep s :
  forall skip cur, Js.split_go sep s skip cur <> [].
Proof.
  induction s as [|c s IH]; intros skip cur; [ discriminate | ].
  destruct skip as [|k]; [ | apply IH ].
  rewrite split_go_step.
  destruct (String.prefix sep (String c s)); [ discriminate | apply IH ].
Qed.

Lemma blank_line_here s :
  String.prefix blank_line s = true ->
  exists t, s = String Js.LF (String Js.LF t).
Proof.
  intros H.
  destruct s as [|a [|b t]];
    cbn [String.prefix blank_line Js.nl append] in H; try discriminate H.
  - destruct (ascii_dec Js.LF a); discriminate H.
  - destruct (ascii_dec Js.LF a) as [<-|]; [ | discriminate H ].
    destruct (ascii_dec Js.LF b) as [<-|]; [ | discriminate H ].
    now exists t.
Qed.

Lemma blank_line_prefix t :
  String.prefix blank_line (String Js.LF (String Js.LF t)) = true.
Proof.
  cbn [String.prefix blank_line Js.nl append].
  destruct (ascii_dec Js.LF Js.LF) as [_|Hn]; [ | contradiction ].
  destruct t; reflexivity.
Qed.

(** No blank line begins within [u] when [u] is followed by [y]. *)
Fixpoint unbroken (u y : string) : bool :=
  match u with
  | EmptyString => true
  | String c u' =>
      negb (String.prefix blank_line (String c (u' ++ y))) && unbroken u' y
  end.

Lemma unbroken_snoc u c y :
  unbroken (u ++ String c "") y
  = unbroken u (String c y)
    && negb (String.prefix blank_line (String c y)).
Proof.
  induction u as [|a u IH]; cbn [append unbroken].
  - now rewrite andb_true_r.
  - rewrite IH, string_app_assoc. cbn [append]. now rewrite andb_assoc.
Qed.

(** Scanning again a piece that was read before reads it as before. *)
Lemma split_go_unbroken u :
  forall y pre,
    unbroken u y = true ->
    Js.split_go blank_line (u ++ y) O pre
    = Js.split_go blank_line y O (pre ++ u).
Proof.
  induction u as [|c u IH]; intros y pre Hu.
  - now rewrite string_app_nil.
  - cbn [unbroken] in Hu. apply andb_prop in Hu. destruct Hu as [Hc Hu].
    apply negb_true_iff in Hc.
    cbn [append]. rewrite split_go_step, Hc, IH by exact Hu.
    now rewrite string_app_assoc.
Qed.

Lemma removelast_cons {A} (a : A) l :
  l <> [] -> removelast (a :: l) = a :: removelast l.
Proof. destruct l; [ contradiction | reflexivity ]. Qed.

Lemma last_cons {A} (a d : A) l :
  l <> [] -> List.last (a :: l) d = List.last l d.
Proof. destruct l; [ contradiction | reflexivity ]. Qed.

Lemma last_app_nonempty {A} (l l' : list A) d :
  l' <> [] -> List.last (l ++ l') d = List.last l' d.
Proof.
  intros Hl'. induction l as [|a l IH]; [ reflexivity | ].
  cbn [app]. rewrite last_cons; [ exact IH | ].
  destruct l; [ exact Hl' | discriminate ].
Qed.

Lemma split_go_chunked n :
  forall x, (String.length x <= n)%nat ->
  forall cur y,
    unbroken cur (x ++ y) = true ->
    Js.split_go blank_line (x ++ y) O cur
    = (removelast (Js.split_go blank_line x O cur)
       ++ Js.split_go blank_line
            (List.last (Js.split_go blank_line x O cur) "" ++ y) O "")%list.
Proof.
  induction n as [|n IH]; intros x Hlen cur y Hcur.
  - destruct x; [ | simpl in Hlen; lia ].
    cbn [append Js.split_go removelast List.last app].
    now rewrite (split_go_unbroken cur y "").
  - destruct x as [|c x].
    { cbn [append Js.split_go removelast List.last app].
      now rewrite (split_go_unbroken cur y ""). }
    cbn [append]. rewrite !split_go_step.
    destruct (String.prefix blank_line (String c x)) eqn:Hin.
    + (* the blank line lies within the first part *)
      destruct (blank_line_here _ Hin) as [t Ht].
      inversion Ht; subst c x.
      cbn [append]. rewrite blank_line_prefix.
      cbn [String.length blank_line Js.nl append Nat.pred Js.split_go].
      rewrite removelast_cons, last_cons by apply split_go_nonempty.
      cbn [app]. f_equal.
      apply IH; [ simpl in Hlen; lia | reflexivity ].
    + destruct (String.prefix blank_line (String c (x ++ y))) eqn:Hover.
      * (* the blank line straddles the cut *)
        destruct (blank_line_here _ Hover) as [t Ht].
        inversion Ht as [[Hc Hx]]. subst c.
        destruct x as [|b x].
        -- cbn [append] in Hx. subst y.
           cbn [Js.split_go removelast List.last app].
           cbn [String.length blank_line Js.nl append Nat.pred Js.split_go].
           rewrite string_app_assoc. cbn [append].
           rewrite (split_go_unbroken cur _ "") by exact Hcur.
           rewrite split_go_step, blank_line_prefix. reflexivity.
        -- cbn [append] in Hx. inversion Hx; subst b.
           rewrite blank_line_prefix in Hin. discriminate.
      * apply IH; [ simpl in Hlen; lia | ].
        rewrite unbroken_snoc, Hover. cbn [append] in Hcur.
        now rewrite Hcur.
Qed.

(** [buffer.split('\n\n')] of a stream read in two parts: the blocks
    of the first part, then the blocks of its remainder followed by the
    second part. *)
Lemma split_chunked x y :
  Js.split blank_line (x ++ y)
  = (removelast (Js.split blank_line x)
     ++ Js.split blank_line (List.last (Js.split blank_line x) "" ++ y))%list.
Proof. apply (split_go_chunked (String.length x)); auto. Qed.

(** *** Event blocks *)

(** An event as the service writes it: an optional [id: ] line and a
    [data: ] line. *)
Definition event_block (id : option string) (data : string) : string :=
  match id with
  | Some i => ("id: " ++ i) ++ Js.nl ++ ("data: " ++ data)
  | None => "data: " ++ data
  end.

(** Neither field holds a line feed. *)
Definition one_line_fields (id : option string) (data : string) : bool :=
  match id with
  | Some i => no_newline i && no_newline data
  | None => no_newline data
  end.

Lemma no_blank_line_at c t :
  Ascii.eqb c Js.LF = false ->
  String.prefix blank_line (String c t) = false.
Proof.
  intros Hc. cbn [String.prefix blank_line Js.nl append].
  destruct (ascii_dec Js.LF c) as [E|_]; [ | reflexivity ].
  subst c. rewrite Ascii.eqb_refl in Hc. discriminate.
Qed.

Lemma no_blank_line_at_lone_newline c t :
  Ascii.eqb c Js.LF = false ->
  String.prefix blank_line (String Js.LF (String c t)) = false.
Proof.
  intros Hc. cbn [String.prefix blank_line Js.nl append].
  destruct (ascii_dec Js.LF Js.LF) as [_|Hn]; [ | contradiction ].
  destruct (ascii_dec Js.LF c) as [E|_]; [ | reflexivity ].
  subst c. rewrite Ascii.eqb_refl in Hc. discriminate.
Qed.

Lemma unbroken_line s :
  no_newline s = true -> forall y, unbroken s y = true.
Proof.
  induction s as [|c s IH]; intros Hs y; [ reflexivity | ].
  simpl in Hs. apply andb_prop in Hs. destruct Hs as [Hc Hs].
  apply negb_true_iff in Hc.
  cbn [unbroken]. now rewrite IH, no_blank_line_at.
Qed.

Lemma unbroken_app u v y :
  unbroken (u ++ v) y = unbroken u (v ++ y) && unbroken v y.
Proof.
  induction u as [|c u IH]; cbn [append unbroken]; [ reflexivity | ].
  now rewrite IH, string_app_assoc, andb_assoc.
Qed.

Lemma unbroken_event_block id data y :
  one_line_fields id data = true ->
  unbroken (event_block id data) y = true.
Proof.
  destruct id as [i|]; cbn [one_line_fields event_block]; intros H.
  - apply andb_prop in H. destruct H as [Hi Hd].
    rewrite unbroken_app, unbroken_line by (simpl; exact Hi).
    cbn [andb append Js.nl unbroken].
    rewrite no_blank_line_at_lone_newline by reflexivity.
    apply (unbroken_line ("data: " ++ data)). simpl. exact Hd.
  - apply unbroken_line. simpl. exact H.
Qed.

(** A block closed by a blank line is framed off what follows it. *)
Lemma split_block a rest cur :
  unbroken a (blank_line ++ rest) = true ->
  Js.split_go blank_line (a ++ blank_line ++ rest) O cur
  = (cur ++ a) :: Js.split_go blank_line rest O "".
Proof.
  intros Ha. rewrite split_go_unbroken by exact Ha.
  change (blank_line ++ rest) with (String Js.LF (String Js.LF rest)).
  rewrite split_go_step, blank_line_prefix. reflexivity.
Qed.

(** Two events, each closed by a blank line, are framed as the two
    blocks and an empty remainder. *)
Lemma split_two_blocks id1 data1 id2 data2 :
  one_line_fields id1 data1 = true ->
  one_line_fields id2 data2 = true ->
  Js.split blank_line
    (event_block id1 data1 ++ blank_line
     ++ event_block id2 data2 ++ blank_line)
  = [event_block id1 data1; event_block id2 data2; ""].
Proof.
  intros H1 H2. unfold Js.split.
  rewrite split_block by (apply unbroken_event_block, H1).
  rewrite <- (string_app_nil blank_line) at 2.
  rewrite split_block by (apply unbroken_event_block, H2).
  reflexivity.
Qed.

(** [if (eventId) currentLastId = eventId] *)
Definition next_cursor (currentLastId : Z) (eventId : Js.number) : Z :=
  match eventId with
  | Js.Int z => if Js.truthy_number (Js.Int z) then z else currentLastId
  | Js.NaN => currentLastId
  end.

(** The cursor once an event with this [id: ] line, if it has one, has
    been relayed. *)
Definition cursor_after (currentLastId : Z) (id : option string) : Z :=
  match id with
  | Some i => next_cursor currentLastId (Js.parseInt i)
  | None => currentLastId
  end.

Lemma read_block_event id data :
  one_line_fields id data = true ->
  read_block (event_block id data)
  = (match id with Some i => Some (Js.parseInt i) | None => None end,
     Some data).
Proof.
  destruct id as [i|]; cbn [one_line_fields event_block]; intros H;
    unfold read_block.
  - apply andb_prop in H. destruct H as [Hi Hd].
    rewrite split_lines_two by (simpl; assumption).
    cbn [fold_left read_line append]. unfold Js.startsWith.
    cbn [String.prefix]. cbn. rewrite !prefix_empty.
    cbn. now rewrite !prefix_empty.
  - rewrite split_lines_single by (simpl; exact H).
    cbn [fold_left read_line append]. unfold Js.startsWith.
    cbn. now rewrite prefix_empty.
Qed.

Lemma event_block_not_blank id data :
  Js.trim_is_empty (event_block id data) = false.
Proof. destruct id; reflexivity. Qed.

(** An event whose payload does not parse is dropped: nothing is sent
    and the cursor stays. *)
Lemma on_message_malformed cur id bad w :
  one_line_fields id bad = true ->
  JSON_parse bad = None ->
  on_message cur (event_block id bad) w = (cur, w).
Proof.
  intros Hf Hbad. unfold on_message.
  rewrite event_block_not_blank, read_block_event by exact Hf.
  destruct bad as [|c bad]; [ reflexivity | ].
  cbn [Js.truthy_string]. now rewrite Hbad.
Qed.

Lemma on_message_well_formed cur id good parsed w :
  one_line_fields id good = true ->
  good <> "" ->
  JSON_parse good = Some parsed ->
  isPaused (vars w) = false ->
  on_message cur (event_block id good) w
  = (cursor_after cur id,
     exec (send "fact-check-alert" (PAlert parsed)) w).
Proof.
  intros Hf Hne Hparse Hpaused. unfold on_message.
  rewrite event_block_not_blank, read_block_event by exact Hf.
  destruct good as [|c good]; [ contradiction | ].
  cbn [Js.truthy_string]. rewrite Hparse.
  unfold bind, get, exec, ret. rewrite Hpaused. cbn [negb].
  destruct (send "fact-check-alert" (PAlert parsed) w) as [[] w1].
  unfold cursor_after, next_cursor.
  destruct id as [i|]; [ destruct (Js.parseInt i) | ]; reflexivity.
Qed.

Lemma lookup_set_phase req ph :
  forall l c,
    lookup req l = Some c ->
    lookup req
      (map (fun e : ReqId * Conn =>
              if Nat.eqb (fst e) req
              then (fst e, {| conn_lastId := conn_lastId (snd e);
                              conn_phase := ph |})
              else e) l)
    = Some {| conn_lastId := conn_lastId c; conn_phase := ph |}.
Proof.
  induction l as [|[k c'] l IH]; intros c Hl; simpl in *; [ discriminate | ].
  destruct (Nat.eqb k req) eqn:Hk; simpl; rewrite Hk.
  - inversion Hl; subst. reflexivity.
  - apply IH, Hl.
Qed.

Lemma on_data_two_events w req lastId cur id1 bad id2 good parsed :
  lookup req (conns w)
    = Some {| conn_lastId := lastId; conn_phase := Streaming "" cur |} ->
  isPaused (vars w) = false ->
  one_line_fields id1 bad = true ->
  one_line_fields id2 good = true ->
  JSON_parse bad = None ->
  good <> "" ->
  JSON_parse good = Some parsed ->
  on_data req
    (event_block id1 bad ++ blank_line ++ event_block id2 good ++ blank_line)
    w
  = set_phase req (Streaming "" (cursor_after cur id2))
      (exec (send "fact-check-alert" (PAlert parsed)) w).
Proof.
  intros Hconn Hpaused Hbad Hgood Hpb Hne Hpg.
  unfold on_data, get_conn, bind at 1. rewrite Hconn.
  cbv beta iota.
  change ("" ++ ?x) with x. fold blank_line.
  rewrite split_two_blocks by assumption.
  cbn [removelast List.last on_messages]. unfold bind.
  rewrite on_message_malformed by assumption.
  cbv beta iota.
  rewrite (on_message_well_formed cur id2 good parsed) by assumption.
  reflexivity.
Qed.

(** One chunk holding one event whose [data: ] payload does not parse,
    followed by one event that does. *)
Lemma one_chunk_relayed :
  forall (w : World) (req : ReqId) (lastId cur : Z)
         (id1 id2 : option string) (bad good : string) (parsed : Js.json),
    lookup req (conns w)
      = Some {| conn_lastId := lastId; conn_phase := Streaming "" cur |} ->
    isPaused (vars w) = false ->
    popupWindow (vars w) = Some {| isDestroyed := false |} ->
    one_line_fields id1 bad = true ->
    one_line_fields id2 good = true ->
    JSON_parse bad = None ->
    good <> "" ->
    JSON_parse good = Some parsed ->
    let chunk :=
      event_block id1 bad ++ blank_line
      ++ event_block id2 good ++ blank_line in
    let w' := exec (handle (SseData req chunk)) w in
    since w w' = [ESend "fact-check-alert" (PAlert parsed)]
    /\ vars w' = vars w
    /\ timers w' = timers w
    /\ lookup req (conns w')
       = Some {| conn_lastId := lastId;
                 conn_phase := Streaming "" (cursor_after cur id2) |}.
Proof.
  intros w req lastId cur id1 id2 bad good parsed
         Hconn Hpaused Hwin Hbad Hgood Hpb Hne Hpg chunk w'.
  subst w' chunk.
  unfold exec at 1 2 3 4, handle.
  rewrite (on_data_two_events w req lastId cur id1 bad id2 good parsed)
    by assumption.
  destruct w as [[] ts cs ps f py o]. cbn in Hwin, Hconn. subst.
  cbv [bind ret exec send window_live get set_phase since emit set_conns
       snd fst vars popupWindow isDestroyed negb out timers conns].
  rewrite skipn_length_app.
  repeat split.
  apply (lookup_set_phase req _ cs _ Hconn).
Qed.

(** *** Chunks *)

Lemma on_messages_app msgs msgs' :
  forall cur w,
    on_messages cur (msgs ++ msgs') w
    = on_messages (fst (on_messages cur msgs w)) msgs'
        (snd (on_messages cur msgs w)).
Proof.
  induction msgs as [|msg msgs IH]; intros cur w; [ reflexivity | ].
  cbn [app on_messages]. unfold bind.
  destruct (on_message cur msg w) as [last w1]. apply IH.
Qed.

(** The event blocks are handled without looking at the requests. *)
Lemma on_message_conns f cur msg w :
  on_message cur msg (exec (set_conns f) w)
  = (fst (on_message cur msg w), exec (set_conns f) (snd (on_message cur msg w))).
Proof.
  unfold on_message.
  destruct (Js.trim_is_empty msg); [ reflexivity | ].
  destruct (read_block msg) as [eventId [data|]]; [ | reflexivity ].
  destruct (Js.truthy_string data); [ | reflexivity ].
  destruct (JSON_parse data); [ | reflexivity ].
  destruct w as [[bp cp rq tr pw sd ip rt bd fl] ts cs ps fr py o].
  unfold bind, get, send, window_live, emit, ret, exec, set_conns. cbn.
  destruct ip; cbn; [ reflexivity | ].
  destruct pw as [[[]]|]; reflexivity.
Qed.

Lemma on_messages_conns f msgs :
  forall cur w,
    on_messages cur msgs (exec (set_conns f) w)
    = (fst (on_messages cur msgs w),
       exec (set_conns f) (snd (on_messages cur msgs w))).
Proof.
  induction msgs as [|msg msgs IH]; intros cur w; [ reflexivity | ].
  cbn [on_messages]. unfold bind at 1 2 3.
  rewrite on_message_conns.
  destruct (on_message cur msg w) as [last w1]. cbn [fst snd]. apply IH.
Qed.

Lemma conns_on_messages cs msgs :
  forall cur, Preserves (fun w => conns w = cs) (on_messages cur msgs).
Proof. induction msgs as [|msg msgs IH]; intros cur; simpl; pres. Qed.

Lemma set_phase_twice req ph ph' w :
  exec (set_phase req ph') (exec (set_phase req ph) w)
  = exec (set_phase req ph') w.
Proof.
  destruct w as [s ts cs ps fr py o].
  unfold set_phase, set_conns, exec. cbn. f_equal.
  rewrite map_map. apply map_ext. intros [k c]. cbn.
  destruct (Nat.eqb k req) eqn:Hk; cbn; now rewrite Hk.
Qed.

(** The 'data' handler of a request that is streaming. *)
Lemma on_data_streaming req chunk w lastId buffer cur :
  lookup req (conns w)
    = Some {| conn_lastId := lastId; conn_phase := Streaming buffer cur |} ->
  let messages := Js.split blank_line (buffer ++ chunk) in
  let r := on_messages cur (removelast messages) w in
  exec (on_data req chunk) w
  = exec (set_phase req (Streaming (List.last messages "") (fst r))) (snd r).
Proof.
  intros Hc messages r. subst r messages.
  unfold exec, on_data, get_conn, bind at 1. rewrite Hc. cbv beta iota.
  unfold bind. fold blank_line.
  destruct (on_messages cur _ w) as [last w1]. reflexivity.
Qed.

(** Two chunks are handled as their concatenation would be. *)
Lemma on_data_app req c1 c2 w :
  exec (on_data req c2) (exec (on_data req c1) w)
  = exec (on_data req (c1 ++ c2)) w.
Proof.
  destruct (lookup req (conns w)) as [[lastId ph]|] eqn:Hc.
  2: { unfold exec, on_data, get_conn, bind. rewrite Hc. cbn. now rewrite Hc. }
  destruct ph as [|buffer cur| |].
  1, 3, 4: unfold exec, on_data, get_conn, bind; rewrite Hc; cbn;
           now rewrite Hc.
  rewrite (on_data_streaming req c1 w lastId buffer cur Hc).
  rewrite (on_data_streaming req (c1 ++ c2) w lastId buffer cur Hc).
  cbv zeta.
  set (m1 := Js.split blank_line (buffer ++ c1)).
  set (r1 := on_messages cur (removelast m1) w).
  assert (Hc1 : lookup req (conns (exec (set_phase req
                  (Streaming (List.last m1 "") (fst r1))) (snd r1)))
                = Some {| conn_lastId := lastId;
                          conn_phase := Streaming (List.last m1 "") (fst r1) |}).
  { unfold set_phase, set_conns, exec. cbn [snd conns].
    apply (lookup_set_phase req _ _ {| conn_lastId := lastId;
                                       conn_phase := Streaming buffer cur |}).
    pose proof (conns_on_messages (conns w) (removelast m1) cur w eq_refl)
      as Hkeep.
    cbv beta in Hkeep. fold r1 in Hkeep. now rewrite Hkeep. }
  rewrite (on_data_streaming req c2 _ lastId _ _ Hc1). cbv zeta.
  rewrite <- (string_app_assoc buffer c1 c2),
    (split_chunked (buffer ++ c1) c2). fold m1.
  set (m2 := Js.split blank_line (List.last m1 "" ++ c2)).
  assert (Hm2 : m2 <> []) by apply split_go_nonempty.
  rewrite removelast_app, last_app_nonempty by exact Hm2.
  rewrite on_messages_app. fold r1.
  unfold set_phase at 2 3. rewrite on_messages_conns. cbn [fst snd].
  apply set_phase_twice.
Qed.

(** The stream as the transport delivers it: one 'data' event for each
    chunk. *)
Definition feed (req : ReqId) (chunks : list string) (w : World) : World :=
  fold_left (fun w chunk => exec (handle (SseData req chunk)) w) chunks w.

(** The text the chunks carry. *)
Definition joined (chunks : list string) : string :=
  fold_right append "" chunks.

Lemma feed_joined req chunks :
  forall chunk w,
    feed req (chunk :: chunks) w
    = exec (on_data req (chunk ++ joined chunks)) w.
Proof.
  induction chunks as [|c chunks IH]; intros chunk w.
  - cbn. now rewrite string_app_nil.
  - change (feed req (chunk :: c :: chunks) w)
      with (feed req (c :: chunks) (exec (on_data req chunk) w)).
    rewrite IH, on_data_app. reflexivity.
Qed.

(** C7: a stream holding one event whose [data: ] payload does not
    parse, followed by one event that does (each with or without an
    [id: ] line), is relayed as exactly one alert, the parsed payload
    of the second event, however the transport cuts the stream into
    chunks.  The first event changes nothing; the module variables
    (the request, the reconnect timer, the backoff delay) and the
    pending timers are as before, so the connection is neither closed
    nor rescheduled, and the request's handlers keep streaming with an
    empty buffer and the cursor of the second event. *)
Theorem malformed_event_dropped_next_event_forwarded :
  forall (w : World) (req : ReqId) (lastId cur : Z)
         (id1 id2 : option string) (bad good : string) (parsed : Js.json)
         (chunks : list string),
    lookup req (conns w)
      = Some {| conn_lastId := lastId; conn_phase := Streaming "" cur |} ->
    isPaused (vars w) = false ->
    popupWindow (vars w) = Some {| isDestroyed := false |} ->
    one_line_fields id1 bad = true ->
    one_line_fields id2 good = true ->
    JSON_parse bad = None ->
    good <> "" ->
    JSON_parse good = Some parsed ->
    joined chunks
    = event_block id1 bad ++ blank_line
      ++ event_block id2 good ++ blank_line ->
    let w' := feed req chunks w in
    since w w' = [ESend "fact-check-alert" (PAlert parsed)]
    /\ vars w' = vars w
    /\ timers w' = timers w
    /\ lookup req (conns w')
       = Some {| conn_lastId := lastId;
                 conn_phase := Streaming "" (cursor_after cur id2) |}.
Proof.
  intros w req lastId cur id1 id2 bad good parsed chunks
         Hconn Hpaused Hwin Hbad Hgood Hpb Hne Hpg Hstream.
  destruct chunks as [|chunk chunks].
  { destruct id1; discriminate Hstream. }
  rewrite feed_joined.
  change (chunk ++ joined chunks) with (joined (chunk :: chunks)).
  rewrite Hstream.
  apply (one_chunk_relayed w req lastId cur id1 id2 bad good parsed);
    assumption.
Qed.

(* ---------------------------------------------------------------- *)
(** ** Runs of [try]/[catch]/[finally]                                *)
(* ---------------------------------------------------------------- *)

Lemma run_Do {R A} (m : M A) (k : A -> Prog R) w evs :
  run (Do m k) w evs = run (k (fst (m w))) (snd (m w)) evs.
Proof.
  rewrite (run_unfold (Do m k)), (run_unfold (k (fst (m w)))).
  simpl. destruct (m w) as [a w1]. reflexivity.
Qed.

(** A program context: it rewraps a program without adding or removing
    synchronous segments or suspension points. *)
Definition context {R R'} (f : Prog R -> Prog R') : Prop :=
  (forall A (m : M A) k, f (Do m k) = Do m (fun a => f (k a)))
  /\ (forall wt k, f (Await wt k) = Await wt (fun o => f (k o))).

Lemma context_try_finally {R} (h : string -> Prog R) (fin : M unit) :
  context (fun p => pfinally (pcatch p h) fin).
Proof. split; reflexivity. Qed.

Lemma advance_context {R R'} (f : Prog R -> Prog R') :
  context f ->
  forall p w,
    match advance p w with
    | (Finished res, w') => advance (f p) w = advance (f (of_result res)) w'
    | (Blocked wt k, w') => advance (f p) w = (Blocked wt (fun o => f (k o)), w')
    end.
Proof.
  intros [Hdo Haw]. induction p as [r|m|A m k IH|wt k IH]; intros w; simpl.
  - reflexivity.
  - reflexivity.
  - rewrite Hdo. simpl. destruct (m w) as [a w1]. apply IH.
  - rewrite Haw. reflexivity.
Qed.

(** If [p] finishes with [res] exactly when the events [pre] are used
    up, then [p] in a context runs, over [pre] and further events, as
    the context applied to that result runs over the further events:
    whatever [p] throws reaches the enclosing [catch], and whatever it
    returns or throws passes through the enclosing [finally]. *)
Lemma run_context {R R'} (f : Prog R -> Prog R') :
  context f ->
  forall pre p w res w1 tail,
    run p w pre = Done res w1 [] ->
    run (f p) w (pre ++ tail) = run (f (of_result res)) w1 tail.
Proof.
  intros Hf. induction pre as [|e pre IH]; intros p w res w1 tail Hrun;
    rewrite run_unfold in Hrun;
    rewrite (run_unfold (f p)), (run_unfold (f (of_result res)));
    pose proof (advance_context f Hf p w) as Hadv;
    destruct (advance p w) as [[res0|wt k] w'].
  - inversion Hrun; subst. rewrite Hadv. reflexivity.
  - discriminate.
  - discriminate.
  - rewrite Hadv. cbn [app].
    destruct (enabled e w').
    + destruct (wake wt e) as [o|].
      * rewrite (IH _ _ _ _ tail Hrun).
        now rewrite (run_unfold (f (of_result res))).
      * destruct Hf as [Hdo Haw]. rewrite <- Haw.
        rewrite (IH _ _ _ _ tail Hrun).
        now rewrite (run_unfold (f (of_result res))).
    + destruct Hf as [Hdo Haw]. rewrite <- Haw.
      rewrite (IH _ _ _ _ tail Hrun).
      now rewrite (run_unfold (f (of_result res))).
Qed.

(* ---------------------------------------------------------------- *)
(** ** Stopping the capture process                                   *)
(* ---------------------------------------------------------------- *)

(** The events that settle the promise of a [stopClient()] called in
    world [w]: none is needed when there is no capture process;
    otherwise the capture process closes, or the 10 s escalation timer
    (armed under the next unused handle) fires. *)
Definition settles_stop (w : World) (tail : list Event) : Prop :=
  match clientProcess (vars w) with
  | None => tail = []
  | Some c =>
      (exists code, tail = [ProcClose c code]
                    /\ lookup c (procs w) = Some Client)
      \/ (tail = [TimerFire (fresh w)]
          /\ lookup (fresh w) (timers w) = None)
  end.

(** The module variables once the relay is disconnected and the capture
    process handle is cleared. *)
Definition torn_down (s : State) (paused opInProgress : bool) : State :=
  mkState (backendProcess s) None None (tray s) (popupWindow s)
    (isShuttingDown s) paused None SSE_BACKOFF_INITIAL opInProgress.

Lemma lookup_snoc_fresh {A} k (a : A) l :
  lookup k l = None -> lookup k (l ++ [(k, a)]) = Some a.
Proof.
  induction l as [|[k' a'] l IH]; simpl; intros H.
  - now rewrite Nat.eqb_refl.
  - destruct (Nat.eqb k' k); [ discriminate | auto ].
Qed.

Lemma lookup_remove_key_none {A} k k' (l : list (nat * A)) :
  lookup k l = None -> lookup k (remove_key k' l) = None.
Proof.
  induction l as [|[k0 a] l IH]; simpl; intros H; auto.
  destruct (Nat.eqb k0 k) eqn:Hk; [ discriminate | ].
  destruct (Nat.eqb k0 k'); simpl; auto. rewrite Hk. auto.
Qed.

(** Every [EKill] among [effs] is a signal to process [p]. *)
Definition kills_only (p : option Pid) (effs : list Effect) : Prop :=
  forall q sig, In (EKill q sig) effs -> p = Some q.

(** No process is spawned in [effs]. *)
Definition spawns_nothing (effs : list Effect) : Prop :=
  forall q r, ~ In (ESpawn q r) effs.

Lemma run_Ret {R} (r : R) w evs : run (Ret r) w evs = Done (Returned r) w evs.
Proof. rewrite run_unfold. reflexivity. Qed.

Lemma run_Throw {R} m w evs :
  run (Throw m : Prog R) w evs = Done (Threw m) w evs.
Proof. rewrite run_unfold. reflexivity. Qed.

Lemma run_Await_settled {R} wt (k : Settled -> Prog R) w e evs o :
  enabled e w = true ->
  wake wt e = Some o ->
  run (Await wt k) w (e :: evs) = run (k o) (exec (handle e) w) evs.
Proof. intros He Hw. simpl. now rewrite He, Hw. Qed.

(** Effects that neither signal nor spawn a process. *)
Definition harmless (e : Effect) : bool :=
  match e with
  | EKill _ _ | ESpawn _ _ => false
  | _ => true
  end.

Lemma stopClient_running w c :
  clientProcess (vars w) = Some c ->
  exists ws,
    stopClient w = (Pending (WStop c (fresh w)), ws)
    /\ vars ws
       = mkState (backendProcess (vars w)) None (sseRequest (vars w))
           (tray (vars w)) (popupWindow (vars w)) (isShuttingDown (vars w))
           (isPaused (vars w)) (sseReconnectTimer (vars w))
           (sseBackoffDelay (vars w)) (_sessionOpInProgress (vars w))
    /\ timers ws = (timers w ++ [(fresh w, TForceKill c SIGTERM)])%list
    /\ procs ws = procs w
    /\ out ws = (out w ++ [ESetTimeout (fresh w) (TForceKill c SIGTERM) 10000;
                           EKill c SIGINT])%list.
Proof.
  intros Hc. destruct w as [[] ts cs ps f py o]. cbn in Hc. subst.
  eexists. split; [ reflexivity | ]. cbn. repeat split.
  now rewrite <- app_assoc.
Qed.

Lemma stopClient_idle w :
  clientProcess (vars w) = None ->
  stopClient w = (Already (Fulfilled VUndefined), w).
Proof.
  intros Hc. unfold stopClient, bind, get. now rewrite Hc.
Qed.

(** The close handlers of a capture process, in a world whose relay is
    disconnected. *)
Lemma client_close_when_disconnected w c code :
  lookup c (procs w) = Some Client ->
  sseRequest (vars w) = None ->
  sseReconnectTimer (vars w) = None ->
  let w' := exec (handle (ProcClose c code)) w in
  exists effs,
    out w' = (out w ++ effs)%list
    /\ forallb harmless effs = true
    /\ vars w'
       = mkState (backendProcess (vars w)) None None (tray (vars w))
           (popupWindow (vars w)) (isShuttingDown (vars w))
           (isPaused (vars w)) None SSE_BACKOFF_INITIAL
           (_sessionOpInProgress (vars w)).
Proof.
  intros Hlive Hreq Htimer w'.
  destruct w as [[bp cp rq tr pw sd ip rt bd fl] ts cs ps f py o].
  cbn in Hlive, Hreq, Htimer. subst rq rt.
  assert (Hw' : w' = exec (set_procs (remove_key c) ;;
                           on_client_close code ;;
                           cancel_escalation c)
                      (mkWorld (mkState bp cp None tr pw sd ip None bd fl)
                         ts cs ps f py o)).
  { subst w'. unfold exec, handle, role_of, bind at 1. cbn [procs].
    now rewrite Hlive. }
  clearbody w'. subst w'.
  cbv [bind ret exec send sendErrorToRenderer window_live setTrayActive
       disconnectSSE on_client_close cancel_escalation get modify emit
       set_procs set_timers set_clientProcess set_sseBackoffDelay
       snd fst vars timers conns procs fresh pythonInstalled out
       backendProcess clientProcess sseRequest tray popupWindow
       isShuttingDown isPaused sseReconnectTimer sseBackoffDelay
       _sessionOpInProgress isDestroyed negb].
  destruct tr, pw as [[[]]|], code as [z|]; try destruct (z =? 0);
    cbv beta iota;
    repeat rewrite <- app_assoc;
    eexists;
    (split; [ first [ reflexivity | symmetry; apply app_nil_r ]
            | split; reflexivity ]).
Qed.

Lemma escalation_fires w t p sig :
  lookup t (timers w) = Some (TForceKill p sig) ->
  let w' := exec (handle (TimerFire t)) w in
  out w' = (out w ++ [EKill p sig])%list /\ vars w' = vars w.
Proof.
  intros Ht w'. subst w'.
  unfold exec, handle, timer_action, bind. rewrite Ht.
  destruct w as [s ts cs ps f py o]. split; reflexivity.
Qed.

Lemma harmless_not_kill effs q sig :
  forallb harmless effs = true -> ~ In (EKill q sig) effs.
Proof.
  intros H Hin. rewrite forallb_forall in H. now apply H in Hin.
Qed.

Lemma harmless_not_spawn effs q r :
  forallb harmless effs = true -> ~ In (ESpawn q r) effs.
Proof.
  intros H Hin. rewrite forallb_forall in H. now apply H in Hin.
Qed.

(** [await stopClient(); return r] from a world whose relay is already
    disconnected: it returns [r] once the stop is settled; by then the
    capture process has been sent SIGINT, no other process has been
    signalled, none has been spawned, and of the module variables only
    [clientProcess] can have changed. *)
Lemma await_stopClient {R} (r : R) w tail :
  sseRequest (vars w) = None ->
  sseReconnectTimer (vars w) = None ->
  sseBackoffDelay (vars w) = SSE_BACKOFF_INITIAL ->
  settles_stop w tail ->
  exists w2 effs,
    run (Do stopClient (fun p => await p (fun _ => Ret r))) w tail
    = Done (Returned r) w2 []
    /\ vars w2 = torn_down (vars w) (isPaused (vars w))
                   (_sessionOpInProgress (vars w))
    /\ out w2 = (out w ++ effs)%list
    /\ kills_only (clientProcess (vars w)) effs
    /\ (forall c, clientProcess (vars w) = Some c -> In (EKill c SIGINT) effs)
    /\ spawns_nothing effs.
Proof.
  intros Hreq Htimer Hdelay Hsettle.
  rewrite run_Do.
  unfold settles_stop in Hsettle.
  destruct (clientProcess (vars w)) as [c|] eqn:Hc.
  - destruct (stopClient_running w c Hc)
      as (ws & Hstop & Hvars & Htimers & Hprocs & Hout).
    rewrite Hstop. cbn [fst snd await].
    destruct Hsettle as [[code [-> Hlive]]|[-> Hfresh]].
    + (* the capture process closes *)
      rewrite (run_Await_settled _ _ _ _ _ (Fulfilled VUndefined));
        [ | cbn; now rewrite Hprocs, Hlive | cbn; now rewrite Nat.eqb_refl ].
      rewrite run_Ret.
      destruct (client_close_when_disconnected ws c code)
        as (effs & Hout' & Hharm & Hvars');
        [ now rewrite Hprocs | now rewrite Hvars | now rewrite Hvars | ].
      set (w1 := exec (handle (ProcClose c code)) ws) in *.
      exists w1,
             ([ESetTimeout (fresh w) (TForceKill c SIGTERM) 10000;
               EKill c SIGINT] ++ effs)%list.
      split; [ reflexivity | ].
      rewrite Hvars', Hvars, Hout', Hout, <- app_assoc.
      repeat split.
      * intros q sig [Hin|[Hin|Hin]]; try discriminate.
        -- inversion Hin; reflexivity.
        -- exfalso. eapply harmless_not_kill; eauto.
      * intros c' Hc'. inversion Hc'; subst. right; left; reflexivity.
      * intros q rl [Hin|[Hin|Hin]]; try discriminate.
        eapply harmless_not_spawn; eauto.
    + (* the escalation timer fires *)
      assert (Hlook : lookup (fresh w) (timers ws)
                      = Some (TForceKill c SIGTERM)).
      { rewrite Htimers. now apply lookup_snoc_fresh. }
      rewrite (run_Await_settled _ _ _ _ _ (Fulfilled VUndefined));
        [ | cbn; now rewrite Hlook | cbn; now rewrite Nat.eqb_refl ].
      rewrite run_Ret.
      destruct (escalation_fires ws _ _ _ Hlook) as [Hout' Hvars'].
      set (w1 := exec (handle (TimerFire (fresh w))) ws) in *.
      exists w1,
             [ESetTimeout (fresh w) (TForceKill c SIGTERM) 10000;
              EKill c SIGINT; EKill c SIGTERM].
      split; [ reflexivity | ].
      rewrite Hvars', Hvars, Hout', Hout, <- app_assoc.
      rewrite Hreq, Htimer, Hdelay.
      repeat split.
      * intros q sig [Hin|[Hin|[Hin|[]]]]; try discriminate;
          inversion Hin; reflexivity.
      * intros c' Hc'. inversion Hc'; subst. right; left; reflexivity.
      * intros q rl [Hin|[Hin|[Hin|[]]]]; discriminate.
  - subst tail. rewrite (stopClient_idle w Hc).
    cbn [fst snd await]. rewrite run_Ret.
    exists w, []. split; [ reflexivity | ].
    destruct w as [[] ? ? ? ? ? ?]. cbn in *. subst.
    rewrite app_nil_r. repeat split.
    + intros q sig [].
    + intros c Hc'. discriminate.
    + intros q rl [].
Qed.

Lemma release_vars w :
  vars (exec release w)
  = mkState (backendProcess (vars w)) (clientProcess (vars w))
      (sseRequest (vars w)) (tray (vars w)) (popupWindow (vars w))
      (isShuttingDown (vars w)) (isPaused (vars w))
      (sseReconnectTimer (vars w)) (sseBackoffDelay (vars w)) false
  /\ out (exec release w) = out w.
Proof. destruct w as [[] ? ? ? ? ? ?]. split; reflexivity. Qed.

(** The same inside [try]/[catch]/[finally { _sessionOpInProgress =
    false }]. *)
Lemma stop_then_return {R} (r : R) (f : Prog R -> Prog R) w tail :
  context f ->
  f (Ret r) = Do release (fun _ => Ret r) ->
  sseRequest (vars w) = None ->
  sseReconnectTimer (vars w) = None ->
  sseBackoffDelay (vars w) = SSE_BACKOFF_INITIAL ->
  settles_stop w tail ->
  exists w2 effs,
    run (f (Do stopClient (fun p => await p (fun _ => Ret r)))) w tail
    = Done (Returned r) w2 []
    /\ vars w2 = torn_down (vars w) (isPaused (vars w)) false
    /\ out w2 = (out w ++ effs)%list
    /\ kills_only (clientProcess (vars w)) effs
    /\ (forall c, clientProcess (vars w) = Some c -> In (EKill c SIGINT) effs)
    /\ spawns_nothing effs.
Proof.
  intros Hf Hret Hreq Htimer Hdelay Hsettle.
  destruct (await_stopClient r w tail Hreq Htimer Hdelay Hsettle)
    as (w1 & effs & Hrun & Hvars & Hout & Hkill & Hint & Hspawn).
  exists (exec release w1), effs.
  destruct (release_vars w1) as [Hrv Hro].
  split.
  - rewrite <- (app_nil_r tail).
    rewrite (run_context f Hf _ _ _ _ _ [] Hrun).
    cbn [of_result]. rewrite Hret, run_Do, run_Ret. reflexivity.
  - rewrite Hrv, Hro, Hvars, Hout. repeat split; auto.
Qed.

(** What is common to the worlds before and after a synchronous segment
    that neither signals nor spawns a process and arms no timer. *)
Definition calm (w w' : World) : Prop :=
  procs w' = procs w
  /\ fresh w' = fresh w
  /\ (forall k, lookup k (timers w) = None -> lookup k (timers w') = None)
  /\ exists effs, out w' = (out w ++ effs)%list
                  /\ forallb harmless effs = true.

Lemma disconnectSSE_calm w : calm w (exec disconnectSSE w).
Proof.
  destruct w as [[bp cp rq tr pw sd ip rt bd fl] ts cs ps f py o].
  unfold calm, exec, disconnectSSE, bind, get. cbn.
  destruct rt as [t|], rq as [req|]; cbn; repeat split; auto;
    try (intros k Hk; now apply lookup_remove_key_none);
    first [ exists [EDestroy req]; split; reflexivity
          | exists []; split; [ now rewrite app_nil_r | reflexivity ] ].
Qed.

(** The stop-session handler up to its call of [stopClient()]. *)
Definition stop_prologue : M unit :=
  set_sessionOpInProgress true ;;
  set_isPaused false ;; setTrayActive false ;; disconnectSSE.

Lemma stop_prologue_vars w :
  vars (exec stop_prologue w)
  = mkState (backendProcess (vars w)) (clientProcess (vars w)) None
      (tray (vars w)) (popupWindow (vars w)) (isShuttingDown (vars w))
      false None SSE_BACKOFF_INITIAL true.
Proof.
  destruct w as [[bp cp rq tr pw sd ip rt bd fl] ts cs ps f py o].
  unfold exec, stop_prologue, setTrayActive, disconnectSSE, bind, get. cbn.
  destruct tr, rt, rq; reflexivity.
Qed.

Lemma stop_prologue_calm w : calm w (exec stop_prologue w).
Proof.
  destruct w as [[bp cp rq tr pw sd ip rt bd fl] ts cs ps f py o].
  unfold calm, exec, stop_prologue, setTrayActive, disconnectSSE, bind, get.
  cbn.
  destruct tr, rt as [t|], rq as [req|]; cbn; repeat split; auto;
    try (intros k Hk; now apply lookup_remove_key_none);
    repeat rewrite <- app_assoc;
    first [ eexists; split; [ reflexivity | reflexivity ]
          | exists []; split; [ now rewrite app_nil_r | reflexivity ] ].
Qed.

Lemma settles_stop_calm w w' tail :
  calm w w' ->
  clientProcess (vars w') = clientProcess (vars w) ->
  settles_stop w tail -> settles_stop w' tail.
Proof.
  intros (Hp & Hf & Ht & _) Hc. unfold settles_stop.
  rewrite Hc, Hp, Hf. destruct (clientProcess (vars w)); auto.
  intros [H|[H1 H2]]; [ left; exact H | right; split; auto ].
Qed.

Lemma run_stop_session w tail :
  _sessionOpInProgress (vars w) = false ->
  settles_stop w tail ->
  exists w1 effs,
    run stop_session w tail = Done (Returned Success) w1 []
    /\ vars w1 = torn_down (vars w) false false
    /\ out w1 = (out w ++ effs)%list
    /\ kills_only (clientProcess (vars w)) effs
    /\ (forall c, clientProcess (vars w) = Some c -> In (EKill c SIGINT) effs)
    /\ spawns_nothing effs.
Proof.
  intros Hflag Hsettle.
  unfold stop_session. rewrite run_Do. cbn [get fst snd]. rewrite Hflag.
  rewrite run_Do. unfold stop_body. cbn [pfinally pcatch]. rewrite run_Do.
  change (snd ((set_isPaused false ;; setTrayActive false ;; disconnectSSE)
                 (snd (set_sessionOpInProgress true w))))
    with (exec stop_prologue w).
  pose proof (stop_prologue_vars w) as Hvars.
  pose proof (stop_prologue_calm w) as Hcalm.
  set (wa := exec stop_prologue w) in *.
  destruct (stop_then_return Success
              (fun p => pfinally (pcatch p (fun m => Ret (Failure m)))
                          release) wa tail)
    as (w1 & effs & Hrun & Hv1 & Hout & Hkill & Hint & Hspawn);
    try (rewrite Hvars; reflexivity).
  { apply context_try_finally. }
  { reflexivity. }
  { apply (settles_stop_calm w); auto. now rewrite Hvars. }
  destruct Hcalm as (_ & _ & _ & effs0 & Hout0 & Hharm).
  exists w1, (effs0 ++ effs)%list.
  cbn [pfinally pcatch] in Hrun. rewrite Hrun.
  rewrite Hvars in Hv1, Hkill, Hint. cbn in Hv1, Hkill, Hint.
  repeat split; auto.
  - now rewrite Hout, Hout0, app_assoc.
  - intros q sig Hin. apply in_app_or in Hin. destruct Hin as [Hin|Hin].
    + exfalso. eapply harmless_not_kill; eauto.
    + eapply Hkill; eauto.
  - intros c Hc. apply in_or_app. right. auto.
  - intros q rl Hin. apply in_app_or in Hin. destruct Hin as [Hin|Hin].
    + eapply harmless_not_spawn; eauto.
    + eapply Hspawn; eauto.
Qed.

Lemma context_finally {R} (fin : M unit) :
  context (fun p : Prog R => pfinally p fin).
Proof. split; reflexivity. Qed.

(** The world in which the [try] block of a guarded handler starts. *)
Definition entered (w : World) : World :=
  exec (set_sessionOpInProgress true) w.

(** The start-session handler when its [try] block throws: the [catch]
    block runs from the world [w1] in which the exception was raised. *)
Lemma run_start_session_failure sourceType target w pre m w1 tail :
  _sessionOpInProgress (vars w) = false ->
  run (session_body sourceType target) (entered w) pre = Done (Threw m) w1 [] ->
  settles_stop w1 tail ->
  exists w2 effs,
    run (start_session sourceType target) w (pre ++ tail)
    = Done (Returned (Failure m)) w2 []
    /\ vars w2 = torn_down (vars w1) (isPaused (vars w1)) false
    /\ out w2 = (out w1 ++ effs)%list
    /\ kills_only (clientProcess (vars w1)) effs
    /\ (forall c, clientProcess (vars w1) = Some c -> In (EKill c SIGINT) effs)
    /\ (forall req, sseRequest (vars w1) = Some req -> In (EDestroy req) effs)
    /\ spawns_nothing effs.
Proof.
  intros Hflag Hbody Hsettle.
  unfold start_session. rewrite run_Do. cbn [get fst snd]. rewrite Hflag.
  rewrite run_Do.
  change (snd (set_sessionOpInProgress true w)) with (entered w).
  cbn [fst].
  rewrite (run_context _ (context_try_finally rollback release)
             _ _ _ _ _ tail Hbody).
  cbn [of_result pcatch]. unfold rollback. cbn [pfinally]. rewrite run_Do.
  change (snd (disconnectSSE w1)) with (exec disconnectSSE w1).
  pose proof (disconnectSSE_vars w1) as Hvars.
  pose proof (disconnectSSE_out w1) as Hout0.
  pose proof (disconnectSSE_calm w1) as Hcalm.
  set (wd := exec disconnectSSE w1) in *.
  destruct (stop_then_return (Failure m) (fun p => pfinally p release)
              wd tail)
    as (w2 & effs & Hrun & Hv2 & Hout & Hkill & Hint & Hspawn);
    try (rewrite Hvars; reflexivity).
  { apply context_finally. }
  { reflexivity. }
  { apply (settles_stop_calm w1); auto. now rewrite Hvars. }
  cbn [fst]. cbn [pfinally] in Hrun. rewrite Hrun.
  exists w2, (match sseRequest (vars w1) with
              | Some req => [EDestroy req]
              | None => []
              end ++ effs)%list.
  rewrite Hvars in Hv2, Hkill, Hint. cbn in Hv2, Hkill, Hint.
  repeat split; auto.
  - now rewrite Hout, Hout0, app_assoc.
  - intros q sig Hin. apply in_app_or in Hin. destruct Hin as [Hin|Hin].
    + destruct (sseRequest (vars w1)); simpl in Hin;
        [ destruct Hin as [Hin|[]]; discriminate | contradiction ].
    + eapply Hkill; eauto.
  - intros c Hc. apply in_or_app. right. auto.
  - intros req Hreq. rewrite Hreq. apply in_or_app. left. left. reflexivity.
  - intros q rl Hin. apply in_app_or in Hin. destruct Hin as [Hin|Hin].
    + destruct (sseRequest (vars w1)); simpl in Hin;
        [ destruct Hin as [Hin|[]]; discriminate | contradiction ].
    + eapply Hspawn; eauto.
Qed.

Lemma since_app w w' effs :
  out w' = (out w ++ effs)%list -> since w w' = effs.
Proof. intros H. unfold since. rewrite H. apply skipn_length_app. Qed.


(* ---------------------------------------------------------------- *)
(** ** A session start with an unknown source type                    *)
(* ---------------------------------------------------------------- *)

Definition no_capture_spawn (e : Effect) : bool :=
  match e with
  | ESpawn _ Client => false
  | _ => true
  end.

(** Since [w0], [isPaused] has not been written and no capture process
    has been spawned. *)
Definition pause_and_capture_untouched (w0 w : World) : Prop :=
  isPaused (vars w) = isPaused (vars w0)
  /\ exists effs, out w = (out w0 ++ effs)%list
                  /\ forallb no_capture_spawn effs = true.

Ltac untouched_prim :=
  let w := fresh "w" in
  let Hp := fresh "Hp" in
  let effs := fresh "effs" in
  let Ho := fresh "Ho" in
  let Hf := fresh "Hf" in
  intros w (Hp & effs & Ho & Hf);
  destruct w as [[] ? ? ? ? ? ?];
  cbv [set_backendProcess set_clientProcess set_sseRequest set_tray
       set_popupWindow set_isShuttingDown
       set_sseReconnectTimer set_sseBackoffDelay set_sessionOpInProgress
       modify emit newHandle set_timers set_conns set_procs
       bind ret snd fst
       vars timers conns procs fresh pythonInstalled out
       backendProcess clientProcess sseRequest tray popupWindow
       isShuttingDown isPaused sseReconnectTimer sseBackoffDelay
       _sessionOpInProgress] in *;
  split; [ exact Hp | ];
  first [ exists effs; split; [ exact Ho | exact Hf ]
        | eexists (effs ++ [_])%list; split;
          [ rewrite Ho, app_assoc; reflexivity
          | rewrite forallb_app, Hf; reflexivity ] ].

Ltac untouched := unfold pause_and_capture_untouched; pres_with untouched_prim.

Lemma untouched_on_messages w0 msgs :
  forall cur, Preserves (pause_and_capture_untouched w0) (on_messages cur msgs).
Proof.
  induction msgs as [|msg msgs IH]; intros cur; simpl.
  - apply pres_ret.
  - apply pres_bind; [ | intros a; apply IH ]. untouched.
Qed.
Hint Resolve untouched_on_messages : pres.

Lemma untouched_handle w0 e :
  Preserves (pause_and_capture_untouched w0) (handle e).
Proof. destruct e; untouched. Qed.

(** A promise that can only be fulfilled. *)
Definition never_rejects (p : Promise) : Prop :=
  match p with
  | Already (Fulfilled _) => True
  | Already (Rejected _) => False
  | Pending wt => forall e m, wake wt e <> Some (Rejected m)
  end.

Lemma Safe_await_fulfilled I {R} (Q : Result R -> Prop) (p : Promise) k :
  never_rejects p ->
  (forall v, Safe I Q (k v)) ->
  Safe I Q (await p k).
Proof.
  intros Hp Hk. unfold await.
  destruct p as [[v|m]|wt]; simpl in Hp; [ auto | contradiction | ].
  constructor. intros e [v|m] Hwake; [ auto | ].
  exfalso. eapply Hp; eauto.
Qed.

Lemma stopClient_never_rejects w : never_rejects (fst (stopClient w)).
Proof.
  unfold stopClient, bind, get. destruct (clientProcess (vars w)) as [c|].
  - cbn. intros e m. destruct e; cbn; try discriminate;
      match goal with
      | |- context [Nat.eqb ?a ?b] => destruct (Nat.eqb a b); discriminate
      end.
  - exact I.
Qed.

(** A reply that reports failure. *)
Definition reports_failure (res : Result Reply) : Prop :=
  exists error, res = Returned (Failure error).

(** A result that is not a reported success. *)
Definition fails_or_throws (res : Result Reply) : Prop :=
  match res with
  | Returned r => exists error, r = Failure error
  | Threw _ => True
  end.

Lemma startClient_unknown sourceType target w :
  choiceMap sourceType = None ->
  exists m, startClient sourceType target w = (Already (Rejected m), w).
Proof.
  intros Hc. unfold startClient, bind, get. rewrite Hc.
  destruct (clientProcess (vars w)); eexists; reflexivity.
Qed.

Lemma safe_rollback w0 m :
  Safe (pause_and_capture_untouched w0) reports_failure (rollback m).
Proof.
  unfold rollback.
  apply Safe_do'; [ untouched | intros _ ].
  apply Safe_do; [ untouched | intros w ].
  apply Safe_await_fulfilled; [ apply stopClient_never_rejects | intros _ ].
  constructor. eexists; reflexivity.
Qed.

Lemma safe_ensurePermissions w0 :
  Safe (pause_and_capture_untouched w0) (fun _ => True) ensurePermissions.
Proof.
  unfold ensurePermissions.
  apply Safe_do'; [ untouched | intros p ].
  apply Safe_await_promise; [ intros v | intros; exact I ].
  destruct (negb (truthy v)).
  - apply Safe_do'; [ untouched | intros _ ]. constructor; exact I.
  - constructor; exact I.
Qed.

Lemma safe_waitForBackendReady w0 n :
  Safe (pause_and_capture_untouched w0) (fun _ => True)
    (waitForBackendReady n).
Proof.
  induction n as [|n IH]; simpl; [ constructor; exact I | ].
  apply Safe_do'; [ untouched | intros p ].
  destruct p as [[v|m]|wt]; simpl.
  - constructor; exact I.
  - destruct n; auto.
    apply Safe_do'; [ untouched | intros t ].
    apply Safe_await; intros e o _. exact IH.
  - apply Safe_await; intros e [v|m] _; simpl; [ constructor; exact I | ].
    destruct n; auto.
    apply Safe_do'; [ untouched | intros t ].
    apply Safe_await; intros e' o _. exact IH.
Qed.

Lemma safe_session_body_unknown w0 sourceType target :
  choiceMap sourceType = None ->
  Safe (pause_and_capture_untouched w0) fails_or_throws
    (session_body sourceType target).
Proof.
  intros Hc. unfold session_body.
  apply Safe_pbind with (Q := fun _ => True);
    [ apply safe_ensurePermissions | intros permsOk _ | intros; exact I ].
  destruct permsOk; cbn [negb];
    [ | constructor; eexists; reflexivity ].
  apply Safe_do'; [ untouched | intros p ].
  apply Safe_do'; [ untouched | intros p' ].
  apply Safe_await_promise; [ intros _ | intros; exact I ].
  apply Safe_pbind with (Q := fun _ => True);
    [ apply (safe_waitForBackendReady w0 5) | intros healthy _
    | intros; exact I ].
  apply Safe_do'; [ untouched | intros _ ].
  apply Safe_do.
  { intros w Hw.
    destruct (startClient_unknown sourceType target w Hc) as [m ->].
    exact Hw. }
  intros w.
  destruct (startClient_unknown sourceType target w Hc) as [m ->].
  cbn [fst].
  apply Safe_do; [ untouched | intros w' ].
  cbn. constructor. exact I.
Qed.

Lemma safe_start_session_unknown w0 sourceType target :
  choiceMap sourceType = None ->
  Safe (pause_and_capture_untouched w0) reports_failure
    (start_session sourceType target).
Proof.
  intros Hc. unfold start_session.
  apply Safe_do'; [ untouched | intros busy ].
  destruct busy; [ constructor; eexists; reflexivity | ].
  apply Safe_do'; [ untouched | intros _ ].
  apply Safe_pfinally; [ | untouched ].
  apply Safe_pcatch with (Q := fails_or_throws).
  - apply safe_session_body_unknown, Hc.
  - intros r [error ->]. eexists; reflexivity.
  - intros m _. apply safe_rollback.
Qed.

(* ---------------------------------------------------------------- *)
(** ** The cursor of a resumed relay                                  *)
(* ---------------------------------------------------------------- *)

(** [resume-session] opens exactly one stream request, and it asks for
    the events after id [0], whatever cursor the handlers of the
    previous request had reached: [connectSSE()] is called without an
    argument.  The sibling path, the reconnect after the stream ends,
    asks for the events after the cursor. *)
Theorem resume_session_requests_from_zero :
  forall w : World,
    let w' := exec resume_session w in
    (exists before,
       since w w' = (before ++ [EHttpGet (fresh w) 0])%list
       /\ forall req lastEventId, ~ In (EHttpGet req lastEventId) before)
    /\ sseRequest (vars w') = Some (fresh w)
    /\ isPaused (vars w') = false.
Proof.
  intros w.
  destruct w as [[bp cp rq tr pw sd ip rt bd fl] ts cs ps fr py o].
  unfold since, exec, resume_session, connectSSE, disconnectSSE,
    clearTimeout, newHandle, set_conns, bind, get. cbn.
  destruct rt, rq; cbn; repeat rewrite <- app_assoc;
    rewrite skipn_length_app; cbn.
  all: split; [ | split; reflexivity ].
  1, 3: exists [EDestroy r].
  3, 4: exists [].
  all: split; [ reflexivity | ].
  all: intros req lastEventId Hin; cbn in Hin;
       repeat (destruct Hin as [Hin|Hin]; try discriminate); auto.
Qed.

(** The sibling path, the reconnect after the stream has ended, asks
    for the events after the cursor. *)
Theorem stream_end_reconnects_from_cursor :
  forall (w : World) (req : ReqId) (lastId cur : Z) (buffer : string),
    lookup req (conns w)
      = Some {| conn_lastId := lastId;
                conn_phase := Streaming buffer cur |} ->
    sseReconnectTimer (vars w) = None ->
    let w' := exec (handle (SseEnd req)) w in
    since w w'
    = [ESetTimeout (fresh w) (TReconnect cur) (sseBackoffDelay (vars w))].
Proof.
  intros w req lastId cur buffer Hconn Htimer.
  destruct w as [[bp cp rq tr pw sd ip rt bd fl] ts cs ps fr py o].
  cbn in Hconn, Htimer. subst rt.
  unfold since, exec, handle, on_stream_closed, get_conn, bind. cbn.
  rewrite Hconn.
  unfold scheduleSSEReconnect, setTimeout, set_phase, set_conns, newHandle,
    bind, get. cbn.
  now rewrite skipn_length_app.
Qed.

(* ---------------------------------------------------------------- *)
(** ** The delay of the reconnect timers                              *)
(* ---------------------------------------------------------------- *)

(** [I] holds between two turns of the event loop, for the world and
    for what every invocation in flight will still run. *)
Definition task_safe (I : World -> Prop) (t : Task) : Prop :=
  forall e o, wake (task_wait t) e = Some o ->
              Safe I (fun _ => True) (task_cont t o).

Definition loop_safe (I : World -> Prop) (c : Loop) : Prop :=
  I (world c) /\ Forall (task_safe I) (tasks c).

Section LoopInvariant.

Variable I : World -> Prop.
Hypothesis handle_keeps : forall e, Preserves I (handle e).
Hypothesis program_safe : forall h, Safe I (fun _ => True) (program h).

Lemma loop_safe_advance (h : Handler) (p : Prog Reply) (c : Loop) :
  Safe I (fun _ => True) p ->
  loop_safe I c ->
  loop_safe I
    match advance p (world c) with
    | (Finished res, w') =>
        {| world := w'; tasks := tasks c;
           replies := (replies c ++ [(h, res)])%list |}
    | (Blocked wt k, w') =>
        {| world := w';
           tasks := (tasks c ++ [{| task_handler := h; task_wait := wt;
                                    task_cont := k |}])%list;
           replies := replies c |}
    end.
Proof.
  intros Hp [Hw Hts].
  destruct (advance_safe I _ p Hp (world c) Hw) as [Hw' Hres].
  destruct (advance p (world c)) as [[res|wt k] w']; simpl in *.
  - split; auto.
  - split; auto. apply Forall_app; split; auto.
Qed.

Lemma loop_safe_invoke h c : loop_safe I c -> loop_safe I (invoke h c).
Proof. intros Hc. apply loop_safe_advance; auto. Qed.

Lemma loop_safe_resume e :
  forall ts acc,
    Forall (task_safe I) ts -> loop_safe I acc ->
    loop_safe I (fold_left (resume e) ts acc).
Proof.
  induction ts as [|t ts IH]; intros acc Hts Hacc; simpl; auto.
  inversion Hts as [|? ? Ht Hts']; subst.
  apply IH; auto. unfold resume.
  destruct (wake (task_wait t) e) as [o|] eqn:Hwake.
  - apply loop_safe_advance; auto. eapply Ht; eauto.
  - destruct Hacc as [Hw Hok]. split; auto.
    cbn. apply Forall_app; split; auto.
Qed.

Lemma loop_safe_deliver e c : loop_safe I c -> loop_safe I (deliver e c).
Proof.
  intros [Hw Hts]. unfold deliver.
  destruct (enabled e (world c)); [ | split; auto ].
  apply loop_safe_resume; auto.
  split; cbn; auto. apply handle_keeps, Hw.
Qed.

Lemma loop_safe_steps inputs :
  forall c, loop_safe I c -> loop_safe I (steps c inputs).
Proof.
  induction inputs as [|i inputs IH]; intros c Hc; simpl; auto.
  apply IH. destruct i; [ apply loop_safe_invoke | apply loop_safe_deliver ];
    exact Hc.
Qed.

End LoopInvariant.

(** An effect other than arming a reconnect timer, or arming it with
    the initial delay. *)
Definition armed_with_initial (e : Effect) : Prop :=
  match e with
  | ESetTimeout _ (TReconnect _) ms => ms = SSE_BACKOFF_INITIAL
  | _ => True
  end.

(** While no reconnect is pending, [sseBackoffDelay] holds its initial
    value; and every reconnect timer so far was armed with it. *)
Definition backoff_reset (w : World) : Prop :=
  (sseReconnectTimer (vars w) = None ->
   sseBackoffDelay (vars w) = SSE_BACKOFF_INITIAL)
  /\ Forall armed_with_initial (out w).

Ltac backoff_prim :=
  let w := fresh "w" in
  let Hd := fresh "Hd" in
  let Ho := fresh "Ho" in
  intros w [Hd Ho]; destruct w as [[] ? ? ? ? ? ?];
  cbv [set_backendProcess set_clientProcess set_sseRequest set_tray
       set_popupWindow set_isShuttingDown set_isPaused
       set_sseReconnectTimer set_sseBackoffDelay set_sessionOpInProgress
       modify emit newHandle set_timers set_conns set_procs
       bind ret snd fst
       vars timers conns procs fresh pythonInstalled out
       backoff_reset
       backendProcess clientProcess sseRequest tray popupWindow
       isShuttingDown isPaused sseReconnectTimer sseBackoffDelay
       _sessionOpInProgress] in *;
  split;
  [ first [ exact Hd | intros _; reflexivity ]
  | first [ exact Ho
          | apply Forall_app; split;
            [ exact Ho | repeat constructor ] ] ].

Ltac backoff := pres_with backoff_prim.

Lemma backoff_disconnectSSE : Preserves backoff_reset disconnectSSE.
Proof.
  intros w [_ Ho]. split.
  - intros _. change (snd (disconnectSSE w)) with (exec disconnectSSE w).
    now rewrite disconnectSSE_vars.
  - change (snd (disconnectSSE w)) with (exec disconnectSSE w).
    rewrite disconnectSSE_out. apply Forall_app; split; auto.
    destruct (sseRequest (vars w)); repeat constructor.
Qed.
Hint Resolve backoff_disconnectSSE : pres.

(** [connectSSE] puts the delay back whatever it was. *)
Lemma connectSSE_resets lastId w :
  Forall armed_with_initial (out w) ->
  backoff_reset (exec (connectSSE lastId) w).
Proof.
  intros Ho.
  destruct w as [[bp cp rq tr pw sd ip rt bd fl] ts cs ps f py o].
  unfold backoff_reset, exec, connectSSE, disconnectSSE, set_conns,
    clearTimeout, bind, get; simpl in *.
  destruct rt, rq; simpl; split; auto;
    repeat (apply Forall_app; split; auto); repeat constructor.
Qed.

Lemma backoff_connectSSE lastId : Preserves backoff_reset (connectSSE lastId).
Proof. intros w [_ Ho]. apply connectSSE_resets, Ho. Qed.
Hint Resolve backoff_connectSSE : pres.

Lemma backoff_scheduleSSEReconnect lastId :
  Preserves backoff_reset (scheduleSSEReconnect lastId).
Proof.
  intros w [Hd Ho].
  destruct w as [[bp cp rq tr pw sd ip rt bd fl] ts cs ps f py o].
  unfold backoff_reset, scheduleSSEReconnect, setTimeout, bind, get;
    simpl in *.
  destruct rt; simpl; [ split; auto | ].
  split; [ discriminate | ].
  apply Forall_app; split; auto.
  constructor; [ | constructor ]. simpl. auto.
Qed.
Hint Resolve backoff_scheduleSSEReconnect : pres.

(** The callback of the reconnect timer. *)
Lemma backoff_reconnect t lastId :
  Preserves backoff_reset
    (set_timers (remove_key t) ;; set_sseReconnectTimer None ;;
     connectSSE lastId).
Proof.
  intros w [_ Ho]. unfold bind.
  destruct w as [[bp cp rq tr pw sd ip rt bd fl] ts cs ps f py o].
  cbn [set_timers set_sseReconnectTimer modify snd fst].
  apply (connectSSE_resets lastId). exact Ho.
Qed.
Hint Resolve backoff_reconnect : pres.

Lemma backoff_on_messages msgs :
  forall cur, Preserves backoff_reset (on_messages cur msgs).
Proof.
  induction msgs as [|msg msgs IH]; intros cur; simpl.
  - apply pres_ret.
  - apply pres_bind; [ | intros a; apply IH ]. backoff.
Qed.
Hint Resolve backoff_on_messages : pres.

Lemma backoff_handle e : Preserves backoff_reset (handle e).
Proof. destruct e; backoff. Qed.

(** The structural steps of a safety proof whose synchronous segments
    are closed by [prim]. *)
Ltac safe_step_with prim :=
  match goal with
  | |- Safe _ _ (Ret _) => apply Safe_ret; exact I
  | |- Safe _ _ (Throw _) => apply Safe_throw; exact I
  | |- Safe _ _ (Do _ _) => apply Safe_do'; [ pres_with prim | intros ? ]
  | |- Safe _ _ (Await _ _) => apply Safe_await; intros ? ? _
  | |- Safe _ _ (await _ _) =>
      apply Safe_await_promise; [ intros ? | intros ?; exact I ]
  | |- Safe _ _ (pbind _ _) =>
      apply Safe_pbind with (Q := fun _ => True);
      [ | intros ? _ | intros ? _; exact I ]
  | |- Safe _ _ (pcatch _ _) =>
      apply Safe_pcatch with (Q := fun _ => True);
      [ | intros ? _; exact I | intros ? _ ]
  | |- Safe _ _ (pfinally _ _) => apply Safe_pfinally; [ | pres_with prim ]
  | |- Safe _ _ (match ?x with _ => _ end) => destruct x
  end.

Ltac backoff_safe := repeat safe_step_with backoff_prim; eauto with pres.

Lemma backoff_waitForBackendReady n :
  Safe backoff_reset (fun _ => True) (waitForBackendReady n).
Proof.
  induction n as [|n IH]; simpl; backoff_safe.
  all: destruct n; backoff_safe.
Qed.

Lemma backoff_program h : Safe backoff_reset (fun _ => True) (program h).
Proof.
  destruct h; simpl.
  - unfold start_session, session_body, ensurePermissions, rollback, release.
    backoff_safe.
    all: try apply backoff_waitForBackendReady.
    all: backoff_safe.
  - unfold stop_session, stop_body, release. backoff_safe.
  - backoff_safe.
  - backoff_safe.
  - backoff_safe.
  - unfold shutdownApp. backoff_safe.
Qed.

(** However the application is driven from its start, while no
    reconnect is pending the delay holds its initial value, so every
    reconnect timer is armed with [SSE_BACKOFF_INITIAL]: the value
    [scheduleSSEReconnect] grows is put back by the [disconnectSSE] at
    the head of the [connectSSE] the timer runs. *)
Theorem every_reconnect_waits_the_initial_delay :
  forall (python : bool) (inputs : list Input),
    let w := world (steps (idle (exec app_ready (boot python))) inputs) in
    (sseReconnectTimer (vars w) = None ->
     sseBackoffDelay (vars w) = SSE_BACKOFF_INITIAL)
    /\ Forall armed_with_initial (out w).
Proof.
  intros python inputs.
  apply (loop_safe_steps backoff_reset backoff_handle backoff_program).
  split; [ | constructor ].
  split; [ reflexivity | constructor ].
Qed.

(* ---------------------------------------------------------------- *)
(** ** The relay beyond a single event                                *)
(* ---------------------------------------------------------------- *)

(** What a handler of the stream leaves of the world: everything but
    the variables captured by the handlers of the requests. *)
Definition same_but_conns (w w' : World) : Prop :=
  vars w' = vars w /\ timers w' = timers w /\ procs w' = procs w
  /\ fresh w' = fresh w /\ out w' = out w.

(** The renderer cannot be reached: the relay is paused, or there is no
    window, or it is destroyed. *)
Definition suppressed (w : World) : bool :=
  isPaused (vars w) || negb (fst (window_live w)).

Lemma on_message_suppressed cur msg w :
  suppressed w = true -> snd (on_message cur msg w) = w.
Proof.
  intros Hs. unfold on_message.
  destruct (Js.trim_is_empty msg); [ reflexivity | ].
  destruct (read_block msg) as [eventId [data|]]; [ | reflexivity ].
  destruct (Js.truthy_string data); [ | reflexivity ].
  destruct (JSON_parse data); [ | reflexivity ].
  destruct w as [[bp cp rq tr pw sd ip rt bd fl] ts cs ps fr py o].
  unfold suppressed, window_live, bind, get, ret in Hs. cbn in Hs.
  unfold bind, get, send, window_live, emit, ret. cbn.
  destruct ip; cbn; [ reflexivity | ].
  destruct pw as [[[]]|]; cbn in *; try reflexivity; discriminate.
Qed.

Lemma on_messages_suppressed msgs :
  forall cur w, suppressed w = true -> snd (on_messages cur msgs w) = w.
Proof.
  induction msgs as [|msg msgs IH]; intros cur w Hs; [ reflexivity | ].
  cbn [on_messages]. unfold bind.
  pose proof (on_message_suppressed cur msg w Hs) as Hm.
  destruct (on_message cur msg w) as [last w1]. cbn in Hm. subst w1.
  apply IH, Hs.
Qed.

(** X1: while the session is paused, or while there is no live window,
    nothing that arrives on a stream reaches the renderer, whatever the
    chunk holds and whichever request it belongs to: the 'data' handler
    sends nothing and writes no module variable (it still frames the
    events and moves its cursor). *)
Theorem suppressed_relay_sends_nothing :
  forall (w : World) (req : ReqId) (chunk : string),
    suppressed w = true ->
    same_but_conns w (exec (handle (SseData req chunk)) w).
Proof.
  intros w req chunk Hs.
  unfold exec, handle, on_data, get_conn, bind at 1.
  destruct (lookup req (conns w)) as [[lastId [|buffer cur| |]]|];
    try (repeat split; reflexivity).
  unfold bind.
  pose proof (on_messages_suppressed
                (removelast (Js.split (Js.nl ++ Js.nl) (buffer ++ chunk)))
                cur w Hs) as Hm.
  destruct (on_messages cur _ w) as [last w1]. cbn in Hm. subst w1.
  destruct w as [s ts cs ps fr py o]. repeat split; reflexivity.
Qed.

(** Every code unit of the text is an ASCII character.  The 'data'
    handler decodes each chunk on its own ([chunk.toString()]); the
    bytes of an ASCII chunk decode to themselves whatever the chunks
    around it hold, so for such a stream the text of a chunk is its
    bytes. *)
Fixpoint ascii_only (s : string) : bool :=
  match s with
  | EmptyString => true
  | String c s' => Nat.ltb (nat_of_ascii c) 128 && ascii_only s'
  end.

(** X2: for a stream of ASCII text the relay does not depend on where
    the transport cuts it: two sequences of chunks that carry the same
    ASCII text leave the same world behind, that is the same alerts
    sent in the same order, the same cursor and the same unfinished
    remainder in the buffer.  (A cut inside a multi-byte character is
    another matter: each chunk is decoded on its own.) *)
Theorem relay_ignores_chunk_boundaries :
  forall (req : ReqId) (chunks chunks' : list string) (w : World),
    chunks <> [] -> chunks' <> [] ->
    forallb ascii_only chunks = true ->
    forallb ascii_only chunks' = true ->
    joined chunks = joined chunks' ->
    feed req chunks w = feed req chunks' w.
Proof.
  intros req chunks chunks' w Hne Hne' _ _ Hsame.
  destruct chunks as [|c cs]; [ contradiction | ].
  destruct chunks' as [|c' cs']; [ contradiction | ].
  rewrite !feed_joined.
  change (c ++ joined cs) with (joined (c :: cs)).
  change (c' ++ joined cs') with (joined (c' :: cs')).
  now rewrite Hsame.
Qed.

(** *** Lines of an event block *)

(** [lines.join('\n').split('\n')] gives the lines back. *)
Lemma split_lines_join lines :
  forall line,
    forallb no_newline (line :: lines) = true ->
    Js.split Js.nl (String.concat Js.nl (line :: lines)) = line :: lines.
Proof.
  induction lines as [|l lines IH]; intros line Hall.
  - cbn [forallb] in Hall. rewrite andb_true_r in Hall.
    now apply split_lines_single.
  - cbn [forallb] in Hall. apply andb_prop in Hall. destruct Hall as [Hl Hrest].
    change (String.concat Js.nl (line :: l :: lines))
      with (line ++ Js.nl ++ String.concat Js.nl (l :: lines)).
    unfold Js.split, Js.nl.
    rewrite split_go_no_newline by exact Hl.
    cbn [append]. rewrite split_go_at_separator by apply prefix_empty.
    cbn [String.length]. f_equal. apply IH. exact Hrest.
Qed.

(** A comment line of the stream: it begins with a colon. *)
Definition comment_line (line : string) : bool := Js.startsWith ":" line.

Lemma read_comment_lines lines :
  forall acc,
    forallb comment_line lines = true ->
    fold_left read_line lines acc = acc.
Proof.
  induction lines as [|l lines IH]; intros acc Hall; [ reflexivity | ].
  cbn [forallb] in Hall. apply andb_prop in Hall. destruct Hall as [Hl Hrest].
  cbn [fold_left]. rewrite IH by exact Hrest.
  unfold read_line, comment_line in *. destruct acc as [eventId eventData].
  now rewrite Hl.
Qed.

(** X3: a block made of comment lines only (the heartbeat the service
    sends to keep the connection open) is skipped: nothing is sent,
    nothing is written and the cursor stays. *)
Theorem heartbeat_block_is_skipped :
  forall (line : string) (lines : list string) (cur : Z) (w : World),
    forallb no_newline (line :: lines) = true ->
    forallb comment_line (line :: lines) = true ->
    on_message cur (String.concat Js.nl (line :: lines)) w = (cur, w).
Proof.
  intros line lines cur w Hnl Hcomment. unfold on_message.
  destruct (Js.trim_is_empty _); [ reflexivity | ].
  unfold read_block.
  rewrite split_lines_join by exact Hnl.
  now rewrite read_comment_lines by exact Hcomment.
Qed.

Lemma data_line_not_blank rest : Js.trim_is_empty ("data: " ++ rest) = false.
Proof. reflexivity. Qed.

(** X4: when an event block has two [data: ] lines, only the second is
    parsed and forwarded; the first is discarded (the lines are not
    joined into one payload). *)
Theorem last_data_line_wins :
  forall (first second : string) (cur : Z) (w : World),
    no_newline first = true ->
    no_newline second = true ->
    on_message cur (("data: " ++ first) ++ Js.nl ++ ("data: " ++ second)) w
    = on_message cur ("data: " ++ second) w.
Proof.
  intros first second cur w Hf Hs. unfold on_message.
  rewrite (string_app_assoc "data: " first), !data_line_not_blank.
  rewrite <- (string_app_assoc "data: " first).
  unfold read_block.
  rewrite split_lines_two by (simpl; assumption).
  rewrite split_lines_single by (simpl; exact Hs).
  cbn [fold_left read_line append]. unfold Js.startsWith.
  cbn. rewrite !prefix_empty. cbn. now rewrite !prefix_empty.
Qed.

(* ---------------------------------------------------------------- *)
(** ** Starting the capture process                                   *)
(* ---------------------------------------------------------------- *)

(** Neither a carriage return nor a line feed among the code units. *)
Fixpoint no_line_terminator (s : string) : bool :=
  match s with
  | EmptyString => true
  | String c s' =>
      negb (Ascii.eqb c Js.CR || Ascii.eqb c Js.LF) && no_line_terminator s'
  end.

Lemma strip_line_terminators_clean s :
  no_line_terminator (Js.strip_line_terminators s) = true.
Proof.
  induction s as [|c s IH]; [ reflexivity | ].
  cbn [Js.strip_line_terminators].
  destruct (Ascii.eqb c Js.CR || Ascii.eqb c Js.LF)%bool eqn:Hc; [ exact IH | ].
  cbn [no_line_terminator]. now rewrite Hc, IH.
Qed.

Lemma strip_line_terminators_keeps s :
  no_line_terminator s = true -> Js.strip_line_terminators s = s.
Proof.
  induction s as [|c s IH]; [ reflexivity | ].
  cbn [no_line_terminator Js.strip_line_terminators]. intros H.
  apply andb_prop in H. destruct H as [Hc Hs].
  apply negb_true_iff in Hc. now rewrite Hc, IH.
Qed.

Lemma no_line_terminator_no_newline s :
  no_line_terminator s = true -> no_newline s = true.
Proof.
  induction s as [|c s IH]; [ reflexivity | ].
  cbn [no_line_terminator no_newline]. intros H.
  apply andb_prop in H. destruct H as [Hc Hs].
  apply negb_true_iff, orb_false_iff in Hc. destruct Hc as [_ Hlf].
  now rewrite Hlf, IH.
Qed.

(** X5: whatever the target holds, a capture start with one of the four
    source types writes exactly two lines to the standard input of the
    process it spawned and closes it: the menu digit, and the target
    with every carriage return and line feed removed (so a target
    cannot smuggle further answers to the menu); a target without
    line terminators is written as it is. *)
Theorem capture_stdin_is_two_lines :
  forall (sourceType target digit : string) (w : World),
    clientProcess (vars w) = None ->
    choiceMap sourceType = Some (Own digit) ->
    let safeTarget := Js.strip_line_terminators target in
    let p := fresh w in
    since w (exec (startClient sourceType target) w)
    = [ ESpawn p Client;
        EStdinChoice p (Own digit);
        EStdin p (safeTarget ++ Js.nl);
        EStdinEnd p;
        ESetTimeout (S p) TSettle 120000 ]
    /\ Js.split Js.nl (safeTarget ++ Js.nl) = [safeTarget; ""]
    /\ no_line_terminator safeTarget = true
    /\ (no_line_terminator target = true -> safeTarget = target).
Proof.
  intros sourceType target digit w Hclient Hchoice safeTarget p.
  repeat split.
  - destruct w as [[bp cp rq tr pw sd ip rt bd fl] ts cs ps fr py o].
    cbn in Hclient. subst cp p safeTarget.
    unfold since, exec, startClient, bind, get. cbn [vars clientProcess].
    rewrite Hchoice.
    cbv [spawn setTimeout newHandle set_procs set_timers
         set_clientProcess modify emit bind ret snd fst
         vars timers conns procs fresh pythonInstalled out].
    repeat rewrite <- app_assoc. now rewrite skipn_length_app.
  - rewrite <- (string_app_nil Js.nl).
    rewrite string_app_nil at 1.
    apply (split_lines_two safeTarget "");
      [ apply no_line_terminator_no_newline,
          strip_line_terminators_clean
      | reflexivity ].
  - apply strip_line_terminators_clean.
  - apply strip_line_terminators_keeps.
Qed.

(* ---------------------------------------------------------------- *)
(** ** Runs of the session handlers, step by step                     *)
(* ---------------------------------------------------------------- *)

Lemma context_pbind {A B} (f : A -> Prog B) : context (fun p => pbind p f).
Proof. split; reflexivity. Qed.

Lemma context_compose {A B C} (f : Prog A -> Prog B) (g : Prog B -> Prog C) :
  context f -> context g -> context (fun p => g (f p)).
Proof.
  intros [Hfd Hfa] [Hgd Hga]. split; intros.
  - now rewrite Hfd, Hgd.
  - now rewrite Hfa, Hga.
Qed.

(** [p] finishes exactly when the events [pre] are used up; what
    follows it in a sequence, and what encloses it in a [try], go on
    from there. *)
Lemma run_pbind {A B} (p : Prog A) (f : A -> Prog B) w pre res w1 tail :
  run p w pre = Done res w1 [] ->
  run (pbind p f) w (pre ++ tail)
  = run match res with
        | Returned a => f a
        | Threw m => Throw m
        end w1 tail.
Proof.
  intros Hrun.
  rewrite (run_context (fun p => pbind p f) (context_pbind f)
             _ _ _ _ _ tail Hrun).
  destruct res; reflexivity.
Qed.

Lemma run_try_finally {R} (p : Prog R) h fin w pre res w1 tail :
  run p w pre = Done res w1 [] ->
  run (pfinally (pcatch p h) fin) w (pre ++ tail)
  = run (pfinally match res with
                  | Returned r => Ret r
                  | Threw m => h m
                  end fin) w1 tail.
Proof.
  intros Hrun.
  rewrite (run_context _ (context_try_finally h fin) _ _ _ _ _ tail Hrun).
  destruct res; reflexivity.
Qed.

(** The world after a call of a platform promise. *)
Definition called (what : ExternalCall) (w : World) : World :=
  exec (call what) w.

Lemma call_pending what w :
  call what w = (Pending (WCall (fresh w)), called what w).
Proof. destruct w as [s ts cs ps fr py o]. reflexivity. Qed.

(** [const v = await <platform promise>; ...] when the promise is
    settled by the next event. *)
Lemma run_call {R} what (k : Value -> Prog R) w o evs :
  run (Do (call what) (fun p => await p k)) w
    (CallSettled (fresh w) o :: evs)
  = run match o with
        | Fulfilled v => k v
        | Rejected m => Throw m
        end (called what w) evs.
Proof.
  rewrite run_Do, call_pending. cbn [fst snd await].
  rewrite (run_Await_settled _ _ _ _ _ o);
    [ | reflexivity | cbn; now rewrite Nat.eqb_refl ].
  destruct o; reflexivity.
Qed.

Definition microphone_pane : string :=
  "x-apple.systempreferences:com.apple.preference.security?Privacy_Microphone".

(** What [ensurePermissions] does when the microphone is denied. *)
Definition report_denied : M unit :=
  sendErrorToRenderer "Microphone permission denied"
    "Please grant Microphone access in System Settings > Privacy & Security > Microphone." ;;
  emit (EOpenExternal microphone_pane).

Lemma run_ensurePermissions w answer :
  run ensurePermissions w [CallSettled (fresh w) (Fulfilled answer)]
  = if truthy answer
    then Done (Returned true) (called AskMicrophone w) []
    else Done (Returned false)
           (exec report_denied (called AskMicrophone w)) [].
Proof.
  unfold ensurePermissions. rewrite run_call.
  destruct (truthy answer); cbn [negb].
  - apply run_Ret.
  - rewrite run_Do, run_Ret. reflexivity.
Qed.

Lemma entered_vars w :
  vars (entered w)
  = mkState (backendProcess (vars w)) (clientProcess (vars w))
      (sseRequest (vars w)) (tray (vars w)) (popupWindow (vars w))
      (isShuttingDown (vars w)) (isPaused (vars w))
      (sseReconnectTimer (vars w)) (sseBackoffDelay (vars w)) true.
Proof. destruct w as [[] ? ? ? ? ? ?]. reflexivity. Qed.

(** A start-session that passed the guard runs its [try] block inside
    [catch] and [finally]. *)
Lemma run_start_session_entered sourceType target w evs :
  _sessionOpInProgress (vars w) = false ->
  run (start_session sourceType target) w evs
  = run (pfinally (pcatch (session_body sourceType target) rollback) release)
      (entered w) evs.
Proof.
  intros Hflag. unfold start_session.
  rewrite run_Do. cbn [get fst snd]. rewrite Hflag. now rewrite run_Do.
Qed.

(** X6: when the microphone is denied, start-session stops there: it
    returns [{ success: false, error: 'Screen Recording permission
    required' }] (the microphone is what was denied), having told the
    renderer 'Microphone permission denied' and opened the Microphone
    pane of the system settings; no process was spawned, no request
    was made and every module variable is as it was. *)
Theorem denied_microphone_fails_start :
  forall (sourceType target : string) (w : World) (answer : Value),
    _sessionOpInProgress (vars w) = false ->
    truthy answer = false ->
    exists w',
      run (start_session sourceType target) w
        [CallSettled (fresh w) (Fulfilled answer)]
      = Done (Returned (Failure "Screen Recording permission required")) w' []
      /\ vars w' = vars w
      /\ since w w'
         = (ECall (fresh w) AskMicrophone
            :: (if fst (window_live w)
                then [ESend "error-message"
                        (PError "Microphone permission denied"
                           "Please grant Microphone access in System Settings > Privacy & Security > Microphone.")]
                else [])
            ++ [EOpenExternal microphone_pane])%list.
Proof.
  intros sourceType target w answer Hflag Hanswer.
  rewrite run_start_session_entered by exact Hflag.
  pose proof (run_ensurePermissions (entered w) answer) as Hperm.
  rewrite Hanswer in Hperm.
  change (fresh (entered w)) with (fresh w) in Hperm.
  assert (Hbody : run (session_body sourceType target) (entered w)
                    [CallSettled (fresh w) (Fulfilled answer)]
                  = Done (Returned
                            (Failure "Screen Recording permission required"))
                      (exec report_denied
                         (called AskMicrophone (entered w))) []).
  { unfold session_body.
    rewrite <- (app_nil_r [CallSettled (fresh w) (Fulfilled answer)]).
    rewrite (run_pbind _ _ _ _ _ _ [] Hperm). cbn [negb]. apply run_Ret. }
  rewrite <- (app_nil_r [CallSettled (fresh w) (Fulfilled answer)]).
  rewrite (run_try_finally _ _ _ _ _ _ _ [] Hbody).
  cbn [pfinally]. rewrite run_Do, run_Ret.
  eexists. split; [ reflexivity | ].
  destruct w as [[bp cp rq tr pw sd ip rt bd fl] ts cs ps fr py o].
  cbn in Hflag. subst fl.
  cbv [since exec release report_denied called call entered
       sendErrorToRenderer send window_live bind get ret emit modify
       newHandle set_sessionOpInProgress snd fst
       vars timers conns procs fresh pythonInstalled out popupWindow
       backendProcess clientProcess sseRequest tray isShuttingDown
       isPaused sseReconnectTimer sseBackoffDelay _sessionOpInProgress].
  destruct pw as [[[]]|]; cbn [isDestroyed negb app];
    repeat rewrite <- app_assoc;
    rewrite skipn_length_app; split; reflexivity.
Qed.

(** *** The [try] block up to the capture start, the service running *)

(** [withTimeout] around a promise that is settled already: the timer
    is armed all the same. *)
Lemma withTimeout_settled o ms label w :
  withTimeout (Already o) ms label w
  = (Already o, exec (setTimeout TSettle (Js.number_of_Z ms)) w).
Proof. destruct w as [s ts cs ps fr py out0]. reflexivity. Qed.

Lemma withTimeout_pending wt ms label w :
  withTimeout (Pending wt) ms label w
  = (Pending (WRace wt (fresh w)
                (label ++ " timed out after "
                 ++ Js.String_of_int (ms / 1000) ++ "s")),
     exec (setTimeout TSettle (Js.number_of_Z ms)) w).
Proof. destruct w as [s ts cs ps fr py out0]. reflexivity. Qed.

Lemma startBackend_running w b :
  backendProcess (vars w) = Some b ->
  startBackend w = (Already (Fulfilled VUndefined), w).
Proof. intros Hb. unfold startBackend, bind, get. now rewrite Hb. Qed.

(** The first health check succeeds. *)
Lemma run_waitForBackendReady_healthy n w body :
  run (waitForBackendReady (S n)) w
    [CallSettled (fresh w) (Fulfilled body)]
  = Done (Returned true) (called FetchHealth w) [].
Proof.
  cbn [waitForBackendReady pcatch].
  rewrite run_Do, call_pending. cbn [fst snd await pcatch].
  rewrite (run_Await_settled _ _ _ _ _ (Fulfilled body));
    [ | reflexivity | cbn; now rewrite Nat.eqb_refl ].
  cbn [pcatch]. apply run_Ret.
Qed.

(** [if (!sseRequest) connectSSE()] *)
Definition ensure_relay : M unit :=
  r <- get sseRequest ;;
  match r with
  | None => connectSSE 0
  | Some _ => ret tt
  end.

(** The rest of the [try] block from the capture start on. *)
Definition capture_start (sourceType target : string) : Prog Reply :=
  Do (startClient sourceType target) (fun p =>
  Do (withTimeout p 120000 "Client startup") (fun p =>
  await p (fun _ =>
  Do (set_isPaused false ;; setTrayActive true) (fun _ =>
  Ret Success)))).

(** The world in which the capture start is reached when the service
    is running already, the microphone is granted and the first health
    check succeeds. *)
Definition before_capture (w : World) : World :=
  exec ensure_relay
    (called FetchHealth
       (exec (setTimeout TSettle (Js.number_of_Z 60000))
          (called AskMicrophone w))).

Lemma run_session_body_service_up sourceType target w b mic health evs :
  backendProcess (vars w) = Some b ->
  truthy mic = true ->
  run (session_body sourceType target) w
    (CallSettled (fresh w) (Fulfilled mic)
     :: CallSettled (S (S (fresh w))) (Fulfilled health) :: evs)
  = run (capture_start sourceType target) (before_capture w) evs.
Proof.
  intros Hb Hmic. unfold session_body.
  pose proof (run_ensurePermissions w mic) as Hperm. rewrite Hmic in Hperm.
  change (CallSettled (fresh w) (Fulfilled mic)
          :: CallSettled (S (S (fresh w))) (Fulfilled health) :: evs)
    with ([CallSettled (fresh w) (Fulfilled mic)]
          ++ CallSettled (S (S (fresh w))) (Fulfilled health) :: evs)%list.
  rewrite (run_pbind _ _ _ _ _ _ _ Hperm).
  cbn [negb].
  set (w1 := called AskMicrophone w).
  assert (Hb1 : backendProcess (vars w1) = Some b).
  { subst w1. destruct w as [[] ? ? ? ? ? ?]. exact Hb. }
  rewrite run_Do, (startBackend_running w1 b Hb1). cbn [fst snd].
  rewrite run_Do, withTimeout_settled. cbn [fst snd await].
  set (w2 := exec (setTimeout TSettle (Js.number_of_Z 60000)) w1).
  assert (Hfresh : S (S (fresh w)) = fresh w2).
  { subst w2 w1. destruct w as [s ts cs ps fr py o]. reflexivity. }
  rewrite Hfresh.
  change (CallSettled (fresh w2) (Fulfilled health) :: evs)
    with ([CallSettled (fresh w2) (Fulfilled health)] ++ evs)%list.
  rewrite (run_pbind _ _ _ _ _ _ _
             (run_waitForBackendReady_healthy 4 w2 health)).
  rewrite run_Do. reflexivity.
Qed.

(** What the front of the [try] block leaves of a world whose service
    is running: the module variables but for the relay it may have
    opened, and the live processes. *)
Lemma before_capture_keeps w :
  backendProcess (vars (before_capture w)) = backendProcess (vars w)
  /\ clientProcess (vars (before_capture w)) = clientProcess (vars w)
  /\ isPaused (vars (before_capture w)) = isPaused (vars w)
  /\ _sessionOpInProgress (vars (before_capture w))
     = _sessionOpInProgress (vars w)
  /\ procs (before_capture w) = procs w
  /\ (exists effs, out (before_capture w) = (out w ++ effs)%list
                   /\ forallb harmless effs = true).
Proof.
  destruct w as [[bp cp rq tr pw sd ip rt bd fl] ts cs ps fr py o].
  cbv [before_capture ensure_relay called call setTimeout exec
       connectSSE disconnectSSE clearTimeout newHandle set_timers
       set_conns set_sseRequest set_sseReconnectTimer set_sseBackoffDelay
       modify emit bind get ret snd fst
       vars timers conns procs fresh pythonInstalled out popupWindow
       backendProcess clientProcess sseRequest tray isShuttingDown
       isPaused sseReconnectTimer sseBackoffDelay _sessionOpInProgress].
  destruct rq as [req|], rt as [t|]; repeat split;
    repeat rewrite <- app_assoc; eexists; split; reflexivity.
Qed.

Lemma startClient_running sourceType target w c :
  clientProcess (vars w) = Some c ->
  startClient sourceType target w
  = (Already (Rejected "Client already running"), w).
Proof. intros Hc. unfold startClient, bind, get. now rewrite Hc. Qed.

Lemma run_capture_start_running sourceType target w c :
  clientProcess (vars w) = Some c ->
  run (capture_start sourceType target) w []
  = Done (Threw "Client already running")
      (exec (setTimeout TSettle (Js.number_of_Z 120000)) w) [].
Proof.
  intros Hc. unfold capture_start.
  rewrite run_Do, (startClient_running _ _ w c Hc). cbn [fst snd].
  rewrite run_Do, withTimeout_settled. cbn [fst snd await].
  apply run_Throw.
Qed.

(** X7: a start-session made while a capture process is running (the
    service up, the microphone granted, the health check passing) does
    not leave the running session alone: the capture start is rejected
    with 'Client already running', and the rollback of that failure
    destroys the stream request and sends the running capture process
    SIGINT.  Once that process has closed the call returns
    [{ success: false, error: 'Client already running' }], and the
    session that was active is gone: no capture process, no stream;
    the service keeps running. *)
Theorem start_while_capturing_stops_the_capture :
  forall (sourceType target : string) (w : World) (b c : Pid)
         (mic health : Value) (code : option Z),
    _sessionOpInProgress (vars w) = false ->
    backendProcess (vars w) = Some b ->
    clientProcess (vars w) = Some c ->
    lookup c (procs w) = Some Client ->
    truthy mic = true ->
    exists w',
      run (start_session sourceType target) w
        [ CallSettled (fresh w) (Fulfilled mic);
          CallSettled (S (S (fresh w))) (Fulfilled health);
          ProcClose c code ]
      = Done (Returned (Failure "Client already running")) w' []
      /\ fst (get_session_state w')
         = SessionState true false false (isPaused (vars w))
      /\ In (EKill c SIGINT) (since w w')
      /\ forall p r, ~ In (ESpawn p r) (since w w').
Proof.
  intros sourceType target w b c mic health code
         Hflag Hb Hc Hlive Hmic.
  set (w0 := before_capture (entered w)).
  set (w1 := exec (setTimeout TSettle (Js.number_of_Z 120000)) w0).
  destruct (before_capture_keeps (entered w))
    as (Hb0 & Hc0 & Hp0 & Hf0 & Hprocs0 & effs0 & Hout0 & Hharm0).
  fold w0 in Hb0, Hc0, Hp0, Hf0, Hprocs0, Hout0.
  rewrite entered_vars in Hb0, Hc0, Hp0. cbn in Hb0, Hc0, Hp0.
  assert (Hbody : run (session_body sourceType target) (entered w)
                    [ CallSettled (fresh w) (Fulfilled mic);
                      CallSettled (S (S (fresh w))) (Fulfilled health) ]
                  = Done (Threw "Client already running") w1 []).
  { change (fresh w) with (fresh (entered w)).
    rewrite (run_session_body_service_up _ _ (entered w) b)
      by (rewrite ?entered_vars; assumption).
    apply (run_capture_start_running _ _ w0 c). now rewrite Hc0. }
  assert (Hvars1 : vars w1 = vars w0)
    by (subst w1; destruct w0 as [s ts cs ps fr py o]; reflexivity).
  assert (Hprocs1 : procs w1 = procs w0)
    by (subst w1; destruct w0 as [s ts cs ps fr py o]; reflexivity).
  assert (Hout1 : out w1
                  = (out w0 ++ [ESetTimeout (fresh w0) TSettle
                                  (Js.number_of_Z 120000)])%list)
    by (subst w1; destruct w0 as [s ts cs ps fr py o]; reflexivity).
  assert (Hsettle : settles_stop w1 [ProcClose c code]).
  { unfold settles_stop. rewrite Hvars1, Hc0, Hc.
    left. exists code. split; [ reflexivity | ].
    now rewrite Hprocs1, Hprocs0. }
  destruct (run_start_session_failure _ _ _ _ _ _ _ Hflag Hbody Hsettle)
    as (w2 & effs & Hrun & Hvars2 & Hout2 & Hkill & Hint & Hdestroy & Hspawn).
  exists w2. split; [ exact Hrun | ].
  assert (Hout : out w2
                 = (out w ++ effs0
                    ++ [ESetTimeout (fresh w0) TSettle
                          (Js.number_of_Z 120000)] ++ effs)%list).
  { rewrite Hout2, Hout1, Hout0.
    change (out (entered w)) with (out w).
    now rewrite <- !app_assoc. }
  rewrite (since_app _ _ _ Hout).
  repeat split.
  - unfold get_session_state, get, bind, ret. cbn [fst].
    rewrite Hvars2, Hvars1. cbn. now rewrite Hb0, Hb, Hp0.
  - apply in_or_app. right. apply in_or_app. right.
    apply Hint. now rewrite Hvars1, Hc0.
  - intros p r Hin.
    apply in_app_or in Hin. destruct Hin as [Hin|Hin].
    { eapply harmless_not_spawn; eauto. }
    apply in_app_or in Hin. destruct Hin as [Hin|Hin].
    { destruct Hin as [Hin|[]]. discriminate. }
    eapply Hspawn; eauto.
Qed.

(* ---------------------------------------------------------------- *)
(** ** A capture process that exits while it is started               *)
(* ---------------------------------------------------------------- *)

(** Every handle in use was allocated before: the live processes and
    the pending timers have handles below [fresh]. *)
Definition handles_allocated (w : World) : bool :=
  forallb (fun e : Pid * Role => Nat.ltb (fst e) (fresh w)) (procs w)
  && forallb (fun e : TimerId * TimerAction => Nat.ltb (fst e) (fresh w))
       (timers w).

Lemma lookup_above {A} (l : list (nat * A)) n k :
  forallb (fun e => Nat.ltb (fst e) n) l = true ->
  (n <= k)%nat ->
  lookup k l = None.
Proof.
  induction l as [|[k' a] l IH]; intros Hall Hk; [ reflexivity | ].
  cbn [forallb fst] in Hall. apply andb_prop in Hall.
  destruct Hall as [Hlt Hall]. apply Nat.ltb_lt in Hlt.
  cbn [lookup]. destruct (Nat.eqb k' k) eqn:He.
  - apply Nat.eqb_eq in He. lia.
  - now apply IH.
Qed.

Lemma startClient_spawns sourceType target w choice :
  clientProcess (vars w) = None ->
  choiceMap sourceType = Some choice ->
  let ws := exec (startClient sourceType target) w in
  startClient sourceType target w
  = (Pending (WClientStart (fresh w) (S (fresh w))), ws)
  /\ vars ws
     = mkState (backendProcess (vars w)) (Some (fresh w))
         (sseRequest (vars w)) (tray (vars w)) (popupWindow (vars w))
         (isShuttingDown (vars w)) (isPaused (vars w))
         (sseReconnectTimer (vars w)) (sseBackoffDelay (vars w))
         (_sessionOpInProgress (vars w))
  /\ procs ws = (procs w ++ [(fresh w, Client)])%list
  /\ fresh ws = S (S (fresh w))
  /\ out ws
     = (out w ++ [ ESpawn (fresh w) Client;
                   EStdinChoice (fresh w) choice;
                   EStdin (fresh w)
                     (Js.strip_line_terminators target ++ Js.nl);
                   EStdinEnd (fresh w);
                   ESetTimeout (S (fresh w)) TSettle 120000 ])%list.
Proof.
  intros Hc Hchoice ws. subst ws.
  destruct w as [[bp cp rq tr pw sd ip rt bd fl] ts cs ps fr py o].
  cbn [vars clientProcess] in Hc. subst cp.
  unfold exec, startClient, bind, get. cbn [vars clientProcess].
  rewrite Hchoice.
  cbv [spawn setTimeout newHandle set_procs set_timers
       set_clientProcess modify emit bind ret snd fst
       vars timers conns procs fresh pythonInstalled out
       backendProcess clientProcess sseRequest tray popupWindow
       isShuttingDown isPaused sseReconnectTimer sseBackoffDelay
       _sessionOpInProgress].
  repeat split. now repeat rewrite <- app_assoc.
Qed.

(** The close handlers of a capture process: the handle is cleared,
    the relay is disconnected, and nothing is signalled or spawned. *)
Lemma client_close_vars w c code :
  lookup c (procs w) = Some Client ->
  let w' := exec (handle (ProcClose c code)) w in
  vars w'
  = mkState (backendProcess (vars w)) None None (tray (vars w))
      (popupWindow (vars w)) (isShuttingDown (vars w))
      (isPaused (vars w)) None SSE_BACKOFF_INITIAL
      (_sessionOpInProgress (vars w))
  /\ procs w' = remove_key c (procs w)
  /\ exists effs, out w' = (out w ++ effs)%list
                  /\ forallb harmless effs = true.
Proof.
  intros Hlive w'.
  destruct w as [[bp cp rq tr pw sd ip rt bd fl] ts cs ps f py o].
  cbn in Hlive.
  assert (Hw' : w' = exec (set_procs (remove_key c) ;;
                           on_client_close code ;;
                           cancel_escalation c)
                      (mkWorld (mkState bp cp rq tr pw sd ip rt bd fl)
                         ts cs ps f py o)).
  { subst w'. unfold exec, handle, role_of, bind at 1. cbn [procs].
    now rewrite Hlive. }
  clearbody w'. subst w'.
  cbv [bind ret exec send sendErrorToRenderer window_live setTrayActive
       disconnectSSE on_client_close cancel_escalation get modify emit
       clearTimeout
       set_procs set_timers set_clientProcess set_sseBackoffDelay
       set_sseRequest set_sseReconnectTimer
       snd fst vars timers conns procs fresh pythonInstalled out
       backendProcess clientProcess sseRequest tray popupWindow
       isShuttingDown isPaused sseReconnectTimer sseBackoffDelay
       _sessionOpInProgress isDestroyed negb].
  destruct tr, pw as [[[]]|], rq as [req|], rt as [t|], code as [z|];
    try destruct (z =? 0);
    cbv beta iota;
    repeat rewrite <- app_assoc;
    (split; [ reflexivity | split; [ reflexivity | ] ]);
    eexists;
    (split; [ first [ reflexivity | symmetry; apply app_nil_r ]
            | reflexivity ]).
Qed.

Lemma run_capture_start_closed sourceType target w choice code :
  clientProcess (vars w) = None ->
  choiceMap sourceType = Some choice ->
  lookup (fresh w) (procs w) = None ->
  run (capture_start sourceType target) w [ProcClose (fresh w) code]
  = Done (Returned Success)
      (exec (set_isPaused false ;; setTrayActive true)
         (exec (handle (ProcClose (fresh w) code))
            (exec (setTimeout TSettle (Js.number_of_Z 120000))
               (exec (startClient sourceType target) w)))) [].
Proof.
  intros Hc Hchoice Hfresh. unfold capture_start.
  destruct (startClient_spawns sourceType target w choice Hc Hchoice)
    as (Hstart & Hvars & Hprocs & Hfr & Hout).
  set (ws := exec (startClient sourceType target) w) in *.
  rewrite run_Do, Hstart. cbn [fst snd].
  rewrite run_Do, withTimeout_pending. cbn [fst snd await].
  rewrite (run_Await_settled _ _ _ _ _ (Fulfilled VUndefined)).
  - rewrite run_Do, run_Ret. reflexivity.
  - cbn [enabled].
    assert (Hp : procs (exec (setTimeout TSettle (Js.number_of_Z 120000)) ws)
                 = procs ws)
      by (destruct ws as [s ts cs ps fr py o]; reflexivity).
    rewrite Hp, Hprocs, (lookup_snoc_fresh _ _ _ Hfresh). reflexivity.
  - cbn [wake]. now rewrite Nat.eqb_refl.
Qed.

Lemma before_capture_fresh w :
  (fresh w <= fresh (before_capture w))%nat
  /\ fresh (before_capture (entered w)) = fresh (before_capture w).
Proof.
  destruct w as [[bp cp rq tr pw sd ip rt bd fl] ts cs ps fr py o].
  cbv [before_capture ensure_relay called call setTimeout exec entered
       connectSSE disconnectSSE clearTimeout newHandle set_timers
       set_conns set_sseRequest set_sseReconnectTimer set_sseBackoffDelay
       set_sessionOpInProgress
       modify emit bind get ret snd fst
       vars timers conns procs fresh pythonInstalled out popupWindow
       backendProcess clientProcess sseRequest tray isShuttingDown
       isPaused sseReconnectTimer sseBackoffDelay _sessionOpInProgress].
  destruct rq as [req|], rt as [t|]; split; try reflexivity; lia.
Qed.

(** [isPaused = false; setTrayActive(true)] *)
Lemma mark_active w :
  let w' := exec (set_isPaused false ;; setTrayActive true) w in
  vars w'
  = mkState (backendProcess (vars w)) (clientProcess (vars w))
      (sseRequest (vars w)) (tray (vars w)) (popupWindow (vars w))
      (isShuttingDown (vars w)) false (sseReconnectTimer (vars w))
      (sseBackoffDelay (vars w)) (_sessionOpInProgress (vars w))
  /\ out w' = (out w ++ if tray (vars w) then [ESetTray true] else [])%list.
Proof.
  destruct w as [[bp cp rq tr pw sd ip rt bd fl] ts cs ps fr py o].
  cbv [exec setTrayActive set_isPaused modify emit bind get ret snd fst
       vars out tray].
  destruct tr; split; try reflexivity. cbn [out]. now rewrite app_nil_r.
Qed.

(** X8: when the capture process exits while it is being started (the
    service up, the microphone granted, the health check passing),
    start-session still returns [{ success: true }]: the start promise
    is resolved by the process's close as it is by its 'Recording'
    line.  The close handler has cleared the handle and disconnected
    the relay, so the call reports success while [get-session-state]
    reports no capture process and no stream, and the tray, if there
    is one, is switched to active last of all. *)
Theorem start_reports_success_when_capture_exits :
  forall (sourceType target : string) (w : World) (b : Pid)
         (choice : Member) (mic health : Value) (code : option Z),
    _sessionOpInProgress (vars w) = false ->
    backendProcess (vars w) = Some b ->
    clientProcess (vars w) = None ->
    choiceMap sourceType = Some choice ->
    truthy mic = true ->
    handles_allocated w = true ->
    let p := fresh (before_capture w) in
    exists w',
      run (start_session sourceType target) w
        [ CallSettled (fresh w) (Fulfilled mic);
          CallSettled (S (S (fresh w))) (Fulfilled health);
          ProcClose p code ]
      = Done (Returned Success) w' []
      /\ fst (get_session_state w') = SessionState true false false false
      /\ In (ESpawn p Client) (since w w')
      /\ (tray (vars w) = true ->
          exists before, since w w' = (before ++ [ESetTray true])%list).
Proof.
  intros sourceType target w b choice mic health code
         Hflag Hb Hc Hchoice Hmic Halloc p.
  rewrite run_start_session_entered by exact Hflag.
  set (w0 := before_capture (entered w)).
  destruct (before_capture_keeps (entered w))
    as (Hb0 & Hc0 & Hp0 & Hf0 & Hprocs0 & effs0 & Hout0 & Hharm0).
  fold w0 in Hb0, Hc0, Hp0, Hf0, Hprocs0, Hout0.
  rewrite entered_vars in Hb0, Hc0, Hp0, Hf0. cbn in Hb0, Hc0, Hp0, Hf0.
  destruct (before_capture_fresh w) as [Hle Hfr0]. fold w0 in Hfr0.
  assert (Hunused : lookup (fresh w0) (procs w0) = None).
  { rewrite Hprocs0, Hfr0. change (procs (entered w)) with (procs w).
    unfold handles_allocated in Halloc. apply andb_prop in Halloc.
    apply (lookup_above _ (fresh w)); [ apply Halloc | exact Hle ]. }
  assert (Hc0' : clientProcess (vars w0) = None) by now rewrite Hc0.
  pose proof (run_capture_start_closed sourceType target w0 choice code
                Hc0' Hchoice Hunused) as Hcap.
  destruct (startClient_spawns sourceType target w0 choice Hc0' Hchoice)
    as (_ & Hvars1 & Hprocs1 & _ & Hout1).
  set (w1 := exec (startClient sourceType target) w0) in *.
  set (w2 := exec (setTimeout TSettle (Js.number_of_Z 120000)) w1) in *.
  assert (Hvars2 : vars w2 = vars w1)
    by (subst w2; destruct w1 as [s ts cs ps fr py o]; reflexivity).
  assert (Hprocs2 : procs w2 = procs w1)
    by (subst w2; destruct w1 as [s ts cs ps fr py o]; reflexivity).
  assert (Hout2 : out w2
                  = (out w1 ++ [ESetTimeout (fresh w1) TSettle
                                  (Js.number_of_Z 120000)])%list)
    by (subst w2; destruct w1 as [s ts cs ps fr py o]; reflexivity).
  assert (Hlive : lookup (fresh w0) (procs w2) = Some Client).
  { rewrite Hprocs2, Hprocs1. now apply lookup_snoc_fresh. }
  destruct (client_close_vars w2 (fresh w0) code Hlive)
    as (Hvars3 & _ & effs3 & Hout3 & Hharm3).
  set (w3 := exec (handle (ProcClose (fresh w0) code)) w2) in *.
  destruct (mark_active w3) as [Hvars4 Hout4].
  set (w4 := exec (set_isPaused false ;; setTrayActive true) w3) in *.
  assert (Hbody : run (session_body sourceType target) (entered w)
                    ([ CallSettled (fresh w) (Fulfilled mic);
                       CallSettled (S (S (fresh w))) (Fulfilled health);
                       ProcClose p code ] ++ [])
                  = Done (Returned Success) w4 []).
  { rewrite app_nil_r. change (fresh w) with (fresh (entered w)).
    rewrite (run_session_body_service_up _ _ (entered w) b)
      by (rewrite ?entered_vars; assumption).
    fold w0. subst p. rewrite <- Hfr0. exact Hcap. }
  rewrite app_nil_r in Hbody.
  rewrite <- (app_nil_r [_; _; _]).
  rewrite (run_try_finally _ _ _ _ _ _ _ [] Hbody).
  cbn [pfinally]. rewrite run_Do, run_Ret.
  destruct (release_vars w4) as [Hvars5 Hout5].
  exists (exec release w4). split; [ reflexivity | ].
  assert (Htray : tray (vars w3) = tray (vars w)).
  { rewrite Hvars3, Hvars2, Hvars1. cbn.
    unfold w0. destruct w as [[bp cp rq tr pw sd ip rt bd fl] ts cs ps fr py o].
    cbv [before_capture ensure_relay called call setTimeout exec entered
         connectSSE disconnectSSE clearTimeout newHandle set_timers
         set_conns set_sseRequest set_sseReconnectTimer set_sseBackoffDelay
         set_sessionOpInProgress
         modify emit bind get ret snd fst
         vars timers conns procs fresh pythonInstalled out popupWindow
         backendProcess clientProcess sseRequest tray isShuttingDown
         isPaused sseReconnectTimer sseBackoffDelay _sessionOpInProgress].
    destruct rq, rt; reflexivity. }
  assert (Hout : out (exec release w4)
                 = (out w
                    ++ effs0
                    ++ [ ESpawn (fresh w0) Client;
                         EStdinChoice (fresh w0) choice;
                         EStdin (fresh w0)
                           (Js.strip_line_terminators target ++ Js.nl);
                         EStdinEnd (fresh w0);
                         ESetTimeout (S (fresh w0)) TSettle 120000 ]
                    ++ [ESetTimeout (fresh w1) TSettle
                          (Js.number_of_Z 120000)]
                    ++ effs3
                    ++ if tray (vars w) then [ESetTray true] else [])%list).
  { rewrite Hout5, Hout4, Hout3, Hout2, Hout1, Hout0, Htray.
    change (out (entered w)) with (out w).
    now rewrite <- !app_assoc. }
  rewrite (since_app _ _ _ Hout).
  repeat split.
  - unfold get_session_state, get, bind, ret. cbn [fst].
    rewrite Hvars5, Hvars4, Hvars3, Hvars2, Hvars1. cbn.
    now rewrite Hb0, Hb.
  - subst p. rewrite <- Hfr0.
    apply in_or_app. right. left. reflexivity.
  - intros Ht. rewrite Ht.
    eexists. rewrite !app_assoc. reflexivity.
Qed.

(* ---------------------------------------------------------------- *)
(** ** A capture process that outlives its stop                       *)
(* ---------------------------------------------------------------- *)

Lemma lookup_remove_key_other {A} k k' (l : list (nat * A)) :
  k <> k' -> lookup k (remove_key k' l) = lookup k l.
Proof.
  intros Hne. induction l as [|[k0 a] l IH]; [ reflexivity | ].
  unfold remove_key in *. cbn [filter fst lookup].
  destruct (Nat.eqb k0 k') eqn:E'; cbn [negb].
  - apply Nat.eqb_eq in E'. subst k0.
    destruct (Nat.eqb k' k) eqn:E; [ | exact IH ].
    apply Nat.eqb_eq in E. congruence.
  - cbn [lookup]. now rewrite IH.
Qed.

(** X9: the close handler of a capture process clears [clientProcess]
    and disconnects the relay whichever process the variable holds.
    So when a capture process that was stopped earlier closes only
    after a new one has been started, the new session loses its handle
    and its stream although its process keeps running:
    [get-session-state] reports no capture process, and a stop-session
    made then succeeds without signalling anything. *)
Theorem late_close_orphans_the_new_capture :
  forall (w : World) (old new : Pid) (code : option Z),
    _sessionOpInProgress (vars w) = false ->
    lookup old (procs w) = Some Client ->
    lookup new (procs w) = Some Client ->
    clientProcess (vars w) = Some new ->
    old <> new ->
    let w' := exec (handle (ProcClose old code)) w in
    clientProcess (vars w') = None
    /\ sseRequest (vars w') = None
    /\ lookup new (procs w') = Some Client
    /\ (forall q sig, ~ In (EKill q sig) (since w w'))
    /\ exists w'',
         run stop_session w' [] = Done (Returned Success) w'' []
         /\ forall q sig, ~ In (EKill q sig) (since w' w'').
Proof.
  intros w old new code Hflag Hold Hnew Hc Hne w'.
  destruct (client_close_vars w old code Hold)
    as (Hvars & Hprocs & effs & Hout & Hharm).
  fold w' in Hvars, Hprocs, Hout.
  assert (Hc' : clientProcess (vars w') = None) by now rewrite Hvars.
  repeat split.
  - exact Hc'.
  - now rewrite Hvars.
  - rewrite Hprocs, lookup_remove_key_other by congruence. exact Hnew.
  - intros q sig Hin. rewrite (since_app _ _ _ Hout) in Hin.
    eapply harmless_not_kill; eauto.
  - assert (Hflag' : _sessionOpInProgress (vars w') = false)
      by now rewrite Hvars.
    assert (Hsettle : settles_stop w' [])
      by (unfold settles_stop; now rewrite Hc').
    destruct (run_stop_session w' [] Hflag' Hsettle)
      as (w'' & effs' & Hrun & _ & Hout' & Hkill & _).
    exists w''. split; [ exact Hrun | ].
    intros q sig Hin. rewrite (since_app _ _ _ Hout') in Hin.
    apply Hkill in Hin. rewrite Hc' in Hin. discriminate.
Qed.

(* ---------------------------------------------------------------- *)
(** ** A stream that ends after it was disconnected                   *)
(* ---------------------------------------------------------------- *)

(** X10: [disconnectSSE] destroys the request but leaves its handlers
    in place, and they do not check that the request is still the
    current one.  So if the stream of a request that pause-session
    destroyed then reports 'end' or 'error', a reconnect is scheduled
    with that stream's cursor, and when its timer fires a new request
    is opened: the relay is connected again although the session is
    still paused. *)
Theorem ended_stream_reconnects_a_paused_relay :
  forall (w : World) (req : ReqId) (lastId cur : Z) (buffer : string),
    lookup req (conns w)
      = Some {| conn_lastId := lastId;
                conn_phase := Streaming buffer cur |} ->
    lookup (fresh w) (timers w) = None ->
    let paused := exec pause_session w in
    let ended := exec (handle (SseEnd req)) paused in
    let reconnected := exec (handle (TimerFire (fresh w))) ended in
    fst (get_session_state paused)
      = SessionState
          (match backendProcess (vars w) with Some _ => true | None => false end)
          (match clientProcess (vars w) with Some _ => true | None => false end)
          false true
    /\ since paused ended
       = [ESetTimeout (fresh w) (TReconnect cur) SSE_BACKOFF_INITIAL]
    /\ enabled (TimerFire (fresh w)) ended = true
    /\ since ended reconnected = [EHttpGet (S (fresh w)) cur]
    /\ fst (get_session_state reconnected)
       = SessionState
           (match backendProcess (vars w) with Some _ => true | None => false end)
           (match clientProcess (vars w) with Some _ => true | None => false end)
           true true.
Proof.
  intros w req lastId cur buffer Hconn Hfresh paused ended reconnected.
  destruct w as [[bp cp rq tr pw sd ip rt bd fl] ts cs ps fr py o].
  cbn [conns timers fresh] in Hconn, Hfresh.
  assert (Hfresh' : lookup fr (match rt with
                                | Some t => remove_key t ts
                                | None => ts
                                end) = None).
  { destruct rt; [ now apply lookup_remove_key_none | exact Hfresh ]. }
  assert (Hpaused :
            paused
            = mkWorld (mkState bp cp None tr pw sd true None
                         SSE_BACKOFF_INITIAL fl)
                (match rt with Some t => remove_key t ts | None => ts end)
                cs ps fr py
                (o ++ match rq with Some r => [EDestroy r] | None => [] end)).
  { subst paused.
    cbv [exec pause_session disconnectSSE clearTimeout set_isPaused
         set_timers set_sseReconnectTimer set_sseRequest
         set_sseBackoffDelay modify emit bind get ret snd fst
         vars timers conns procs fresh pythonInstalled out
         backendProcess clientProcess sseRequest tray popupWindow
         isShuttingDown isPaused sseReconnectTimer sseBackoffDelay
         _sessionOpInProgress].
    destruct rt, rq; cbv beta iota; rewrite ?app_nil_r; reflexivity. }
  set (ts1 := match rt with Some t => remove_key t ts | None => ts end) in *.
  set (o1 := (o ++ match rq with Some r => [EDestroy r] | None => [] end)%list)
    in *.
  assert (Hended :
            ended
            = mkWorld (mkState bp cp None tr pw sd true (Some fr)
                         (Js.Math_min
                            (SSE_BACKOFF_INITIAL * SSE_BACKOFF_MULTIPLIER)
                            SSE_BACKOFF_MAX) fl)
                (ts1 ++ [(fr, TReconnect cur)])
                (map (fun e : ReqId * Conn =>
                        if Nat.eqb (fst e) req
                        then (fst e, {| conn_lastId := conn_lastId (snd e);
                                        conn_phase := Closed |})
                        else e) cs)
                ps (S fr) py
                (o1 ++ [ESetTimeout fr (TReconnect cur)
                          SSE_BACKOFF_INITIAL])).
  { subst ended. rewrite Hpaused.
    unfold exec, handle, on_stream_closed, get_conn, bind at 1.
    cbn [conns snd fst]. rewrite Hconn.
    cbv [scheduleSSEReconnect setTimeout set_phase set_conns newHandle
         set_timers set_sseReconnectTimer set_sseBackoffDelay
         modify emit bind get ret snd fst
         vars timers conns procs fresh pythonInstalled out
         backendProcess clientProcess sseRequest tray popupWindow
         isShuttingDown isPaused sseReconnectTimer sseBackoffDelay
         _sessionOpInProgress].
    reflexivity. }
  assert (Hlook : lookup fr (ts1 ++ [(fr, TReconnect cur)])
                  = Some (TReconnect cur))
    by now apply lookup_snoc_fresh.
  assert (Hreconnected :
            exists ts3 cs3 fr3,
              reconnected
              = mkWorld (mkState bp cp (Some (S fr)) tr pw sd true None
                           SSE_BACKOFF_INITIAL fl)
                  ts3 cs3 ps fr3 py
                  ((o1 ++ [ESetTimeout fr (TReconnect cur)
                             SSE_BACKOFF_INITIAL])
                   ++ [EHttpGet (S fr) cur])).
  { subst reconnected. rewrite Hended.
    unfold exec, handle, timer_action, bind at 1.
    cbn [timers snd fst fresh]. rewrite Hlook.
    cbv [connectSSE disconnectSSE clearTimeout set_conns newHandle
         set_timers set_sseReconnectTimer set_sseBackoffDelay
         set_sseRequest modify emit bind get ret snd fst
         vars timers conns procs fresh pythonInstalled out
         backendProcess clientProcess sseRequest tray popupWindow
         isShuttingDown isPaused sseReconnectTimer sseBackoffDelay
         _sessionOpInProgress].
    do 3 eexists. reflexivity. }
  destruct Hreconnected as (ts3 & cs3 & fr3 & Hreconnected).
  repeat split.
  - rewrite Hpaused. reflexivity.
  - unfold since. rewrite Hended, Hpaused. cbn [out].
    apply skipn_length_app.
  - rewrite Hended. cbn [enabled timers fresh]. now rewrite Hlook.
  - unfold since. rewrite Hreconnected, Hended. cbn [out fresh].
    apply skipn_length_app.
  - rewrite Hreconnected. reflexivity.
Qed.

(* ---------------------------------------------------------------- *)
(** ** The health check and its retries                               *)
(* ---------------------------------------------------------------- *)

(** [k] health checks that fail, each followed by the one-second delay
    that elapses, then one more check that settles as [last].  The
    handles are the ones the checks and delays are given from [f] on. *)
Fixpoint checks (k : nat) (f : nat) (reason : string) (last : Settled)
  : list Event :=
  match k with
  | O => [CallSettled f last]
  | S k' =>
      CallSettled f (Rejected reason) :: TimerFire (S f)
      :: checks k' (S (S f)) reason last
  end.

(** What these checks make the module do. *)
Fixpoint check_effects (k : nat) (f : nat) : list Effect :=
  match k with
  | O => [ECall f FetchHealth]
  | S k' =>
      ECall f FetchHealth :: ESetTimeout (S f) TSettle 1000
      :: check_effects k' (S (S f))
  end.

Definition timers_allocated (w : World) : bool :=
  forallb (fun e : TimerId * TimerAction => Nat.ltb (fst e) (fresh w))
    (timers w).

Definition fulfilled (o : Settled) : bool :=
  match o with
  | Fulfilled _ => true
  | Rejected _ => false
  end.

Lemma waitForBackendReady_step n :
  waitForBackendReady (S n)
  = Do (call FetchHealth) (fun p =>
      pcatch (await p (fun _ => Ret true))
        (fun _ =>
           match n with
           | O => Ret false
           | S _ =>
               Do (setTimeout TSettle 1000) (fun t =>
               Await (WTimer t) (fun _ => waitForBackendReady n))
           end)).
Proof. destruct n; reflexivity. Qed.

(** One failed check and the delay after it. *)
Lemma run_failed_check n w reason evs :
  timers_allocated w = true ->
  exists w2,
    run (waitForBackendReady (S (S n))) w
      (CallSettled (fresh w) (Rejected reason) :: TimerFire (S (fresh w))
       :: evs)
    = run (waitForBackendReady (S n)) w2 evs
    /\ vars w2 = vars w
    /\ procs w2 = procs w
    /\ fresh w2 = S (S (fresh w))
    /\ timers_allocated w2 = true
    /\ out w2 = (out w ++ [ECall (fresh w) FetchHealth;
                           ESetTimeout (S (fresh w)) TSettle 1000])%list.
Proof.
  intros Halloc.
  rewrite (waitForBackendReady_step (S n)).
  rewrite run_Do, call_pending. cbn [fst snd await pcatch].
  rewrite (run_Await_settled _ _ _ _ _ (Rejected reason));
    [ | reflexivity | cbn; now rewrite Nat.eqb_refl ].
  cbn [pcatch]. change (exec (handle (CallSettled (fresh w)
                                        (Rejected reason))) ?x) with x.
  rewrite run_Do.
  destruct w as [s ts cs ps fr py o]. unfold timers_allocated in Halloc.
  cbn [fresh timers] in *.
  assert (Hnone : lookup (S fr) ts = None)
    by (apply (lookup_above _ fr); [ exact Halloc | lia ]).
  cbv [called call setTimeout exec newHandle set_timers emit bind ret
       snd fst vars timers conns procs fresh pythonInstalled out].
  rewrite (run_Await_settled _ _ _ _ _ (Fulfilled VUndefined)).
  - eexists. split; [ reflexivity | ].
    unfold exec, handle, timer_action, bind. cbn [timers snd fst].
    rewrite (lookup_snoc_fresh _ _ _ Hnone).
    cbv [set_timers snd fst vars timers conns procs fresh
         pythonInstalled out timers_allocated].
    repeat split.
    + unfold remove_key. rewrite filter_app, forallb_app.
      apply andb_true_intro. split.
      * rewrite forallb_forall in *. intros [t a] He.
        apply filter_In in He. destruct He as [He _].
        apply Halloc in He. cbn [fst] in He. apply Nat.ltb_lt in He.
        apply Nat.ltb_lt. lia.
      * cbn. now rewrite Nat.eqb_refl.
    + now rewrite <- app_assoc.
  - cbn [enabled timers]. now rewrite (lookup_snoc_fresh _ _ _ Hnone).
  - cbn [wake]. now rewrite Nat.eqb_refl.
Qed.

(** The check that settles the matter. *)
Lemma run_last_check n w last :
  (fulfilled last = false -> n = O) ->
  run (waitForBackendReady (S n)) w [CallSettled (fresh w) last]
  = Done (Returned (fulfilled last)) (called FetchHealth w) [].
Proof.
  intros Hlast. destruct last as [body|reason].
  - apply run_waitForBackendReady_healthy.
  - rewrite (Hlast eq_refl).
    rewrite waitForBackendReady_step.
    rewrite run_Do, call_pending. cbn [fst snd await pcatch].
    rewrite (run_Await_settled _ _ _ _ _ (Rejected reason));
      [ | reflexivity | cbn; now rewrite Nat.eqb_refl ].
    cbn [pcatch]. apply run_Ret.
Qed.

(** [k] failed checks and a last one, run from any world whose timers
    are allocated. *)
Lemma run_checks :
  forall (k retries : nat) (w : World) (reason : string) (last : Settled),
    (k < retries)%nat ->
    (fulfilled last = false -> retries = S k) ->
    timers_allocated w = true ->
    exists w',
      run (waitForBackendReady retries) w (checks k (fresh w) reason last)
      = Done (Returned (fulfilled last)) w' []
      /\ vars w' = vars w
      /\ procs w' = procs w
      /\ out w' = (out w ++ check_effects k (fresh w))%list.
Proof.
  induction k as [|k IH]; intros retries w reason last Hk Hlast Halloc.
  - destruct retries as [|n]; [ lia | ].
    cbn [checks check_effects].
    rewrite run_last_check
      by (intros Hf; specialize (Hlast Hf); lia).
    eexists. split; [ reflexivity | ].
    destruct w as [s ts cs ps fr py o]. repeat split; reflexivity.
  - destruct retries as [|[|n]]; try lia.
    cbn [checks check_effects].
    destruct (run_failed_check n w reason
                (checks k (S (S (fresh w))) reason last) Halloc)
      as (w2 & Hrun & Hvars2 & Hprocs2 & Hfresh2 & Halloc2 & Hout2).
    rewrite Hrun, <- Hfresh2.
    destruct (IH (S n) w2 reason last) as (w' & Hrun' & Hvars' & Hprocs' & Hout');
      [ lia | intros Hf; specialize (Hlast Hf); lia | exact Halloc2 | ].
    exists w'. split; [ exact Hrun' | ].
    split; [ now rewrite Hvars', Hvars2 | ].
    split; [ now rewrite Hprocs', Hprocs2 | ].
    rewrite Hout', Hout2, <- app_assoc. now rewrite Hfresh2.
Qed.

(** X11: the health check never throws and gives up only after the
    last retry: with [retries] checks allowed ([retries = 5] at the
    call), [k] failed checks followed by a check that succeeds return
    [true], for any [k < retries]; [retries] failed checks return
    [false], and no delay follows the last one.  The checks and the
    1000 ms delays between them are all it does: one request for each
    check, one timer after each failure but the last, no module
    variable written. *)
Theorem health_check_retries_then_settles :
  forall (k retries : nat) (w : World) (reason : string) (last : Settled),
    (k < retries)%nat ->
    (fulfilled last = false -> retries = S k) ->
    timers_allocated w = true ->
    exists w',
      run (waitForBackendReady retries) w (checks k (fresh w) reason last)
      = Done (Returned (fulfilled last)) w' []
      /\ vars w' = vars w
      /\ since w w' = check_effects k (fresh w).
Proof.
  intros k retries w reason last Hk Hlast Halloc.
  destruct (run_checks k retries w reason last Hk Hlast Halloc)
    as (w' & Hrun & Hvars & _ & Hout).
  exists w'. repeat split; auto. now apply since_app.
Qed.

(* ---------------------------------------------------------------- *)
(** ** Shutdown                                                       *)
(* ---------------------------------------------------------------- *)

(** The signals among the effects, in the order they were sent. *)
Definition signals (effs : list Effect) : list Effect :=
  filter (fun e => match e with EKill _ _ => true | _ => false end) effs.

Lemma signals_app effs effs' :
  signals (effs ++ effs') = (signals effs ++ signals effs')%list.
Proof. apply filter_app. Qed.

Lemma signals_harmless effs :
  forallb harmless effs = true -> signals effs = [].
Proof.
  induction effs as [|e effs IH]; [ reflexivity | ].
  cbn [forallb]. intros H. apply andb_prop in H. destruct H as [He H].
  unfold signals in *. cbn [filter]. destruct e; try discriminate; auto.
Qed.

Lemma signals_kills_only_none effs :
  kills_only None effs -> signals effs = [].
Proof.
  unfold kills_only, signals.
  induction effs as [|e effs IH]; intros Hkill; [ reflexivity | ].
  cbn [filter].
  destruct e as [| | | |q sig| | | | | | | | |];
    try (apply IH; intros q' sig' Hin; apply (Hkill q' sig'); now right).
  specialize (Hkill q sig (or_introl eq_refl)). discriminate.
Qed.

Lemma stopBackend_running w b :
  backendProcess (vars w) = Some b ->
  let ws := exec stopBackend w in
  stopBackend w = (Pending (WStop b (fresh w)), ws)
  /\ vars ws
     = mkState None (clientProcess (vars w)) (sseRequest (vars w))
         (tray (vars w)) (popupWindow (vars w)) (isShuttingDown (vars w))
         (isPaused (vars w)) (sseReconnectTimer (vars w))
         (sseBackoffDelay (vars w)) (_sessionOpInProgress (vars w))
  /\ procs ws = procs w
  /\ out ws = (out w ++ [ESetTimeout (fresh w) (TForceKill b SIGKILL) 5000;
                         EKill b SIGTERM])%list.
Proof.
  intros Hb ws. subst ws.
  destruct w as [[bp cp rq tr pw sd ip rt bd fl] ts cs ps fr py o].
  cbn [vars backendProcess] in Hb. subst bp.
  cbv [exec stopBackend setTimeout newHandle set_timers
       set_backendProcess modify emit bind get ret snd fst
       vars timers conns procs fresh pythonInstalled out
       backendProcess clientProcess sseRequest tray popupWindow
       isShuttingDown isPaused sseReconnectTimer sseBackoffDelay
       _sessionOpInProgress].
  repeat split. now rewrite <- app_assoc.
Qed.

(** The close handlers of the service process when no capture process
    is running: whatever made the process exit, the renderer is told
    that the backend crashed. *)
Lemma backend_close_idle w b code :
  lookup b (procs w) = Some Backend ->
  clientProcess (vars w) = None ->
  let w' := exec (handle (ProcClose b code)) w in
  vars w'
  = mkState None None None (tray (vars w)) (popupWindow (vars w))
      (isShuttingDown (vars w)) (isPaused (vars w)) None
      SSE_BACKOFF_INITIAL (_sessionOpInProgress (vars w))
  /\ exists effs,
       out w' = (out w ++ effs)%list
       /\ forallb harmless effs = true
       /\ (fst (window_live w) = true ->
           In (ESend "error-message"
                 (PError "Backend crashed"
                    ("Backend process exited with code " ++ show_code code)))
              effs).
Proof.
  intros Hlive Hc w'.
  destruct w as [[bp cp rq tr pw sd ip rt bd fl] ts cs ps f py o].
  cbn in Hlive, Hc. subst cp.
  assert (Hw' : w' = exec (set_procs (remove_key b) ;;
                           on_backend_close code ;;
                           cancel_escalation b)
                      (mkWorld (mkState bp None rq tr pw sd ip rt bd fl)
                         ts cs ps f py o)).
  { subst w'. unfold exec, handle, role_of, bind at 1. cbn [procs].
    now rewrite Hlive. }
  clearbody w'. subst w'.
  cbv [bind ret exec send sendErrorToRenderer window_live stopClient
       disconnectSSE on_backend_close cancel_escalation get modify emit
       clearTimeout
       set_procs set_timers set_backendProcess set_sseBackoffDelay
       set_sseRequest set_sseReconnectTimer
       snd fst vars timers conns procs fresh pythonInstalled out
       backendProcess clientProcess sseRequest tray popupWindow
       isShuttingDown isPaused sseReconnectTimer sseBackoffDelay
       _sessionOpInProgress isDestroyed negb].
  destruct pw as [[[]]|], rq as [req|], rt as [t|];
    cbv beta iota;
    repeat rewrite <- app_assoc;
    (split; [ reflexivity | ]);
    eexists;
    (split; [ first [ reflexivity | symmetry; apply app_nil_r ]
            | split; [ reflexivity | ] ]);
    intros Hw; try discriminate Hw; cbn; auto 10.
Qed.

(** [isShuttingDown = true; removeIpcHandlers(); disconnectSSE()] *)
Definition shutdown_prologue : M unit :=
  set_isShuttingDown true ;; emit ERemoveHandlers ;; disconnectSSE.

Lemma shutdown_prologue_spec w :
  let w1 := exec shutdown_prologue w in
  vars w1
  = mkState (backendProcess (vars w)) (clientProcess (vars w)) None
      (tray (vars w)) (popupWindow (vars w)) true (isPaused (vars w))
      None SSE_BACKOFF_INITIAL (_sessionOpInProgress (vars w))
  /\ procs w1 = procs w
  /\ fst (window_live w1) = fst (window_live w)
  /\ out w1 = (out w ++ ERemoveHandlers
               :: match sseRequest (vars w) with
                  | Some req => [EDestroy req]
                  | None => []
                  end)%list.
Proof.
  destruct w as [[bp cp rq tr pw sd ip rt bd fl] ts cs ps f py o].
  cbv [exec shutdown_prologue disconnectSSE clearTimeout
       set_isShuttingDown set_timers set_sseReconnectTimer set_sseRequest
       set_sseBackoffDelay modify emit bind get ret snd fst window_live
       vars timers conns procs fresh pythonInstalled out
       backendProcess clientProcess sseRequest tray popupWindow
       isShuttingDown isPaused sseReconnectTimer sseBackoffDelay
       _sessionOpInProgress].
  destruct rt, rq; repeat split; now rewrite <- app_assoc.
Qed.

(** [if (tray) { tray.destroy(); tray = null; }] *)
Definition destroy_tray : M unit :=
  t <- get tray ;;
  if (t : bool) then emit EDestroyTray ;; set_tray false else ret tt.

Lemma destroy_tray_spec w :
  let w' := exec destroy_tray w in
  vars w'
  = mkState (backendProcess (vars w)) (clientProcess (vars w))
      (sseRequest (vars w)) false (popupWindow (vars w))
      (isShuttingDown (vars w)) (isPaused (vars w))
      (sseReconnectTimer (vars w)) (sseBackoffDelay (vars w))
      (_sessionOpInProgress (vars w))
  /\ out w' = (out w ++ if tray (vars w) then [EDestroyTray] else [])%list.
Proof.
  destruct w as [[bp cp rq tr pw sd ip rt bd fl] ts cs ps f py o].
  cbv [exec destroy_tray set_tray modify emit bind get ret snd fst
       vars out tray].
  destruct tr; split; try reflexivity. cbn [out]. now rewrite app_nil_r.
Qed.

(** X12: [shutdownApp], with a capture process and the service running
    and each closing on its first signal: the IPC handlers are removed
    and the stream destroyed, the capture process is sent SIGINT and,
    only once it has closed, the service is sent SIGTERM; these are the
    only two signals, and when the service has closed the function
    returns with every handle cleared and the tray destroyed.  The
    close handler of the service cannot tell a shutdown from a crash:
    a live window is sent 'Backend crashed'.  A second call returns at
    once and does nothing. *)
Theorem shutdown_stops_capture_then_service :
  forall (w : World) (b c : Pid) (code code' : option Z),
    isShuttingDown (vars w) = false ->
    backendProcess (vars w) = Some b ->
    clientProcess (vars w) = Some c ->
    lookup b (procs w) = Some Backend ->
    lookup c (procs w) = Some Client ->
    exists w',
      run shutdownApp w [ProcClose c code; ProcClose b code']
      = Done (Returned Void) w' []
      /\ vars w'
         = mkState None None None false (popupWindow (vars w)) true
             (isPaused (vars w)) None SSE_BACKOFF_INITIAL
             (_sessionOpInProgress (vars w))
      /\ signals (since w w') = [EKill c SIGINT; EKill b SIGTERM]
      /\ In ERemoveHandlers (since w w')
      /\ (fst (window_live w) = true ->
          In (ESend "error-message"
                (PError "Backend crashed"
                   ("Backend process exited with code " ++ show_code code')))
             (since w w'))
      /\ forall evs, run shutdownApp w' evs = Done (Returned Void) w' evs.
Proof.
  intros w b c code code' Hdown Hb Hc Hbl Hcl.
  assert (Hne : b <> c) by (intros ->; congruence).
  unfold shutdownApp at 1.
  rewrite run_Do. cbn [get fst snd]. rewrite Hdown.
  rewrite run_Do.
  change (snd ((set_isShuttingDown true ;; emit ERemoveHandlers ;;
                disconnectSSE) w))
    with (exec shutdown_prologue w).
  destruct (shutdown_prologue_spec w) as (Hv1 & Hp1 & Hwin1 & Ho1).
  set (w1 := exec shutdown_prologue w) in *.
  (* the capture process *)
  assert (Hc1 : clientProcess (vars w1) = Some c) by now rewrite Hv1.
  destruct (stopClient_running w1 c Hc1)
    as (ws & Hstop & Hvs & _ & Hps & Hos).
  rewrite run_Do, Hstop. cbn [fst snd await].
  rewrite (run_Await_settled _ _ _ _ _ (Fulfilled VUndefined));
    [ | cbn; now rewrite Hps, Hp1, Hcl | cbn; now rewrite Nat.eqb_refl ].
  assert (Hcl2 : lookup c (procs ws) = Some Client)
    by now rewrite Hps, Hp1.
  destruct (client_close_vars ws c code Hcl2)
    as (Hv2 & Hp2 & effs2 & Ho2 & Hh2).
  set (w2 := exec (handle (ProcClose c code)) ws) in *.
  (* the service *)
  assert (Hb2 : backendProcess (vars w2) = Some b)
    by (rewrite Hv2, Hvs, Hv1; exact Hb).
  destruct (stopBackend_running w2 b Hb2) as (Hstopb & Hvb & Hpb & Hob).
  set (wb := exec stopBackend w2) in *.
  rewrite run_Do, Hstopb. cbn [fst snd await].
  assert (Hbl3 : lookup b (procs wb) = Some Backend).
  { rewrite Hpb, Hp2, lookup_remove_key_other by exact Hne.
    now rewrite Hps, Hp1. }
  rewrite (run_Await_settled _ _ _ _ _ (Fulfilled VUndefined));
    [ | cbn; now rewrite Hbl3 | cbn; now rewrite Nat.eqb_refl ].
  assert (Hcb : clientProcess (vars wb) = None)
    by (rewrite Hvb, Hv2; reflexivity).
  destruct (backend_close_idle wb b code' Hbl3 Hcb)
    as (Hv3 & effs3 & Ho3 & Hh3 & Hcrash).
  set (w3 := exec (handle (ProcClose b code')) wb) in *.
  (* the tray *)
  rewrite run_Do, run_Ret.
  change (snd ((t <- get tray ;;
                if (t : bool) then emit EDestroyTray ;; set_tray false
                else ret tt) w3))
    with (exec destroy_tray w3).
  destruct (destroy_tray_spec w3) as (Hv4 & Ho4).
  set (w4 := exec destroy_tray w3) in *.
  exists w4. split; [ reflexivity | ].
  assert (Hvars : vars w4
                  = mkState None None None false (popupWindow (vars w)) true
                      (isPaused (vars w)) None SSE_BACKOFF_INITIAL
                      (_sessionOpInProgress (vars w))).
  { rewrite Hv4, Hv3, Hvb, Hv2, Hvs, Hv1. reflexivity. }
  assert (Hout : out w4
                 = (out w
                    ++ (ERemoveHandlers
                        :: match sseRequest (vars w) with
                           | Some req => [EDestroy req]
                           | None => []
                           end)
                    ++ [ESetTimeout (fresh w1) (TForceKill c SIGTERM) 10000;
                        EKill c SIGINT]
                    ++ effs2
                    ++ [ESetTimeout (fresh w2) (TForceKill b SIGKILL) 5000;
                        EKill b SIGTERM]
                    ++ effs3
                    ++ if tray (vars w3) then [EDestroyTray] else [])%list).
  { rewrite Ho4, Ho3, Hob, Ho2, Hos, Ho1. now rewrite <- !app_assoc. }
  rewrite (since_app _ _ _ Hout).
  split; [ exact Hvars | ].
  repeat split.
  - rewrite !signals_app, (signals_harmless effs2 Hh2),
      (signals_harmless effs3 Hh3).
    destruct (sseRequest (vars w)), (tray (vars w3)); reflexivity.
  - left. reflexivity.
  - intros Hwin. apply in_or_app. right. apply in_or_app. right.
    apply in_or_app. right. apply in_or_app. right.
    apply in_or_app. left. apply Hcrash.
    assert (Hpw : popupWindow (vars wb) = popupWindow (vars w))
      by (rewrite Hvb, Hv2, Hvs, Hv1; reflexivity).
    unfold window_live, bind, get, ret in *. cbn [fst] in *.
    now rewrite Hpw.
  - intros evs. unfold shutdownApp.
    rewrite run_Do. cbn [get fst snd]. rewrite Hvars. cbn [isShuttingDown].
    apply run_Ret.
Qed.

(* ---------------------------------------------------------------- *)
(** ** Session starts that fail at the service                        *)
(* ---------------------------------------------------------------- *)

(** [`Python not found at ${pythonPath}. Run ./scripts/setup.sh first.`] *)
Definition python_missing : string :=
  "Python not found at " ++ getPythonPath
  ++ ". Run ./scripts/setup.sh first.".

Lemma startBackend_without_python w :
  backendProcess (vars w) = None ->
  pythonInstalled w = false ->
  startBackend w
  = (Already (Rejected python_missing),
     exec (sendErrorToRenderer "Setup required" python_missing) w).
Proof.
  intros Hb Hpy. unfold startBackend, bind, get. rewrite Hb.
  cbn [fst snd]. rewrite Hpy. cbn [negb].
  unfold python_missing, exec, ret.
  destruct (sendErrorToRenderer _ _ w) as [[] w1]. reflexivity.
Qed.

(** X13: without the Python environment ([venv/bin/python] missing
    under the backend directory) and with no capture process around,
    start-session fails as soon as the microphone is granted: it
    returns [{ success: false, error }] with the message that names
    the missing path and the setup script, a live window is sent the
    same message as 'Setup required', and nothing is spawned. *)
Theorem missing_python_fails_start :
  forall (sourceType target : string) (w : World) (mic : Value),
    _sessionOpInProgress (vars w) = false ->
    backendProcess (vars w) = None ->
    clientProcess (vars w) = None ->
    pythonInstalled w = false ->
    truthy mic = true ->
    exists w',
      run (start_session sourceType target) w
        [CallSettled (fresh w) (Fulfilled mic)]
      = Done (Returned (Failure python_missing)) w' []
      /\ fst (get_session_state w')
         = SessionState false false false (isPaused (vars w))
      /\ (forall p r, ~ In (ESpawn p r) (since w w'))
      /\ (fst (window_live w) = true ->
          In (ESend "error-message" (PError "Setup required" python_missing))
             (since w w')).
Proof.
  intros sourceType target w mic Hflag Hb Hc Hpy Hmic.
  set (w1 := called AskMicrophone (entered w)).
  set (w2 := exec (sendErrorToRenderer "Setup required" python_missing) w1).
  set (w3 := exec (setTimeout TSettle (Js.number_of_Z 60000)) w2).
  assert (Hfacts :
            vars w3 = vars (entered w)
            /\ procs w3 = procs w
            /\ out w3
               = (out w
                  ++ ECall (fresh w) AskMicrophone
                  :: (if fst (window_live w)
                      then [ESend "error-message"
                              (PError "Setup required" python_missing)]
                      else [])
                  ++ [ESetTimeout (S (fresh w)) TSettle
                        (Js.number_of_Z 60000)])%list).
  { subst w3 w2 w1.
    destruct w as [[bp cp rq tr pw sd ip rt bd fl] ts cs ps fr py o].
    cbv [exec called call entered setTimeout sendErrorToRenderer send
         window_live newHandle set_timers set_sessionOpInProgress
         modify emit bind get ret snd fst
         vars timers conns procs fresh pythonInstalled out
         backendProcess clientProcess sseRequest tray popupWindow
         isShuttingDown isPaused sseReconnectTimer sseBackoffDelay
         _sessionOpInProgress].
    destruct pw as [[[]]|]; cbn [isDestroyed negb app];
      repeat split; now rewrite <- ?app_assoc. }
  destruct Hfacts as (Hv3 & Hp3 & Ho3).
  assert (Hbody : run (session_body sourceType target) (entered w)
                    [CallSettled (fresh w) (Fulfilled mic)]
                  = Done (Threw python_missing) w3 []).
  { unfold session_body.
    pose proof (run_ensurePermissions (entered w) mic) as Hperm.
    rewrite Hmic in Hperm. change (fresh (entered w)) with (fresh w) in Hperm.
    rewrite <- (app_nil_r [CallSettled (fresh w) (Fulfilled mic)]).
    rewrite (run_pbind _ _ _ _ _ _ [] Hperm). cbn [negb]. fold w1.
    rewrite run_Do, (startBackend_without_python w1)
      by (subst w1; destruct w as [[] ? ? ? ? ? ?]; assumption).
    cbn [fst snd]. fold w2.
    rewrite run_Do, withTimeout_settled. cbn [fst snd await]. fold w3.
    apply run_Throw. }
  assert (Hsettle : settles_stop w3 []).
  { unfold settles_stop. rewrite Hv3, entered_vars. cbn. now rewrite Hc. }
  rewrite <- (app_nil_r [CallSettled (fresh w) (Fulfilled mic)]).
  destruct (run_start_session_failure _ _ _ _ _ _ _ Hflag Hbody Hsettle)
    as (w' & effs & Hrun & Hvars & Hout & Hkill & _ & _ & Hspawn).
  exists w'. split; [ exact Hrun | ].
  assert (Hout' : out w'
                  = (out w
                     ++ (ECall (fresh w) AskMicrophone
                         :: (if fst (window_live w)
                             then [ESend "error-message"
                                     (PError "Setup required" python_missing)]
                             else [])
                         ++ [ESetTimeout (S (fresh w)) TSettle
                               (Js.number_of_Z 60000)])
                     ++ effs)%list).
  { rewrite Hout, Ho3. now rewrite <- !app_assoc. }
  rewrite (since_app _ _ _ Hout').
  repeat split.
  - unfold get_session_state, get, bind, ret. cbn [fst].
    rewrite Hvars, Hv3, entered_vars. cbn. now rewrite Hb.
  - intros p r Hin. apply in_app_or in Hin. destruct Hin as [Hin|Hin].
    + destruct Hin as [Hin|Hin]; [ discriminate | ].
      apply in_app_or in Hin. destruct Hin as [Hin|Hin].
      * destruct (fst (window_live w)); [ | contradiction ].
        destruct Hin as [Hin|[]]. discriminate.
      * destruct Hin as [Hin|[]]. discriminate.
    + eapply Hspawn; eauto.
  - intros Hwin. rewrite Hwin. apply in_or_app. left.
    right. left. reflexivity.
Qed.

Lemma startBackend_spawns w :
  backendProcess (vars w) = None ->
  pythonInstalled w = true ->
  let ws := exec startBackend w in
  startBackend w = (Pending (WBackendStart (fresh w) (S (fresh w))), ws)
  /\ vars ws
     = mkState (Some (fresh w)) (clientProcess (vars w))
         (sseRequest (vars w)) (tray (vars w)) (popupWindow (vars w))
         (isShuttingDown (vars w)) (isPaused (vars w))
         (sseReconnectTimer (vars w)) (sseBackoffDelay (vars w))
         (_sessionOpInProgress (vars w))
  /\ procs ws = (procs w ++ [(fresh w, Backend)])%list
  /\ fresh ws = S (S (fresh w))
  /\ out ws = (out w ++ [ESpawn (fresh w) Backend;
                         ESetTimeout (S (fresh w)) TSettle 60000])%list.
Proof.
  intros Hb Hpy ws. subst ws.
  destruct w as [[bp cp rq tr pw sd ip rt bd fl] ts cs ps fr py o].
  cbn [vars backendProcess pythonInstalled] in Hb, Hpy. subst bp py.
  cbv [exec startBackend spawn setTimeout newHandle set_procs set_timers
       set_backendProcess modify emit bind get ret snd fst negb
       vars timers conns procs fresh pythonInstalled out
       backendProcess clientProcess sseRequest tray popupWindow
       isShuttingDown isPaused sseReconnectTimer sseBackoffDelay
       _sessionOpInProgress].
  repeat split. now repeat rewrite <- app_assoc.
Qed.

(** [`Backend exited with code ${code}`] *)
Definition backend_exited (code : option Z) : string :=
  "Backend exited with code " ++ show_code code.

(** X14: when the service process that start-session has spawned exits
    before it prints its ready line, the call fails with 'Backend
    exited with code <code>' (['null'] for a process killed by a
    signal): it returns [{ success: false, error }] with that message,
    [get-session-state] reports nothing running, and no signal was
    sent on the way. *)
Theorem service_exit_fails_start :
  forall (sourceType target : string) (w : World) (mic : Value)
         (code : option Z),
    _sessionOpInProgress (vars w) = false ->
    backendProcess (vars w) = None ->
    clientProcess (vars w) = None ->
    pythonInstalled w = true ->
    truthy mic = true ->
    handles_allocated w = true ->
    let p := S (fresh w) in
    exists w',
      run (start_session sourceType target) w
        [CallSettled (fresh w) (Fulfilled mic); ProcClose p code]
      = Done (Returned (Failure (backend_exited code))) w' []
      /\ fst (get_session_state w')
         = SessionState false false false (isPaused (vars w))
      /\ In (ESpawn p Backend) (since w w')
      /\ signals (since w w') = [].
Proof.
  intros sourceType target w mic code Hflag Hb Hc Hpy Hmic Halloc p.
  set (w1 := called AskMicrophone (entered w)).
  assert (Hw1 : vars w1 = vars (entered w) /\ procs w1 = procs w
                /\ fresh w1 = p /\ pythonInstalled w1 = true
                /\ out w1 = (out w ++ [ECall (fresh w) AskMicrophone])%list).
  { subst w1 p. destruct w as [[] ts cs ps fr py o].
    cbn in Hpy. subst py. repeat split. }
  destruct Hw1 as (Hv1 & Hp1 & Hf1 & Hpy1 & Ho1).
  assert (Hb1 : backendProcess (vars w1) = None)
    by (rewrite Hv1, entered_vars; exact Hb).
  destruct (startBackend_spawns w1 Hb1 Hpy1)
    as (Hstart & Hv2 & Hp2 & Hf2 & Ho2).
  set (w2 := exec startBackend w1) in *.
  set (w3 := exec (setTimeout TSettle (Js.number_of_Z 60000)) w2).
  assert (Hw3 : vars w3 = vars w2 /\ procs w3 = procs w2
                /\ out w3 = (out w2 ++ [ESetTimeout (fresh w2) TSettle
                                          (Js.number_of_Z 60000)])%list)
    by (subst w3; destruct w2 as [s ts cs ps fr py o]; repeat split).
  destruct Hw3 as (Hv3 & Hp3 & Ho3).
  assert (Hlive : lookup p (procs w3) = Some Backend).
  { rewrite Hp3, Hp2, Hf1. apply lookup_snoc_fresh.
    rewrite Hp1. unfold handles_allocated in Halloc.
    apply andb_prop in Halloc.
    apply (lookup_above _ (fresh w)); [ apply Halloc | subst p; lia ]. }
  assert (Hc3 : clientProcess (vars w3) = None)
    by (rewrite Hv3, Hv2, Hv1, entered_vars; exact Hc).
  destruct (backend_close_idle w3 p code Hlive Hc3)
    as (Hv4 & effs4 & Ho4 & Hh4 & _).
  set (w4 := exec (handle (ProcClose p code)) w3) in *.
  assert (Hbody : run (session_body sourceType target) (entered w)
                    ([CallSettled (fresh w) (Fulfilled mic)]
                     ++ [ProcClose p code])
                  = Done (Threw (backend_exited code)) w4 []).
  { unfold session_body.
    pose proof (run_ensurePermissions (entered w) mic) as Hperm.
    rewrite Hmic in Hperm. change (fresh (entered w)) with (fresh w) in Hperm.
    rewrite (run_pbind _ _ _ _ _ _ _ Hperm). cbn [negb]. fold w1.
    rewrite run_Do, Hstart. cbn [fst snd].
    rewrite run_Do, withTimeout_pending. cbn [fst snd await]. fold w3.
    rewrite (run_Await_settled _ _ _ _ _ (Rejected (backend_exited code))).
    - apply run_Throw.
    - cbn [enabled]. now rewrite Hlive.
    - cbn [wake]. rewrite Hf1, Nat.eqb_refl. reflexivity. }
  assert (Hsettle : settles_stop w4 []).
  { unfold settles_stop. now rewrite Hv4. }
  change [CallSettled (fresh w) (Fulfilled mic); ProcClose p code]
    with (([CallSettled (fresh w) (Fulfilled mic)] ++ [ProcClose p code])
          ++ [])%list.
  destruct (run_start_session_failure _ _ _ _ _ _ _ Hflag Hbody Hsettle)
    as (w' & effs & Hrun & Hvars & Hout & Hkill & _ & _ & Hspawn).
  exists w'. split; [ exact Hrun | ].
  assert (Hout' : out w'
                  = (out w
                     ++ [ECall (fresh w) AskMicrophone]
                     ++ [ESpawn (fresh w1) Backend;
                         ESetTimeout (S (fresh w1)) TSettle 60000]
                     ++ [ESetTimeout (fresh w2) TSettle
                           (Js.number_of_Z 60000)]
                     ++ effs4 ++ effs)%list).
  { rewrite Hout, Ho4, Ho3, Ho2, Ho1. now rewrite <- !app_assoc. }
  rewrite (since_app _ _ _ Hout').
  repeat split.
  - unfold get_session_state, get, bind, ret. cbn [fst].
    rewrite Hvars, Hv4, Hv3, Hv2, Hv1, entered_vars. reflexivity.
  - rewrite Hf1. right. left. reflexivity.
  - rewrite !signals_app, (signals_harmless effs4 Hh4).
    cbn [signals filter app].
    apply signals_kills_only_none. now rewrite Hv4 in Hkill.
Qed.

(* ---------------------------------------------------------------- *)
(** ** Handles and escalation timers refer to running processes       *)
(* ---------------------------------------------------------------- *)

(** Every pending escalation targets a process that has not closed;
    the two process variables hold processes that have not closed, of
    the right kind; and every process has a handle that was
    allocated. *)
Definition tidy (w : World) : Prop :=
  (forall t p sig, In (t, TForceKill p sig) (timers w) ->
                   lookup p (procs w) <> None)
  /\ (forall c, clientProcess (vars w) = Some c ->
                lookup c (procs w) = Some Client)
  /\ (forall b, backendProcess (vars w) = Some b ->
                lookup b (procs w) = Some Backend)
  /\ forallb (fun e : Pid * Role => Nat.ltb (fst e) (fresh w)) (procs w)
     = true.

Lemma lookup_app_l {A} k (l l' : list (nat * A)) a :
  lookup k l = Some a -> lookup k (l ++ l') = Some a.
Proof.
  induction l as [|[k0 a0] l IH]; cbn; [ discriminate | ].
  destruct (Nat.eqb k0 k); auto.
Qed.

Lemma lookup_app_live {A} k (l l' : list (nat * A)) :
  lookup k l <> None -> lookup k (l ++ l') <> None.
Proof.
  destruct (lookup k l) as [a|] eqn:E; [ | contradiction ].
  intros _. now rewrite (lookup_app_l _ _ l' _ E).
Qed.

Lemma allocated_mono {A} (l : list (nat * A)) n m :
  forallb (fun e => Nat.ltb (fst e) n) l = true ->
  (n <= m)%nat ->
  forallb (fun e => Nat.ltb (fst e) m) l = true.
Proof.
  intros H Hle. rewrite forallb_forall in *. intros [k a] Hin.
  apply H in Hin. cbn [fst] in *. apply Nat.ltb_lt in Hin.
  apply Nat.ltb_lt. lia.
Qed.

Lemma lookup_In {A} k (l : list (nat * A)) a :
  lookup k l = Some a -> In (k, a) l.
Proof.
  induction l as [|[k0 a0] l IH]; cbn; [ discriminate | ].
  destruct (Nat.eqb k0 k) eqn:E.
  - intros H. inversion H; subst. apply Nat.eqb_eq in E. subst. now left.
  - intros H. right. auto.
Qed.

(** Assignments and effects that touch neither a process variable nor
    the processes, and arm no escalation. *)
Ltac tidy_prim :=
  let w := fresh "w" in
  let Ha := fresh "Ha" in
  let Hb := fresh "Hb" in
  let Hc := fresh "Hc" in
  let Hd := fresh "Hd" in
  intros w (Ha & Hb & Hc & Hd); destruct w as [[] ? ? ? ? ? ?];
  cbv [tidy set_backendProcess set_clientProcess set_sseRequest set_tray
       set_popupWindow set_isShuttingDown set_isPaused
       set_sseReconnectTimer set_sseBackoffDelay set_sessionOpInProgress
       modify emit newHandle set_timers set_conns
       setTimeout clearTimeout bind ret snd fst
       vars timers conns procs fresh pythonInstalled out
       backendProcess clientProcess sseRequest tray popupWindow
       isShuttingDown isPaused sseReconnectTimer sseBackoffDelay
       _sessionOpInProgress] in *;
  repeat match goal with |- _ /\ _ => split end;
  first
    [ assumption
    | discriminate
    | intros ? H0; discriminate H0
    | apply (allocated_mono _ _ _ Hd); lia
    | (* a timer was removed *)
      let t := fresh "t" in let p := fresh "p" in let sig := fresh "sig" in
      let Hin := fresh "Hin" in
      intros t p sig Hin; apply filter_In in Hin; destruct Hin as [Hin _];
      eapply Ha; exact Hin
    | (* a timer that is no escalation was added *)
      let t := fresh "t" in let p := fresh "p" in let sig := fresh "sig" in
      let Hin := fresh "Hin" in
      intros t p sig Hin; apply in_app_or in Hin;
      destruct Hin as [Hin|[Hin|[]]];
      [ eapply Ha; exact Hin | discriminate Hin ] ].

Ltac tidy_pres := pres_with tidy_prim.

Lemma tidy_stopClient : Preserves tidy stopClient.
Proof.
  intros w (Ha & Hb & Hc & Hd).
  destruct w as [[bp cp rq tr pw sd ip rt bd fl] ts cs ps fr py o].
  cbn [vars timers procs fresh clientProcess backendProcess] in *.
  destruct cp as [c|]; [ | repeat split; assumption ].
  cbv [stopClient setTimeout newHandle set_timers set_clientProcess
       modify emit bind get ret snd fst tidy
       vars timers conns procs fresh pythonInstalled out
       backendProcess clientProcess sseRequest tray popupWindow
       isShuttingDown isPaused sseReconnectTimer sseBackoffDelay
       _sessionOpInProgress].
  repeat split.
  - intros t p sig Hin. apply in_app_or in Hin.
    destruct Hin as [Hin|[Hin|[]]]; [ eapply Ha; exact Hin | ].
    inversion Hin; subst. rewrite (Hb p eq_refl). discriminate.
  - discriminate.
  - exact Hc.
  - apply (allocated_mono _ _ _ Hd). lia.
Qed.
Hint Resolve tidy_stopClient : pres.

Lemma tidy_stopBackend : Preserves tidy stopBackend.
Proof.
  intros w (Ha & Hb & Hc & Hd).
  destruct w as [[bp cp rq tr pw sd ip rt bd fl] ts cs ps fr py o].
  cbn [vars timers procs fresh clientProcess backendProcess] in *.
  destruct bp as [b|]; [ | repeat split; assumption ].
  cbv [stopBackend setTimeout newHandle set_timers set_backendProcess
       modify emit bind get ret snd fst tidy
       vars timers conns procs fresh pythonInstalled out
       backendProcess clientProcess sseRequest tray popupWindow
       isShuttingDown isPaused sseReconnectTimer sseBackoffDelay
       _sessionOpInProgress].
  repeat split.
  - intros t p sig Hin. apply in_app_or in Hin.
    destruct Hin as [Hin|[Hin|[]]]; [ eapply Ha; exact Hin | ].
    inversion Hin; subst. rewrite (Hc p eq_refl). discriminate.
  - exact Hb.
  - discriminate.
  - apply (allocated_mono _ _ _ Hd). lia.
Qed.
Hint Resolve tidy_stopBackend : pres.

(** A process is spawned under a new handle and its variable set. *)
Lemma tidy_spawned (w : World) (r : Role) :
  tidy w ->
  let s := vars w in
  tidy (mkWorld
          (match r with
           | Backend =>
               mkState (Some (fresh w)) (clientProcess s) (sseRequest s)
                 (tray s) (popupWindow s) (isShuttingDown s) (isPaused s)
                 (sseReconnectTimer s) (sseBackoffDelay s)
                 (_sessionOpInProgress s)
           | Client =>
               mkState (backendProcess s) (Some (fresh w)) (sseRequest s)
                 (tray s) (popupWindow s) (isShuttingDown s) (isPaused s)
                 (sseReconnectTimer s) (sseBackoffDelay s)
                 (_sessionOpInProgress s)
           end)
          (timers w) (conns w) (procs w ++ [(fresh w, r)])
          (S (fresh w)) (pythonInstalled w) (out w)).
Proof.
  intros (Ha & Hb & Hc & Hd) s. subst s.
  assert (Hnew : lookup (fresh w) (procs w ++ [(fresh w, r)]) = Some r).
  { apply lookup_snoc_fresh. apply (lookup_above _ (fresh w)); auto. }
  unfold tidy. cbn [vars timers procs fresh].
  repeat split.
  - intros t p sig Hin. apply lookup_app_live. eapply Ha; eauto.
  - destruct r; cbn [clientProcess]; intros c Hcp.
    + apply lookup_app_l. auto.
    + inversion Hcp; subst. exact Hnew.
  - destruct r; cbn [backendProcess]; intros b Hbp.
    + inversion Hbp; subst. exact Hnew.
    + apply lookup_app_l. auto.
  - rewrite forallb_app. apply andb_true_intro. split.
    + apply (allocated_mono _ _ _ Hd). lia.
    + cbn [forallb fst]. rewrite andb_true_r. apply Nat.ltb_lt. lia.
Qed.

(** Arming a timer that is no escalation, whatever else is written
    that [tidy] does not read. *)
Lemma tidy_settle_timer s ts cs ps fr py o t cs' o' :
  tidy (mkWorld s ts cs ps fr py o) ->
  tidy (mkWorld s (ts ++ [(t, TSettle)]) cs' ps (S fr) py o').
Proof.
  intros (Ha & Hb & Hc & Hd). unfold tidy in *.
  cbn [vars timers procs fresh] in *. repeat split; auto.
  - intros t' p sig Hin. apply in_app_or in Hin.
    destruct Hin as [Hin|[Hin|[]]]; [ eauto | discriminate Hin ].
  - apply (allocated_mono _ _ _ Hd). lia.
Qed.

Lemma tidy_startClient sourceType target :
  Preserves tidy (startClient sourceType target).
Proof.
  intros w Hw. unfold startClient, bind at 1, get.
  destruct (clientProcess (vars w)); [ exact Hw | ].
  destruct (choiceMap sourceType) as [choice|]; [ | exact Hw ].
  pose proof (tidy_spawned w Client Hw) as Hs. cbv zeta in Hs.
  destruct w as [[bp cp rq tr pw sd ip rt bd fl] ts cs ps fr py o].
  cbv [spawn setTimeout newHandle set_procs set_timers set_clientProcess
       modify emit bind ret
       snd fst vars timers conns procs fresh pythonInstalled out
       backendProcess clientProcess sseRequest tray popupWindow
       isShuttingDown isPaused sseReconnectTimer sseBackoffDelay
       _sessionOpInProgress] in *.
  eapply tidy_settle_timer. exact Hs.
Qed.
Hint Resolve tidy_startClient : pres.

Lemma tidy_startBackend : Preserves tidy startBackend.
Proof.
  intros w Hw. unfold startBackend, bind at 1, get.
  destruct (backendProcess (vars w)); [ exact Hw | ].
  unfold bind at 1. cbn [fst snd].
  destruct (pythonInstalled w) eqn:Hpy; cbn [negb].
  - pose proof (tidy_spawned w Backend Hw) as Hs. cbv zeta in Hs.
    destruct w as [[bp cp rq tr pw sd ip rt bd fl] ts cs ps fr py o].
    cbv [spawn setTimeout newHandle set_procs set_timers
         set_backendProcess modify emit bind ret
         snd fst vars timers conns procs fresh pythonInstalled out
         backendProcess clientProcess sseRequest tray popupWindow
         isShuttingDown isPaused sseReconnectTimer sseBackoffDelay
         _sessionOpInProgress] in *.
    eapply tidy_settle_timer. exact Hs.
  - revert w Hw Hpy. intros w Hw _.
    assert (Hp : Preserves tidy
                   (sendErrorToRenderer "Setup required"
                      ("Python not found at " ++ getPythonPath
                       ++ ". Run ./scripts/setup.sh first.")))
      by tidy_pres.
    specialize (Hp w Hw). unfold bind.
    destruct (sendErrorToRenderer _ _ w) as [[] w1]. exact Hp.
Qed.
Hint Resolve tidy_startBackend : pres.

(** The close handlers of a process. *)
Lemma tidy_close p code : Preserves tidy (handle (ProcClose p code)).
Proof.
  intros w (Ha & Hb & Hc & Hd).
  unfold handle, role_of, bind at 1. cbn [fst snd].
  destruct (lookup p (procs w)) as [r|] eqn:Hrole;
    [ | repeat split; assumption ].
  assert (Hgone : lookup p (remove_key p (procs w)) = None).
  { clear. induction (procs w) as [|[k a] l IH]; [ reflexivity | ].
    unfold remove_key in *. cbn [filter fst].
    destruct (Nat.eqb k p) eqn:E; cbn [negb]; [ exact IH | ].
    cbn [lookup]. now rewrite E. }
  assert (Hkeep : forall q, q <> p ->
                    lookup q (remove_key p (procs w)) = lookup q (procs w))
    by (intros q Hq; now apply lookup_remove_key_other).
  assert (Halloc : forallb (fun e : Pid * Role => Nat.ltb (fst e) (fresh w))
                     (remove_key p (procs w)) = true).
  { rewrite forallb_forall in *. intros e He.
    apply filter_In in He. apply Hd, He. }
  destruct w as [[bp cp rq tr pw sd ip rt bd fl] ts cs ps fr py o].
  cbn [vars timers procs fresh clientProcess backendProcess] in *.
  destruct r.
  - (* the service *)
    assert (Hcp : forall c, cp = Some c -> c <> p)
      by (intros c Hcp ->; rewrite (Hb p Hcp) in Hrole; discriminate).
    cbv [bind ret send sendErrorToRenderer window_live stopClient
         disconnectSSE on_backend_close cancel_escalation get modify emit
         clearTimeout setTimeout newHandle
         set_procs set_timers set_backendProcess set_clientProcess
         set_sseBackoffDelay set_sseRequest set_sseReconnectTimer
         snd fst vars timers conns procs fresh pythonInstalled out
         backendProcess clientProcess sseRequest tray popupWindow
         isShuttingDown isPaused sseReconnectTimer sseBackoffDelay
         _sessionOpInProgress isDestroyed negb tidy].
    destruct pw as [[[]]|], cp as [c|], rt as [t0|], rq as [req|];
      cbv beta iota;
      (repeat split;
       [ intros t q sig Hin;
         apply filter_In in Hin; destruct Hin as [Hin Hq];
         cbn [snd] in Hq; apply negb_true_iff, Nat.eqb_neq in Hq;
         rewrite Hkeep by exact Hq;
         repeat (first [ apply filter_In in Hin; destruct Hin as [Hin _]
                       | apply in_app_or in Hin;
                         destruct Hin as [Hin|[Hin|[]]] ]);
         first [ eapply Ha; exact Hin
               | inversion Hin; subst;
                 rewrite (Hb _ eq_refl); discriminate ]
       | intros c0 H0; discriminate H0
       | intros b0 H0; discriminate H0
       | first [ exact Halloc
               | apply (allocated_mono _ _ _ Halloc); lia ] ]).
  - (* a capture process *)
    assert (Hbp : forall b, bp = Some b -> b <> p)
      by (intros b Hbp ->; rewrite (Hc p Hbp) in Hrole; discriminate).
    cbv [bind ret send sendErrorToRenderer window_live setTrayActive
         disconnectSSE on_client_close cancel_escalation get modify emit
         clearTimeout
         set_procs set_timers set_clientProcess
         set_sseBackoffDelay set_sseRequest set_sseReconnectTimer
         snd fst vars timers conns procs fresh pythonInstalled out
         backendProcess clientProcess sseRequest tray popupWindow
         isShuttingDown isPaused sseReconnectTimer sseBackoffDelay
         _sessionOpInProgress isDestroyed negb tidy].
    destruct tr, pw as [[[]]|], rt as [t0|], rq as [req|], code as [z|];
      try destruct (z =? 0);
      cbv beta iota;
      (repeat split;
       [ intros t q sig Hin;
         apply filter_In in Hin; destruct Hin as [Hin Hq];
         cbn [snd] in Hq; apply negb_true_iff, Nat.eqb_neq in Hq;
         rewrite Hkeep by exact Hq;
         repeat (apply filter_In in Hin; destruct Hin as [Hin _]);
         eapply Ha; exact Hin
       | intros c0 H0; discriminate H0
       | intros b0 H0; rewrite Hkeep by (apply Hbp; exact H0);
         apply Hc; exact H0
       | exact Halloc ]).
Qed.

Lemma tidy_on_messages msgs :
  forall cur, Preserves tidy (on_messages cur msgs).
Proof.
  induction msgs as [|msg msgs IH]; intros cur; simpl.
  - apply pres_ret.
  - apply pres_bind; [ | intros a; apply IH ]. tidy_pres.
Qed.
Hint Resolve tidy_on_messages : pres.

Lemma tidy_handle e : Preserves tidy (handle e).
Proof.
  destruct e; try apply tidy_close; tidy_pres.
Qed.

Ltac tidy_safe := repeat safe_step_with tidy_prim; eauto with pres.

Lemma tidy_waitForBackendReady n :
  Safe tidy (fun _ => True) (waitForBackendReady n).
Proof.
  induction n as [|n IH]; simpl; tidy_safe.
  all: destruct n; tidy_safe.
Qed.

Lemma tidy_program h : Safe tidy (fun _ => True) (program h).
Proof.
  destruct h; simpl.
  - unfold start_session, session_body, ensurePermissions, rollback, release.
    tidy_safe.
    all: try apply tidy_waitForBackendReady.
    all: tidy_safe.
  - unfold stop_session, stop_body, release. tidy_safe.
  - tidy_safe.
  - tidy_safe.
  - tidy_safe.
  - unfold shutdownApp. tidy_safe.
Qed.

(** X15: however the application is driven from its start, in every
    state between two turns of the event loop each pending escalation
    timer (the SIGTERM armed 10 s after a capture stop, the SIGKILL
    armed 5 s after a service stop) targets a process whose close has
    not been handled yet, so a forced signal is never sent to a
    process that is known to have exited; and [clientProcess] and
    [backendProcess], when set, hold a capture process and a service
    process that have not closed. *)
Theorem escalation_targets_are_running :
  forall (python : bool) (inputs : list Input),
    let w := world (steps (idle (exec app_ready (boot python))) inputs) in
    (forall t p sig,
        lookup t (timers w) = Some (TForceKill p sig) ->
        lookup p (procs w) <> None)
    /\ (forall c, clientProcess (vars w) = Some c ->
                  lookup c (procs w) = Some Client)
    /\ (forall b, backendProcess (vars w) = Some b ->
                  lookup b (procs w) = Some Backend).
Proof.
  intros python inputs w.
  assert (Hw : tidy w).
  { apply (loop_safe_steps tidy tidy_handle tidy_program).
    split; [ | constructor ].
    repeat split; try discriminate. intros t p sig []. }
  destruct Hw as (Ha & Hb & Hc & _).
  repeat split; auto.
  intros t p sig Hl. apply (Ha t p sig). now apply lookup_In.
Qed.

(* ---------------------------------------------------------------- *)
(** ** Numerals and white space                                       *)
(* ---------------------------------------------------------------- *)

(** *** Decimal numerals *)

Lemma digits_step c s acc d :
  Js.digit_of c = Some d ->
  Js.digits (String c s) acc
  = Js.digits s (Some (10 * match acc with Some a => a | None => 0 end + d)).
Proof. intros H. cbn [Js.digits]. now rewrite H. Qed.

(** Reading the digits of a numeral continues the number read so
    far. *)
Lemma digits_numeral_from u :
  forall a : positive,
    Js.digits (NilEmpty.string_of_uint u) (Some (Zpos a))
    = Some (Zpos (Pos.of_uint_acc u a)).
Proof.
  induction u; intros a; cbn [NilEmpty.string_of_uint Pos.of_uint_acc];
    [ reflexivity | .. ];
    erewrite digits_step by reflexivity;
    match goal with
    | |- context [(10 * _ + ?d)%Z] =>
        let d' := eval vm_compute in d in change d with d'
    end;
    rewrite <- IHu; do 2 f_equal; lia.
Qed.

Lemma digits_numeral_from_zero u :
  Js.digits (NilEmpty.string_of_uint u) (Some 0)
  = Some (Z.of_N (Pos.of_uint u)).
Proof.
  induction u; cbn [NilEmpty.string_of_uint Pos.of_uint];
    [ reflexivity | .. ];
    erewrite digits_step by reflexivity;
    match goal with
    | |- context [(10 * 0 + ?d)%Z] =>
        let d' := eval vm_compute in (10 * 0 + d)%Z in
        change (10 * 0 + d)%Z with d'
    end;
    first [ exact IHu | apply digits_numeral_from ].
Qed.

Lemma digits_numeral u :
  u <> Decimal.Nil ->
  Js.digits (NilEmpty.string_of_uint u) None
  = Some (Z.of_N (Pos.of_uint u)).
Proof.
  destruct u; intros Hu; [ contradiction | .. ];
    cbn [NilEmpty.string_of_uint Pos.of_uint];
    erewrite digits_step by reflexivity;
    match goal with
    | |- context [(10 * 0 + ?d)%Z] =>
        let d' := eval vm_compute in (10 * 0 + d)%Z in
        change (10 * 0 + d)%Z with d'
    end;
    first [ apply digits_numeral_from_zero | apply digits_numeral_from ].
Qed.

(** [parseInt] of a text that begins with a digit reads its digits. *)
Lemma parseInt_numeral u :
  u <> Decimal.Nil ->
  Js.parseInt (NilEmpty.string_of_uint u)
  = Js.Int (Z.of_N (Pos.of_uint u))
  /\ Js.parseInt (String "-" (NilEmpty.string_of_uint u))
     = Js.Int (- Z.of_N (Pos.of_uint u)).
Proof.
  intros Hu. pose proof (digits_numeral u Hu) as Hd.
  destruct u; [ contradiction | .. ];
    cbn [NilEmpty.string_of_uint] in *;
    split; unfold Js.parseInt;
    (cbv [Js.trimStart Js.is_space nat_of_ascii Nat.leb Nat.eqb
          andb orb N_of_ascii N_of_digits N.add N.mul N.to_nat
          Pos.to_nat Pos.iter_op Nat.add Init.Nat.add Pos.add Pos.succ
          Pos.mul];
     cbv beta iota; fold Js.trimStart; now rewrite Hd).
Qed.

(** [parseInt(String(z), 10)] is [z]. *)
Lemma parseInt_String_of_int z : Js.parseInt (Js.String_of_int z) = Js.Int z.
Proof.
  unfold Js.String_of_int. destruct z as [|p|p]; [ reflexivity | | ];
    cbn [Z.to_int NilZero.string_of_int];
    pose proof (Unsigned.to_uint_nonnil p) as Hn;
    destruct (parseInt_numeral (Pos.to_uint p) Hn) as [Hpos Hneg];
    rewrite Unsigned.of_to in Hpos, Hneg;
    unfold NilZero.string_of_uint;
    destruct (Pos.to_uint p) eqn:E; try contradiction; rewrite <- ?E in *;
    assumption.
Qed.

Lemma numeral_no_newline u : no_newline (NilEmpty.string_of_uint u) = true.
Proof. induction u; cbn [NilEmpty.string_of_uint]; auto. Qed.

Lemma String_of_int_no_newline z : no_newline (Js.String_of_int z) = true.
Proof.
  unfold Js.String_of_int.
  destruct z as [|p|p]; [ reflexivity | | ];
    cbn [Z.to_int NilZero.string_of_int]; unfold NilZero.string_of_uint;
    destruct (Pos.to_uint p) eqn:E; try reflexivity;
    rewrite <- E; try apply numeral_no_newline;
    cbn [no_newline]; apply numeral_no_newline.
Qed.

(** X16: an event whose [id: ] line is the decimal numeral of an
    integer [n] other than zero (below 2^53, where a JavaScript number
    is exact), and whose payload parses, moves the cursor to [n] as it
    is relayed; with the id zero the cursor stays where it was (the id
    is tested for truth, not for presence). *)
Theorem relayed_event_moves_cursor_to_its_id :
  forall (n cur : Z) (good : string) (parsed : Js.json) (w : World),
    Z.abs n < 2 ^ 53 ->
    no_newline good = true ->
    good <> "" ->
    JSON_parse good = Some parsed ->
    isPaused (vars w) = false ->
    on_message cur (event_block (Some (Js.String_of_int n)) good) w
    = (if n =? 0 then cur else n,
       exec (send "fact-check-alert" (PAlert parsed)) w).
Proof.
  intros n cur good parsed w _ Hgood Hne Hparse Hpaused.
  rewrite (on_message_well_formed cur (Some (Js.String_of_int n)) good parsed)
    by (try assumption; cbn [one_line_fields];
        now rewrite String_of_int_no_newline).
  cbn [cursor_after]. rewrite parseInt_String_of_int.
  unfold next_cursor, Js.truthy_number.
  destruct (n =? 0); reflexivity.
Qed.

(* ---------------------------------------------------------------- *)
(** ** Errors written by the capture process                          *)
(* ---------------------------------------------------------------- *)

Lemma prefix_app_l sub : forall a b,
  String.prefix sub a = true -> String.prefix sub (a ++ b) = true.
Proof.
  induction sub as [|c sub IH]; intros a b H; [ apply prefix_empty | ].
  destruct a as [|c' a]; [ discriminate | ].
  cbn [String.prefix append] in *.
  destruct (ascii_dec c c'); [ now apply IH | discriminate ].
Qed.

Lemma includes_app_l sub : forall a b,
  Js.includes sub a = true -> Js.includes sub (a ++ b) = true.
Proof.
  induction a as [|c a IH]; intros b H.
  - cbn [Js.includes] in H.
    destruct (String.prefix sub "") eqn:E; [ | discriminate ].
    destruct sub; [ | discriminate ].
    destruct ("" ++ b); cbn [Js.includes]; now rewrite prefix_empty.
  - cbn [Js.includes append] in *.
    destruct (String.prefix sub (String c a)) eqn:E.
    + pose proof (prefix_app_l sub (String c a) b E) as E'.
      cbn [append] in E'. now rewrite E'.
    + destruct (String.prefix sub (String c (a ++ b))); [ reflexivity | ].
      now apply IH.
Qed.

Lemma includes_app_r sub : forall a b,
  Js.includes sub b = true -> Js.includes sub (a ++ b) = true.
Proof.
  induction a as [|c a IH]; intros b H; [ exact H | ].
  cbn [Js.includes append].
  destruct (String.prefix sub (String c (a ++ b))); [ reflexivity | ].
  now apply IH.
Qed.

(** A text includes what one of its lines includes. *)
Lemma includes_line sub before line after :
  Js.includes sub line = true ->
  Js.includes sub (String.concat Js.nl (before ++ line :: after)) = true.
Proof.
  intros H. induction before as [|b before IH].
  - destruct after as [|a after]; [ exact H | ].
    cbn [app String.concat]. now apply includes_app_l.
  - cbn [app]. destruct (before ++ line :: after)%list as [|x xs] eqn:E.
    + now destruct before.
    + cbn [String.concat]. apply includes_app_r, includes_app_r. exact IH.
Qed.

Lemma find_first_line {A} (f : A -> bool) before line after :
  forallb (fun l => negb (f l)) before = true ->
  f line = true ->
  find f (before ++ line :: after) = Some line.
Proof.
  intros Hb Hl. induction before as [|b before IH].
  - cbn [app find]. now rewrite Hl.
  - cbn [forallb] in Hb. apply andb_prop in Hb. destruct Hb as [Hn Hb].
    cbn [app find]. destruct (f b); [ discriminate | now apply IH ].
Qed.

Lemma trimStart_idempotent s : Js.trimStart (Js.trimStart s) = Js.trimStart s.
Proof.
  induction s as [|c s IH]; [ reflexivity | ].
  cbn [Js.trimStart]. destruct (Js.is_space c) eqn:E; [ exact IH | ].
  cbn [Js.trimStart]. now rewrite E.
Qed.

Lemma tagged_prefix msg : String.prefix "[ERROR]" ("[ERROR]" ++ msg) = true.
Proof. cbn. apply prefix_empty. Qed.

Lemma tagged_line msg : Js.includes "[ERROR]" ("[ERROR]" ++ msg) = true.
Proof.
  pose proof (tagged_prefix msg) as H. cbn [append] in *.
  cbn [Js.includes]. now rewrite H.
Qed.

(** The first line of a chunk that carries the tag, and what is
    reported of it. *)
Lemma error_line_first before msg after :
  forallb no_newline (before ++ msg :: after) = true ->
  forallb (fun l => negb (Js.includes "[ERROR]" l)) before = true ->
  error_detail
    (error_line (String.concat Js.nl (before ++ ("[ERROR]" ++ msg) :: after)))
  = Js.trim msg.
Proof.
  intros Hnl Hb.
  assert (Hall : forallb no_newline (before ++ ("[ERROR]" ++ msg) :: after)
                 = true).
  { rewrite forallb_app in *. apply andb_prop in Hnl. destruct Hnl as [H1 H2].
    rewrite H1. cbn [forallb andb] in *. exact H2. }
  unfold error_line.
  destruct (before ++ ("[ERROR]" ++ msg)%string :: after)%list
    as [|x xs] eqn:E;
    [ now destruct before | ].
  rewrite split_lines_join by exact Hall. rewrite <- E.
  rewrite (find_first_line _ before ("[ERROR]" ++ msg) after Hb)
    by apply tagged_line.
  unfold error_detail, Js.trim, Js.startsWith.
  rewrite tagged_prefix. cbn [Js.slice append].
  now rewrite trimStart_idempotent.
Qed.

(** What the renderer is told after an error that mentions a
    permission or the capture. *)
Definition screen_recording_hint : list Effect :=
  [ ESend "error-message"
      (PError "Screen Recording may be required"
         "Grant Screen Recording in System Settings > Privacy & Security > Screen & System Audio Recording, then restart the app.");
    EOpenExternal
      "x-apple.systempreferences:com.apple.preference.security?Privacy_ScreenCapture" ].

(** X17: of a chunk the capture process writes, the first line that
    carries [[ERROR]] is the one reported: when that line begins with
    the tag, a live window is sent 'Capture error' with the rest of the
    line, trimmed, and, if that mentions a permission or the capture in
    any letter case, the Screen Recording hint and the settings pane;
    the other lines of the chunk, later error lines among them, are not
    reported. *)
Theorem first_error_line_is_reported :
  forall (before after : list string) (msg : string) (w : World),
    forallb no_newline (before ++ msg :: after) = true ->
    forallb (fun l => negb (Js.includes "[ERROR]" l)) before = true ->
    fst (window_live w) = true ->
    since w
      (exec (on_client_stdout
               (String.concat Js.nl (before ++ ("[ERROR]" ++ msg) :: after)))
         w)
    = ESend "error-message" (PError "Capture error" (Js.trim msg))
      :: (if (Js.includes "permission" (Js.toLowerCase (Js.trim msg))
              || Js.includes "capture" (Js.toLowerCase (Js.trim msg)))%bool
          then screen_recording_hint else []).
Proof.
  intros before after msg w Hnl Hb Hlive.
  unfold on_client_stdout.
  rewrite (includes_line "[ERROR]" before ("[ERROR]" ++ msg) after)
    by apply tagged_line.
  rewrite (error_line_first before msg after Hnl Hb).
  destruct w as [[bp cp rq tr pw sd ip rt bd fl] ts cs ps fr py o].
  unfold window_live, bind, get, ret in Hlive. cbn [fst vars popupWindow] in Hlive.
  destruct (Js.includes "permission" (Js.toLowerCase (Js.trim msg))
            || Js.includes "capture" (Js.toLowerCase (Js.trim msg)))%bool;
    cbv [sendErrorToRenderer send window_live bind get ret emit exec since snd
         fst vars popupWindow out timers conns procs fresh pythonInstalled
         screen_recording_hint];
    rewrite Hlive; cbv beta iota; try rewrite Hlive; cbv beta iota;
    rewrite <- ?app_assoc; apply skipn_length_app.
Qed.

(* ---------------------------------------------------------------- *)
(** ** Stale process cleanup                                          *)
(* ---------------------------------------------------------------- *)

(** The calls [cleanupStaleProcesses] makes on the host. *)
Inductive HostCall : Type :=
| HKill (pid : Js.number) (signal : string)
| HUnlink (path : string).

(** The host as the cleanup sees it: the paths that exist and the calls
    made so far. *)
Record Host : Type := mkHost {
  files : list string;
  calls : list HostCall
}.

(** The first [try] block.  [lsof] is what [execSync] returned, [None]
    when it threw (the command failed or timed out).  A [process.kill]
    that throws is caught one by one, so every line is tried. *)
Definition kill_stale (lsof : option string) : list HostCall :=
  match lsof with
  | Some output =>
      let pids := Js.trim output in
      if Js.truthy_string pids
      then map (fun pid => HKill (Js.parseInt pid) "SIGTERM")
             (Js.split Js.nl pids)
      else []
  | None => []
  end.

(** [lockPaths]; [tmpLock] is
    [path.join(os.tmpdir(), 'videodb-recorder.lock')]. *)
Definition lockPaths (tmpLock : string) : list string :=
  [ BACKEND_DIR ++ "/videodb-recorder.lock"; tmpLock ].

(** One round of the second loop.  [unlinkable p] tells whether
    [fs.unlinkSync(p)] succeeds; when it throws the error is caught and
    the path stays. *)
Definition remove_lock (unlinkable : string -> bool) (h : Host) (p : string)
  : Host :=
  if existsb (String.eqb p) (files h)
  then {| files := if unlinkable p
                   then filter (fun f => negb (String.eqb p f)) (files h)
                   else files h;
          calls := calls h ++ [HUnlink p] |}
  else h.

Definition cleanupStaleProcesses (lsof : option string) (tmpLock : string)
    (unlinkable : string -> bool) (h : Host) : Host :=
  fold_left (remove_lock unlinkable) (lockPaths tmpLock)
    {| files := files h; calls := calls h ++ kill_stale lsof |}.

(** *** Reversal and trimming *)

Lemma rev_string_acc s : forall acc,
  Js.rev_string s acc = Js.rev_string s "" ++ acc.
Proof.
  induction s as [|c s IH]; intros acc; [ reflexivity | ].
  cbn [Js.rev_string]. rewrite (IH (String c acc)), (IH (String c "")).
  now rewrite string_app_assoc.
Qed.

Lemma rev_string_app a b :
  Js.rev_string (a ++ b) "" = Js.rev_string b "" ++ Js.rev_string a "".
Proof.
  induction a as [|c a IH]; [ now rewrite string_app_nil | ].
  cbn [append Js.rev_string].
  rewrite (rev_string_acc (a ++ b)), (rev_string_acc a), IH.
  now rewrite string_app_assoc.
Qed.

Lemma rev_string_involutive s : Js.rev_string (Js.rev_string s "") "" = s.
Proof.
  induction s as [|c s IH]; [ reflexivity | ].
  cbn [Js.rev_string]. rewrite (rev_string_acc s), rev_string_app, IH.
  reflexivity.
Qed.

(** The last code unit of a text is there and is not white space. *)
Fixpoint ends_in_ink (s : string) : bool :=
  match s with
  | EmptyString => false
  | String c EmptyString => negb (Js.is_space c)
  | String _ s' => ends_in_ink s'
  end.

(** The first code unit of a text is there and is not white space. *)
Definition begins_in_ink (s : string) : bool :=
  match s with
  | EmptyString => false
  | String c _ => negb (Js.is_space c)
  end.

Lemma ends_in_ink_app a b :
  ends_in_ink b = true -> ends_in_ink (a ++ b) = true.
Proof.
  intros Hb. induction a as [|c a IH]; [ exact Hb | ].
  cbn [append ends_in_ink]. destruct (a ++ b) eqn:E; [ | exact IH ].
  destruct a; [ | discriminate ]. cbn [append] in E. subst b. discriminate.
Qed.

Lemma trimStart_rev_ink s : forall acc,
  ends_in_ink s = true ->
  Js.trimStart (Js.rev_string s acc) = Js.rev_string s acc.
Proof.
  induction s as [|c s IH]; intros acc H; [ discriminate | ].
  destruct s as [|c' s].
  - cbn [ends_in_ink] in H. cbn [Js.rev_string Js.trimStart].
    apply negb_true_iff in H. now rewrite H.
  - cbn [Js.rev_string]. apply (IH (String c acc)). exact H.
Qed.

(** [trim] removes a final line feed from a text that begins and ends
    in ink, and nothing else. *)
Lemma trim_final_newline s :
  begins_in_ink s = true -> ends_in_ink s = true ->
  Js.trim (s ++ Js.nl) = s.
Proof.
  intros Hb He. unfold Js.trim.
  destruct s as [|c s]; [ discriminate | ].
  cbn [begins_in_ink] in Hb. apply negb_true_iff in Hb.
  cbn [append Js.trimStart]. rewrite Hb.
  change (String c (s ++ Js.nl)) with (String c s ++ Js.nl).
  rewrite rev_string_app.
  change (Js.rev_string Js.nl "") with Js.nl.
  change (Js.nl ++ Js.rev_string (String c s) "")
    with (String Js.LF (Js.rev_string (String c s) "")).
  cbn [Js.trimStart].
  change (Js.is_space Js.LF) with true. cbv beta iota.
  rewrite trimStart_rev_ink by exact He.
  apply rev_string_involutive.
Qed.

Lemma numeral_ends_in_ink u :
  u <> Decimal.Nil -> ends_in_ink (NilEmpty.string_of_uint u) = true.
Proof.
  induction u as [|u IH|u IH|u IH|u IH|u IH|u IH|u IH|u IH|u IH|u IH];
    intros Hu; [ contradiction | .. ];
    (destruct u; [ reflexivity | apply IH; discriminate .. ]).
Qed.

Lemma numeral_begins_in_ink u :
  u <> Decimal.Nil -> begins_in_ink (NilEmpty.string_of_uint u) = true.
Proof. destruct u; intros Hu; [ contradiction | reflexivity .. ]. Qed.

(** The numeral of an integer has no line feed and begins and ends in
    ink. *)
Lemma String_of_int_ink z :
  begins_in_ink (Js.String_of_int z) = true
  /\ ends_in_ink (Js.String_of_int z) = true.
Proof.
  unfold Js.String_of_int.
  destruct z as [|p|p]; [ split; reflexivity | | ];
    cbn [Z.to_int NilZero.string_of_int]; unfold NilZero.string_of_uint;
    pose proof (Unsigned.to_uint_nonnil p) as Hp;
    destruct (Pos.to_uint p) eqn:E; try contradiction;
    rewrite <- E in *.
  all: try (split; [ apply numeral_begins_in_ink | apply numeral_ends_in_ink ];
            exact Hp).
  all: split; [ reflexivity | ].
  all: change (String "-" (NilEmpty.string_of_uint (Pos.to_uint p)))
         with ("-" ++ NilEmpty.string_of_uint (Pos.to_uint p));
       apply ends_in_ink_app, numeral_ends_in_ink; exact Hp.
Qed.

(** What [lsof -t] prints: one numeral a line. *)
Definition lsof_output (pids : list Z) : string :=
  String.concat Js.nl (map Js.String_of_int pids) ++ Js.nl.

Lemma numerals_no_newline pids :
  forallb no_newline (map Js.String_of_int pids) = true.
Proof.
  induction pids as [|n pids IH]; [ reflexivity | ].
  cbn [map forallb]. now rewrite String_of_int_no_newline.
Qed.

Lemma numerals_ink n pids :
  begins_in_ink (String.concat Js.nl (map Js.String_of_int (n :: pids))) = true
  /\ ends_in_ink (String.concat Js.nl (map Js.String_of_int (n :: pids)))
     = true.
Proof.
  revert n. induction pids as [|m pids IH]; intros n.
  - apply String_of_int_ink.
  - destruct (String_of_int_ink n) as [Hb He].
    destruct (IH m) as [_ He'].
    change (String.concat Js.nl (map Js.String_of_int (n :: m :: pids)))
      with (Js.String_of_int n ++ Js.nl
            ++ String.concat Js.nl (map Js.String_of_int (m :: pids))).
    split.
    + destruct (Js.String_of_int n); [ discriminate | exact Hb ].
    + apply ends_in_ink_app, ends_in_ink_app. exact He'.
Qed.

Lemma parse_numerals pids :
  map (fun pid => HKill (Js.parseInt pid) "SIGTERM")
    (map Js.String_of_int pids)
  = map (fun n => HKill (Js.Int n) "SIGTERM") pids.
Proof.
  rewrite map_map. apply map_ext. intros n.
  now rewrite parseInt_String_of_int.
Qed.

(** X18: every process [lsof] lists on the service port is sent one
    SIGTERM, in the order listed, and no other process is signalled:
    when the command prints the numerals of [pids], one a line, the
    calls of the cleanup begin with [process.kill(pid, 'SIGTERM')] for
    each of them, and the calls after these are removals of lock
    files. *)
Theorem cleanup_signals_each_listed_process :
  forall (pids : list Z) (tmpLock : string) (unlinkable : string -> bool)
         (h : Host),
    pids <> [] ->
    Forall (fun n => Z.abs n < 2 ^ 53) pids ->
    exists removed,
      calls (cleanupStaleProcesses (Some (lsof_output pids)) tmpLock
               unlinkable h)
      = (calls h ++ map (fun n => HKill (Js.Int n) "SIGTERM") pids
         ++ map HUnlink removed)%list
      /\ incl removed (lockPaths tmpLock).
Proof.
  intros pids tmpLock unlinkable h Hne _.
  destruct pids as [|n pids]; [ contradiction | ].
  assert (Hkill : kill_stale (Some (lsof_output (n :: pids)))
                  = map (fun n => HKill (Js.Int n) "SIGTERM") (n :: pids)).
  { unfold kill_stale, lsof_output.
    destruct (numerals_ink n pids) as [Hb He].
    rewrite (trim_final_newline _ Hb He).
    destruct (String.concat Js.nl (map Js.String_of_int (n :: pids))) eqn:E;
      [ discriminate | ].
    cbn [Js.truthy_string]. rewrite <- E.
    change (map Js.String_of_int (n :: pids))
      with (Js.String_of_int n :: map Js.String_of_int pids).
    rewrite split_lines_join
      by apply (numerals_no_newline (n :: pids)).
    apply (parse_numerals (n :: pids)). }
  unfold cleanupStaleProcesses. rewrite Hkill.
  generalize (map (fun n => HKill (Js.Int n) "SIGTERM") (n :: pids)).
  intros kills. unfold lockPaths. cbn [fold_left].
  set (p1 := BACKEND_DIR ++ "/videodb-recorder.lock").
  unfold remove_lock at 2. cbn [files calls].
  destruct (existsb (String.eqb p1) (files h)).
  - unfold remove_lock. cbn [files calls].
    match goal with
    | |- context [existsb (String.eqb tmpLock) ?fs] =>
        destruct (existsb (String.eqb tmpLock) fs)
    end.
    + exists [p1; tmpLock]. cbn [calls map]. split.
      * now rewrite <- !app_assoc.
      * apply incl_refl.
    + exists [p1]. cbn [calls map]. split.
      * now rewrite <- !app_assoc.
      * intros x [<-|[]]. now left.
  - unfold remove_lock. cbn [files calls].
    destruct (existsb (String.eqb tmpLock) (files h)).
    + exists [tmpLock]. cbn [calls map]. split.
      * now rewrite <- !app_assoc.
      * intros x [<-|[]]. right. now left.
    + exists []. cbn [calls map]. split.
      * now rewrite app_nil_r.
      * intros x [].
Qed.

(** *** Lock files *)

Lemma filter_other p f l :
  In f (filter (fun f' => negb (String.eqb p f')) l) <-> In f l /\ f <> p.
Proof.
  rewrite filter_In, negb_true_iff. split; intros [Hin H]; split; auto.
  - intros ->. now rewrite String.eqb_refl in H.
  - apply String.eqb_neq. congruence.
Qed.

Lemma existsb_eqb_In p l :
  existsb (String.eqb p) l = true <-> In p l.
Proof.
  rewrite existsb_exists. split.
  - intros [x [Hin Hx]]. apply String.eqb_eq in Hx. now subst.
  - intros Hin. exists p. split; [ exact Hin | apply String.eqb_refl ].
Qed.

(** One round on the files: nothing appears, only [p] can go, and [p]
    is gone when it could be unlinked. *)
Lemma remove_lock_files unlinkable h p :
  (forall f, In f (files (remove_lock unlinkable h p)) -> In f (files h))
  /\ (forall f, In f (files h) -> f <> p ->
                In f (files (remove_lock unlinkable h p)))
  /\ (unlinkable p = true -> ~ In p (files (remove_lock unlinkable h p))).
Proof.
  unfold remove_lock.
  destruct (existsb (String.eqb p) (files h)) eqn:E.
  - destruct (unlinkable p); cbn [files]; repeat split; auto.
    + intros f Hf. now apply filter_other in Hf.
    + intros f Hf Hne. now apply filter_other.
    + intros _ Hp. apply filter_other in Hp. now destruct Hp.
    + discriminate.
  - repeat split; auto. intros _ Hp.
    apply existsb_eqb_In in Hp. congruence.
Qed.

(** X19: the cleanup touches no file but the two lock files: every
    path that exists afterwards existed before, every path other than a
    lock path that existed still does, and a lock path whose unlinking
    succeeds does not exist afterwards, whatever [lsof] printed. *)
Theorem cleanup_removes_only_lock_files :
  forall (lsof : option string) (tmpLock : string)
         (unlinkable : string -> bool) (h : Host),
    let h' := cleanupStaleProcesses lsof tmpLock unlinkable h in
    (forall f, In f (files h') -> In f (files h))
    /\ (forall f, In f (files h) -> ~ In f (lockPaths tmpLock) ->
                  In f (files h'))
    /\ (forall p, In p (lockPaths tmpLock) -> unlinkable p = true ->
                  ~ In p (files h')).
Proof.
  intros lsof tmpLock unlinkable h.
  unfold cleanupStaleProcesses, lockPaths. cbn [fold_left].
  set (p1 := BACKEND_DIR ++ "/videodb-recorder.lock").
  set (h0 := {| files := files h; calls := calls h ++ kill_stale lsof |}).
  destruct (remove_lock_files unlinkable h0 p1) as [Hsub1 [Hkeep1 Hgone1]].
  destruct (remove_lock_files unlinkable (remove_lock unlinkable h0 p1) tmpLock)
    as [Hsub2 [Hkeep2 Hgone2]].
  cbv zeta. repeat split.
  - intros f Hf. apply (Hsub1 f), Hsub2, Hf.
  - intros f Hf Hnot. apply Hkeep2; [ apply Hkeep1 | ].
    + exact Hf.
    + intros ->. apply Hnot. now left.
    + intros ->. apply Hnot. right. now left.
  - intros p [<-|[<-|[]]] Hu Hin.
    + apply (Hgone1 Hu), Hsub2, Hin.
    + apply (Hgone2 Hu), Hin.
Qed.

(* ---------------------------------------------------------------- *)
(** ** The health check inside a session start                        *)
(* ---------------------------------------------------------------- *)

Lemma timers_allocated_front w :
  timers_allocated w = true ->
  timers_allocated
    (exec (setTimeout TSettle (Js.number_of_Z 60000))
       (called AskMicrophone w)) = true.
Proof.
  intros Halloc. destruct w as [s ts cs ps fr py o].
  unfold timers_allocated in *.
  cbv [called call setTimeout exec newHandle set_timers emit bind ret
       snd fst vars timers conns procs fresh pythonInstalled out].
  cbn [timers fresh] in Halloc.
  rewrite forallb_app. apply andb_true_intro. split.
  - rewrite forallb_forall in *. intros [t a] He.
    apply Halloc in He. cbn [fst] in *. apply Nat.ltb_lt in He.
    apply Nat.ltb_lt. lia.
  - cbn [forallb fst]. rewrite andb_true_r. apply Nat.ltb_lt. lia.
Qed.

(** X20: a failed health check does not stop a session start.  With
    the service running and the microphone granted, whatever the five
    checks give (any number of failures, the last check failing as
    well), the handler goes on to open the stream if there is none and
    to start the capture process, from a world that differs from the
    one before the checks only by the checks' requests and delays. *)
Theorem failed_health_check_does_not_stop_the_start :
  forall (sourceType target : string) (w : World) (b : Pid) (mic : Value)
         (k : nat) (reason : string) (last : Settled) (evs : list Event),
    backendProcess (vars w) = Some b ->
    truthy mic = true ->
    timers_allocated w = true ->
    (k < 5)%nat ->
    (fulfilled last = false -> k = 4%nat) ->
    let w2 := exec (setTimeout TSettle (Js.number_of_Z 60000))
                (called AskMicrophone w) in
    exists w3,
      run (session_body sourceType target) w
        (CallSettled (fresh w) (Fulfilled mic)
         :: checks k (fresh w2) reason last ++ evs)
      = run (capture_start sourceType target) (exec ensure_relay w3) evs
      /\ vars w3 = vars w
      /\ procs w3 = procs w
      /\ since w2 w3 = check_effects k (fresh w2).
Proof.
  intros sourceType target w b mic k reason last evs Hb Hmic Halloc Hk Hlast.
  cbv zeta. unfold session_body.
  pose proof (run_ensurePermissions w mic) as Hperm. rewrite Hmic in Hperm.
  match goal with
  | |- context [CallSettled (fresh w) (Fulfilled mic) :: ?rest] =>
      change (CallSettled (fresh w) (Fulfilled mic) :: rest)
        with ([CallSettled (fresh w) (Fulfilled mic)] ++ rest)%list
  end.
  rewrite (run_pbind _ _ _ _ _ _ _ Hperm).
  cbn [negb].
  set (w1 := called AskMicrophone w).
  assert (Hb1 : backendProcess (vars w1) = Some b).
  { subst w1. destruct w as [[] ? ? ? ? ? ?]. exact Hb. }
  rewrite run_Do, (startBackend_running w1 b Hb1). cbn [fst snd].
  rewrite run_Do, withTimeout_settled. cbn [fst snd await].
  set (w2 := exec (setTimeout TSettle (Js.number_of_Z 60000)) w1).
  destruct (run_checks k 5 w2 reason last Hk) as (w3 & Hrun & Hvars & Hprocs & Hout).
  { intros Hf. specialize (Hlast Hf). lia. }
  { subst w2 w1. now apply timers_allocated_front. }
  rewrite (run_pbind _ _ _ _ _ _ _ Hrun).
  rewrite run_Do.
  exists w3. split; [ reflexivity | ].
  split; [ rewrite Hvars; subst w2 w1; now destruct w | ].
  split; [ rewrite Hprocs; subst w2 w1; now destruct w | ].
  now apply since_app.
Qed.

(* ---------------------------------------------------------------- *)
(** ** Events that arrive while a stop is awaited                     *)
(* ---------------------------------------------------------------- *)

(** [e] does not settle the promise that waits for [wt]. *)
Definition passes_by (wt : Wait) (e : Event) : bool :=
  match wake wt e with
  | None => true
  | Some _ => false
  end.

(** An [await] over events that do not settle it: each runs its
    callbacks, and the function is still waiting afterwards. *)
Lemma run_Await_through {R} (I : World -> Prop) wt (k : Settled -> Prog R) :
  (forall e, passes_by wt e = true -> Preserves I (handle e)) ->
  forall mid w tail,
    forallb (passes_by wt) mid = true ->
    I w ->
    exists w',
      run (Await wt k) w (mid ++ tail) = run (Await wt k) w' tail /\ I w'.
Proof.
  intros Hh. induction mid as [|e mid IH]; intros w tail Hmid Hw.
  - exists w. split; [ reflexivity | exact Hw ].
  - cbn [forallb] in Hmid. apply andb_prop in Hmid.
    destruct Hmid as [He Hmid].
    cbn [app]. rewrite run_unfold. cbn [advance].
    pose proof (Hh e He) as Hpres.
    unfold passes_by in He.
    destruct (wake wt e) eqn:Hwake; [ discriminate | ].
    destruct (enabled e w).
    + apply IH; [ exact Hmid | apply Hpres, Hw ].
    + apply IH; assumption.
Qed.

Lemma pres_and (I J : World -> Prop) {A} (m : M A) :
  Preserves I m -> Preserves J m -> Preserves (fun w => I w /\ J w) m.
Proof. intros HI HJ w [Hi Hj]. split; [ apply HI | apply HJ ]; assumption. Qed.

Lemma passes_close c t p code :
  passes_by (WStop c t) (ProcClose p code) = true -> c <> p.
Proof.
  unfold passes_by. cbn [wake]. destruct (Nat.eqb p c) eqn:E; [ discriminate | ].
  intros _ ->. now rewrite Nat.eqb_refl in E.
Qed.

Lemma passes_timer c t t' :
  passes_by (WStop c t) (TimerFire t') = true -> t <> t'.
Proof.
  unfold passes_by. cbn [wake]. destruct (Nat.eqb t' t) eqn:E; [ discriminate | ].
  intros _ ->. now rewrite Nat.eqb_refl in E.
Qed.

Lemma lookup_filter_none {A} (f : nat * A -> bool) k l :
  lookup k l = None -> lookup k (filter f l) = None.
Proof.
  induction l as [|[k0 a] l IH]; cbn [filter lookup]; [ auto | ].
  destruct (Nat.eqb k0 k) eqn:E; [ discriminate | ]. intros H.
  destruct (f (k0, a)); cbn [lookup]; [ rewrite E | ]; auto.
Qed.

Lemma lookup_filter_keep {A} (f : nat * A -> bool) k a l :
  lookup k l = Some a -> f (k, a) = true -> lookup k (filter f l) = Some a.
Proof.
  induction l as [|[k0 a0] l IH]; cbn [filter lookup]; [ discriminate | ].
  destruct (Nat.eqb k0 k) eqn:E.
  - intros H Hf. inversion H; subst a0. apply Nat.eqb_eq in E. subst k0.
    rewrite Hf. cbn [lookup]. now rewrite Nat.eqb_refl.
  - intros H Hf. destruct (f (k0, a0)); cbn [lookup]; [ rewrite E | ]; auto.
Qed.

Lemma lookup_snoc_other {A} k k' (a : A) l :
  k <> k' -> lookup k (l ++ [(k', a)]) = lookup k l.
Proof.
  intros Hne. induction l as [|[k0 a0] l IH]; cbn [app lookup].
  - destruct (Nat.eqb k' k) eqn:E; [ | reflexivity ].
    apply Nat.eqb_eq in E. congruence.
  - now rewrite IH.
Qed.

(** *** What every event leaves alone *)

(** There is no capture process handle. *)
Definition no_capture_handle (w : World) : Prop :=
  clientProcess (vars w) = None.

Ltac settled_prim := pres_prim; try reflexivity.

Lemma no_capture_on_messages msgs :
  forall cur, Preserves no_capture_handle (on_messages cur msgs).
Proof.
  unfold no_capture_handle.
  induction msgs as [|msg msgs IH]; intros cur; simpl; pres_with settled_prim.
Qed.
Hint Resolve no_capture_on_messages : pres.

Lemma no_capture_handle_kept e : Preserves no_capture_handle (handle e).
Proof.
  destruct e; pres_with settled_prim; unfold no_capture_handle;
    pres_with settled_prim.
Qed.

(** The timers below [n] that are [gone] stay gone, and handles are
    only ever allocated upwards. *)
Definition keeps_cancelled (n : nat) (gone : TimerId -> Prop) (w : World)
  : Prop :=
  (n <= fresh w)%nat
  /\ forall t, (t < n)%nat -> gone t -> lookup t (timers w) = None.

Ltac cancelled_prim :=
  let w := fresh "w" in
  let Hn := fresh "Hn" in
  let Hg := fresh "Hg" in
  intros w [Hn Hg]; destruct w as [[] ? ? ? ? ? ?];
  cbv [keeps_cancelled
       set_backendProcess set_clientProcess set_sseRequest set_tray
       set_popupWindow set_isShuttingDown set_isPaused
       set_sseReconnectTimer set_sseBackoffDelay set_sessionOpInProgress
       modify emit newHandle set_timers set_conns set_procs
       clearTimeout bind ret snd fst
       vars timers conns procs fresh pythonInstalled out
       backendProcess clientProcess sseRequest tray popupWindow
       isShuttingDown isPaused sseReconnectTimer sseBackoffDelay
       _sessionOpInProgress] in *;
  split;
  [ lia
  | let t := fresh "t" in let Ht := fresh "Ht" in let Hgone := fresh "Hgone" in
    intros t Ht Hgone;
    first [ exact (Hg t Ht Hgone)
          | apply lookup_filter_none; exact (Hg t Ht Hgone) ] ].

Lemma cancelled_setTimeout n gone a ms :
  Preserves (keeps_cancelled n gone) (setTimeout a ms).
Proof.
  intros w [Hn Hg]. destruct w as [s ts cs ps fr py o].
  cbv [keeps_cancelled setTimeout newHandle set_timers emit bind ret snd fst
       vars timers conns procs fresh pythonInstalled out] in *.
  split; [ lia | ]. intros t Ht Hgone.
  rewrite lookup_snoc_other by lia. auto.
Qed.
Hint Resolve cancelled_setTimeout : pres.

Lemma cancelled_on_messages n gone msgs :
  forall cur, Preserves (keeps_cancelled n gone) (on_messages cur msgs).
Proof.
  induction msgs as [|msg msgs IH]; intros cur; simpl;
    pres_with cancelled_prim.
Qed.
Hint Resolve cancelled_on_messages : pres.

Lemma cancelled_kept n gone e : Preserves (keeps_cancelled n gone) (handle e).
Proof. destruct e; pres_with cancelled_prim. Qed.

(** *** What the events that do not settle the stop leave alone *)

(** The capture process [c] has not closed. *)
Definition still_live (c : Pid) (w : World) : Prop :=
  lookup c (procs w) = Some Client.

Ltac live_prim Hne :=
  pres_prim;
  try (rewrite lookup_remove_key_other; [ assumption | exact Hne ]).

Lemma still_live_on_messages c msgs :
  forall cur, Preserves (still_live c) (on_messages cur msgs).
Proof.
  unfold still_live.
  induction msgs as [|msg msgs IH]; intros cur; simpl; pres.
Qed.
Hint Resolve still_live_on_messages : pres.

Lemma still_live_kept c t e :
  passes_by (WStop c t) e = true -> Preserves (still_live c) (handle e).
Proof.
  intros Hpass.
  destruct e as [p text|p code|t'|req st|req chunk|req|req|req|cl o].
  2: { pose proof (passes_close c t p code Hpass) as Hne.
       pres_with ltac:(live_prim Hne); unfold still_live;
         pres_with ltac:(live_prim Hne). }
  all: pres; unfold still_live; pres.
Qed.

(** The escalation timer [t] of the stop of [c] is pending, and the
    reconnect timer, if there is one, is another timer. *)
Definition escalation_pending (c : Pid) (t : TimerId) (w : World) : Prop :=
  lookup t (timers w) = Some (TForceKill c SIGTERM)
  /\ (t < fresh w)%nat
  /\ sseReconnectTimer (vars w) <> Some t.

Ltac pending_prim Hc Ht :=
  let w := fresh "w" in
  let Ha := fresh "Ha" in
  let Hb := fresh "Hb" in
  let Hr := fresh "Hr" in
  intros w (Ha & Hb & Hr); destruct w as [[] ? ? ? ? ? ?];
  cbv [escalation_pending
       set_backendProcess set_clientProcess set_sseRequest set_tray
       set_popupWindow set_isShuttingDown set_isPaused
       set_sseReconnectTimer set_sseBackoffDelay set_sessionOpInProgress
       modify emit newHandle set_timers set_conns set_procs
       clearTimeout bind ret snd fst
       vars timers conns procs fresh pythonInstalled out
       backendProcess clientProcess sseRequest tray popupWindow
       isShuttingDown isPaused sseReconnectTimer sseBackoffDelay
       _sessionOpInProgress] in *;
  split;
  [ first [ exact Ha
          | rewrite lookup_remove_key_other; [ exact Ha | exact Ht ]
          | apply lookup_filter_keep; [ exact Ha | ];
            cbn [snd]; apply negb_true_iff, Nat.eqb_neq; exact Hc ]
  | split; [ lia | first [ exact Hr | discriminate ] ] ].

Lemma pending_setTimeout c t a ms :
  Preserves (escalation_pending c t) (setTimeout a ms).
Proof.
  intros w (Ha & Hb & Hr). destruct w as [s ts cs ps fr py o].
  cbv [escalation_pending setTimeout newHandle set_timers emit bind ret
       snd fst vars timers conns procs fresh pythonInstalled out] in *.
  split; [ now apply lookup_app_l | split; [ lia | exact Hr ] ].
Qed.
Hint Resolve pending_setTimeout : pres.

Lemma pending_disconnectSSE c t :
  Preserves (escalation_pending c t) disconnectSSE.
Proof.
  intros w (Ha & Hb & Hr).
  destruct w as [[bp cp rq tr pw sd ip rt bd fl] ts cs ps fr py o].
  cbv [escalation_pending disconnectSSE clearTimeout set_timers
       set_sseReconnectTimer set_sseRequest set_sseBackoffDelay
       modify emit bind get ret snd fst
       vars timers conns procs fresh pythonInstalled out
       backendProcess clientProcess sseRequest tray popupWindow
       isShuttingDown isPaused sseReconnectTimer sseBackoffDelay
       _sessionOpInProgress] in *.
  destruct rt as [t'|], rq as [req|]; cbv beta iota;
    (split; [ | split; [ exact Hb | discriminate ] ]);
    first [ exact Ha
          | rewrite lookup_remove_key_other; [ exact Ha | congruence ] ].
Qed.
Hint Resolve pending_disconnectSSE : pres.

Lemma pending_scheduleSSEReconnect c t lastId :
  Preserves (escalation_pending c t) (scheduleSSEReconnect lastId).
Proof.
  intros w (Ha & Hb & Hr).
  destruct w as [[bp cp rq tr pw sd ip rt bd fl] ts cs ps fr py o].
  cbv [escalation_pending scheduleSSEReconnect setTimeout newHandle
       set_timers set_sseReconnectTimer set_sseBackoffDelay
       modify emit bind get ret snd fst
       vars timers conns procs fresh pythonInstalled out
       backendProcess clientProcess sseRequest tray popupWindow
       isShuttingDown isPaused sseReconnectTimer sseBackoffDelay
       _sessionOpInProgress] in *.
  destruct rt as [t'|]; cbv beta iota.
  - repeat split; assumption.
  - split; [ now apply lookup_app_l | split; [ lia | ] ].
    intros H. inversion H. lia.
Qed.
Hint Resolve pending_scheduleSSEReconnect : pres.

Lemma pending_on_messages c t msgs :
  forall cur, Preserves (escalation_pending c t) (on_messages cur msgs).
Proof.
  induction msgs as [|msg msgs IH]; intros cur; simpl;
    pres_with ltac:(pending_prim I I).
Qed.
Hint Resolve pending_on_messages : pres.

Lemma pending_kept c t e :
  passes_by (WStop c t) e = true ->
  Preserves (escalation_pending c t) (handle e).
Proof.
  intros Hpass.
  destruct e as [p text|p code|t'|req st|req chunk|req|req|req|cl o].
  2: { pose proof (passes_close c t p code Hpass) as Hne.
       pres_with ltac:(pending_prim Hne I). }
  2: { pose proof (passes_timer c t t' Hpass) as Hne.
       pres_with ltac:(pending_prim I Hne). }
  all: pres_with ltac:(pending_prim I I).
Qed.

(* ---------------------------------------------------------------- *)
(** ** A stop that is awaited while other events arrive               *)
(* ---------------------------------------------------------------- *)

(** The events [mid] arrive while a [stopClient()] called in world [w]
    is awaited, and none of them settles it: none is the exit of the
    capture process or the firing of the escalation timer. *)
Definition waits_through (w : World) (mid : list Event) : Prop :=
  match clientProcess (vars w) with
  | None => mid = []
  | Some c => forallb (passes_by (WStop c (fresh w))) mid = true
  end.

(** The stop is settled by the exit of the capture process. *)
Definition closes (tail : list Event) : Prop :=
  exists c code, tail = [ProcClose c code].

(** The relay is disconnected and its delay is the initial one. *)
Definition relay_idle (s : State) : Prop :=
  sseRequest s = None /\ sseReconnectTimer s = None
  /\ sseBackoffDelay s = SSE_BACKOFF_INITIAL.

(** What holds of the world from the call of [stopClient()] in [ws] on,
    whatever events arrive. *)
Definition since_stop (ws : World) (n : nat) (gone : TimerId -> Prop)
    (w : World) : Prop :=
  (no_capture_handle w
   /\ flag_is (_sessionOpInProgress (vars ws)) w)
  /\ pause_and_capture_untouched ws w
  /\ keeps_cancelled n gone w.

Lemma since_stop_kept ws n gone e :
  Preserves (since_stop ws n gone) (handle e).
Proof.
  unfold since_stop.
  apply pres_and; [ apply pres_and | apply pres_and ].
  - apply no_capture_handle_kept.
  - apply flag_handle.
  - apply untouched_handle.
  - apply cancelled_kept.
Qed.

Lemma release_world w :
  exec release w
  = mkWorld (mkState (backendProcess (vars w)) (clientProcess (vars w))
               (sseRequest (vars w)) (tray (vars w)) (popupWindow (vars w))
               (isShuttingDown (vars w)) (isPaused (vars w))
               (sseReconnectTimer (vars w)) (sseBackoffDelay (vars w)) false)
      (timers w) (conns w) (procs w) (fresh w) (pythonInstalled w) (out w).
Proof. destruct w as [[] ? ? ? ? ? ?]. reflexivity. Qed.

(** [await stopClient(); return r] inside [try]/[finally], while other
    events arrive: it returns [r] once the capture process has exited
    or the escalation timer has fired. *)
Lemma stop_then_return_through {R} (r : R) (f : Prog R -> Prog R) w mid tail :
  context f ->
  f (Ret r) = Do release (fun _ => Ret r) ->
  sseReconnectTimer (vars w) = None ->
  settles_stop w tail ->
  waits_through w mid ->
  exists w2 effs,
    run (f (Do stopClient (fun p => await p (fun _ => Ret r)))) w
      (mid ++ tail)
    = Done (Returned r) w2 []
    /\ clientProcess (vars w2) = None
    /\ _sessionOpInProgress (vars w2) = false
    /\ isPaused (vars w2) = isPaused (vars w)
    /\ out w2 = (out w ++ effs)%list
    /\ (forall c, clientProcess (vars w) = Some c -> In (EKill c SIGINT) effs)
    /\ (forall q, ~ In (ESpawn q Client) effs)
    /\ keeps_cancelled (fresh w) (fun t => lookup t (timers w) = None) w2
    /\ (closes tail -> relay_idle (vars w2)).
Proof.
  intros Hf Hret Htimer Hsettle Hmid.
  pose proof Hf as [Hdo Haw].
  rewrite Hdo, run_Do.
  unfold settles_stop in Hsettle. unfold waits_through in Hmid.
  destruct (clientProcess (vars w)) as [c|] eqn:Hc.
  - destruct (stopClient_running w c Hc)
      as (ws & Hstop & Hvars & Htimers & Hprocs & Hout).
    rewrite Hstop. cbn [fst snd await]. rewrite Haw.
    set (t := fresh w) in *.
    set (gone := fun t0 => lookup t0 (timers w) = None).
    assert (Hfresh : fresh ws = S t).
    { subst t. destruct w as [[] ? ? ? ? ? ?]. cbn in Hc. subst.
      inversion Hstop. reflexivity. }
    assert (Hcommon : since_stop ws t gone ws).
    { repeat split.
      - unfold no_capture_handle. now rewrite Hvars.
      - exists []. split; [ now rewrite app_nil_r | reflexivity ].
      - rewrite Hfresh. lia.
      - intros t0 Ht0 Hgone. rewrite Htimers.
        rewrite lookup_snoc_other by lia. exact Hgone. }
    set (k := fun o : Settled =>
                f match o with
                  | Fulfilled _ => Ret r
                  | Rejected m => Throw m
                  end) in *.
    assert (Hfinish :
              forall e w',
                since_stop ws t gone w' ->
                enabled e w' = true ->
                wake (WStop c t) e = Some (Fulfilled VUndefined) ->
                exists w2 effs,
                  run (Await (WStop c t) k) w' [e] = Done (Returned r) w2 []
                  /\ clientProcess (vars w2) = None
                  /\ _sessionOpInProgress (vars w2) = false
                  /\ isPaused (vars w2) = isPaused (vars w)
                  /\ out w2 = (out w ++ effs)%list
                  /\ (forall c', Some c = Some c' -> In (EKill c' SIGINT) effs)
                  /\ (forall q, ~ In (ESpawn q Client) effs)
                  /\ keeps_cancelled t gone w2
                  /\ vars w2
                     = vars (exec release (exec (handle e) w'))).
    { intros e w' Hw' Hen Hwake.
      rewrite (run_Await_settled _ _ _ _ _ _ Hen Hwake).
      subst k. cbv beta iota. rewrite Hret, run_Do, run_Ret.
      change (snd (release (exec (handle e) w')))
        with (exec release (exec (handle e) w')).
      pose proof (since_stop_kept ws t gone e w' Hw')
        as ((Hnc & Hflag) & (Hp & effs & Ho & Hall) & (Hn & Hg)).
      change (snd (handle e w')) with (exec (handle e) w') in *.
      set (w'' := exec (handle e) w') in *.
      exists (exec release w''),
             ([ESetTimeout t (TForceKill c SIGTERM) 10000; EKill c SIGINT]
              ++ effs)%list.
      rewrite release_world. cbn [vars out timers fresh clientProcess
                                  _sessionOpInProgress isPaused].
      split; [ reflexivity | ].
      split; [ exact Hnc | ].
      split; [ reflexivity | ].
      split; [ now rewrite Hp, Hvars | ].
      split; [ now rewrite Ho, Hout, <- app_assoc | ].
      split; [ intros c' Hc'; inversion Hc'; subst; right; left; reflexivity | ].
      split.
      { intros q [Hin|[Hin|Hin]]; try discriminate.
        rewrite forallb_forall in Hall. now apply Hall in Hin. }
      split; [ split; assumption | reflexivity ]. }
    destruct Hsettle as [[code [-> Hlive]]|[-> Hnone]].
    + (* the capture process exits *)
      destruct (run_Await_through
                  (fun w' => since_stop ws t gone w' /\ still_live c w')
                  (WStop c t) k) with (mid := mid) (w := ws)
                  (tail := [ProcClose c code])
        as (w' & Hrun & Hw' & Hlive').
      { intros e He. apply pres_and;
          [ apply since_stop_kept | apply (still_live_kept c t e He) ]. }
      { exact Hmid. }
      { split; [ exact Hcommon | ]. unfold still_live. now rewrite Hprocs. }
      rewrite Hrun.
      destruct (Hfinish (ProcClose c code) w' Hw')
        as (w2 & effs & Hdone & H1 & H2 & H3 & H4 & H5 & H6 & H7 & Hv).
      { cbn [enabled]. unfold still_live in Hlive'. now rewrite Hlive'. }
      { cbn [wake]. now rewrite Nat.eqb_refl. }
      exists w2, effs. do 7 (split; [ assumption | ]). split; [ exact H7 | ].
      intros _. destruct (client_close_vars w' c code Hlive') as (Hcv & _).
      unfold relay_idle. rewrite Hv, release_world. cbn [vars].
      rewrite Hcv. repeat split.
    + (* the escalation timer fires *)
      destruct (run_Await_through
                  (fun w' => since_stop ws t gone w'
                             /\ escalation_pending c t w')
                  (WStop c t) k) with (mid := mid) (w := ws)
                  (tail := [TimerFire t])
        as (w' & Hrun & Hw' & Hpend).
      { intros e He. apply pres_and;
          [ apply since_stop_kept | apply (pending_kept c t e He) ]. }
      { exact Hmid. }
      { split; [ exact Hcommon | ]. repeat split.
        - rewrite Htimers. now apply lookup_snoc_fresh.
        - rewrite Hfresh. lia.
        - rewrite Hvars. cbn [sseReconnectTimer]. rewrite Htimer.
          discriminate. }
      rewrite Hrun.
      destruct Hpend as (Hlook & _ & _).
      destruct (Hfinish (TimerFire t) w' Hw')
        as (w2 & effs & Hdone & H1 & H2 & H3 & H4 & H5 & H6 & H7 & Hv).
      { cbn [enabled]. now rewrite Hlook. }
      { cbn [wake]. now rewrite Nat.eqb_refl. }
      exists w2, effs. do 7 (split; [ assumption | ]). split; [ exact H7 | ].
      intros (c' & code & Habs). discriminate.
  - subst mid tail. rewrite (stopClient_idle w Hc).
    cbn [fst snd await app]. rewrite Hret, run_Do, run_Ret.
    change (snd (release w)) with (exec release w).
    exists (exec release w), [].
    rewrite release_world. cbn [vars out timers fresh clientProcess
                                _sessionOpInProgress isPaused].
    split; [ reflexivity | ]. split; [ exact Hc | ].
    split; [ reflexivity | ]. split; [ reflexivity | ].
    split; [ now rewrite app_nil_r | ].
    split; [ intros c Habs; discriminate | ].
    split; [ intros q [] | ].
    split; [ unfold keeps_cancelled; cbn [fresh timers]; split;
             [ lia | auto ] | ].
    intros (c' & code & Habs). discriminate.
Qed.

Lemma waits_through_calm w w' mid :
  calm w w' ->
  clientProcess (vars w') = clientProcess (vars w) ->
  waits_through w mid -> waits_through w' mid.
Proof.
  intros (_ & Hf & _) Hc. unfold waits_through. now rewrite Hc, Hf.
Qed.




(* ---------------------------------------------------------------- *)
(** ** The rollback of a failed start while other events arrive       *)
(* ---------------------------------------------------------------- *)

Lemma lookup_remove_key_self {A} k (l : list (nat * A)) :
  lookup k (remove_key k l) = None.
Proof.
  induction l as [|[k0 a] l IH]; [ reflexivity | ].
  unfold remove_key in *. cbn [filter fst].
  destruct (Nat.eqb k0 k) eqn:E; cbn [negb]; [ exact IH | ].
  cbn [lookup]. now rewrite E.
Qed.

Lemma lookup_allocated {A} k (a : A) l n :
  forallb (fun e => Nat.ltb (fst e) n) l = true ->
  lookup k l = Some a -> (k < n)%nat.
Proof.
  intros Hall Hk. apply lookup_In in Hk.
  rewrite forallb_forall in Hall. apply Hall in Hk.
  now apply Nat.ltb_lt in Hk.
Qed.

Lemma disconnectSSE_timers w :
  timers (exec disconnectSSE w)
  = match sseReconnectTimer (vars w) with
    | Some t => remove_key t (timers w)
    | None => timers w
    end.
Proof.
  destruct w as [[bp cp rq tr pw sd ip rt bd fl] ts cs ps f py o].
  unfold exec, disconnectSSE, bind, get. cbn.
  destruct rt, rq; reflexivity.
Qed.

(** C8: whenever the [try] block of a start-session that passed the
    guard throws, at whichever step and whatever events came before,
    the handler destroys the stream request, cancels the pending
    reconnect (its timer is no longer pending when the handler
    returns), sends the capture process SIGINT and clears its handle,
    and, once that stop is settled by the exit of the process or by
    the escalation timer, whichever other events arrive meanwhile,
    returns [{ success: false, error }] with the message of the
    exception that was thrown; the in-progress flag is cleared.  The
    relay is still disconnected then if the stop was settled by the
    exit of the capture process or no event arrived before it was
    settled. *)
Theorem start_session_exception_rolls_back :
  forall (sourceType target : string) (w : World) (pre : list Event)
         (m : string) (w1 : World) (mid tail : list Event),
    _sessionOpInProgress (vars w) = false ->
    run (session_body sourceType target) (entered w) pre
      = Done (Threw m) w1 [] ->
    timers_allocated w1 = true ->
    settles_stop w1 tail ->
    waits_through w1 mid ->
    exists w2,
      run (start_session sourceType target) w (pre ++ mid ++ tail)
      = Done (Returned (Failure m)) w2 []
      /\ clientProcess (vars w2) = None
      /\ _sessionOpInProgress (vars w2) = false
      /\ (forall req, sseRequest (vars w1) = Some req ->
                      In (EDestroy req) (since w1 w2))
      /\ (forall t a, sseReconnectTimer (vars w1) = Some t ->
                      lookup t (timers w1) = Some a ->
                      lookup t (timers w2) = None)
      /\ (forall c, clientProcess (vars w1) = Some c ->
                    In (EKill c SIGINT) (since w1 w2))
      /\ (mid = [] \/ closes tail ->
          sseRequest (vars w2) = None /\ sseReconnectTimer (vars w2) = None).
Proof.
  intros sourceType target w pre m w1 mid tail
         Hflag Hbody Halloc Hsettle Hmid.
  assert (Hstart :
            run (start_session sourceType target) w (pre ++ mid ++ tail)
            = run (pfinally (rollback m) release) w1 (mid ++ tail)).
  { unfold start_session. rewrite run_Do. cbn [get fst snd]. rewrite Hflag.
    rewrite run_Do.
    change (snd (set_sessionOpInProgress true w)) with (entered w).
    cbn [fst].
    now rewrite (run_context _ (context_try_finally rollback release)
                   _ _ _ _ _ (mid ++ tail) Hbody). }
  rewrite Hstart. unfold rollback. cbn [pfinally]. rewrite run_Do.
  change (snd (disconnectSSE w1)) with (exec disconnectSSE w1).
  pose proof (disconnectSSE_vars w1) as Hvars.
  pose proof (disconnectSSE_out w1) as Hout0.
  pose proof (disconnectSSE_calm w1) as Hcalm.
  pose proof (disconnectSSE_timers w1) as Htimers.
  set (wd := exec disconnectSSE w1) in *.
  destruct (stop_then_return_through (Failure m)
              (fun p => pfinally p release) wd mid tail)
    as (w2 & effs & Hrun & Hc2 & Hf2 & _ & Hout & Hint & _ & Hgone & Hidle).
  { apply context_finally. }
  { reflexivity. }
  { now rewrite Hvars. }
  { apply (settles_stop_calm w1); auto. now rewrite Hvars. }
  { apply (waits_through_calm w1); auto. now rewrite Hvars. }
  cbn [fst]. cbn [pfinally] in Hrun. rewrite Hrun.
  exists w2.
  assert (Hsince :
            since w1 w2
            = (match sseRequest (vars w1) with
               | Some req => [EDestroy req]
               | None => []
               end ++ effs)%list).
  { apply since_app. now rewrite Hout, Hout0, app_assoc. }
  split; [ reflexivity | ]. split; [ exact Hc2 | ]. split; [ exact Hf2 | ].
  split.
  { intros req Hreq. rewrite Hsince, Hreq. now left. }
  split.
  { intros t a Ht Ha. destruct Hgone as [_ Hgone]. apply Hgone.
    - destruct Hcalm as (_ & -> & _).
      apply (lookup_allocated t a (timers w1)); assumption.
    - rewrite Htimers, Ht. apply lookup_remove_key_self. }
  split.
  { intros c Hc. rewrite Hsince. apply in_or_app. right. apply Hint.
    now rewrite Hvars. }
  intros [Hnone|Hclose].
  - subst mid. cbn [app] in Hstart, Hrun.
    destruct (run_start_session_failure _ _ _ _ _ _ _ Hflag Hbody Hsettle)
      as (w2' & effs' & Hrun' & Hvars' & _).
    rewrite Hstart in Hrun'. unfold rollback in Hrun'.
    cbn [pfinally] in Hrun'. rewrite run_Do in Hrun'.
    change (snd (disconnectSSE w1)) with wd in Hrun'.
    cbn [fst] in Hrun'. rewrite Hrun in Hrun'. inversion Hrun'; subst w2'.
    rewrite Hvars'. split; reflexivity.
  - destruct (Hidle Hclose) as (Hr & Ht & _). split; assumption.
Qed.

(* ---------------------------------------------------------------- *)
(** ** A session start with an unknown source type, to its end        *)
(* ---------------------------------------------------------------- *)

Lemma run_capture_start_unknown sourceType target w :
  choiceMap sourceType = None ->
  clientProcess (vars w) = None ->
  run (capture_start sourceType target) w []
  = Done (Threw ("Unknown source type: " ++ sourceType))
      (exec (setTimeout TSettle (Js.number_of_Z 120000)) w) [].
Proof.
  intros Hchoice Hc. unfold capture_start.
  assert (Hstart : startClient sourceType target w
                   = (Already (Rejected ("Unknown source type: "
                                         ++ sourceType)), w)).
  { unfold startClient, bind, get. now rewrite Hc, Hchoice. }
  rewrite run_Do, Hstart. cbn [fst snd].
  rewrite run_Do, withTimeout_settled. cbn [fst snd await].
  apply run_Throw.
Qed.

(** C3, as the code has it: for a source type that [choiceMap] does
    not know, (a) a capture start made while no capture process exists
    is rejected at once with 'Unknown source type: <sourceType>' and
    leaves the world as it was (nothing is spawned, no variable is
    written); (b) along every run of a start-session call, whether it
    has returned or is still waiting, no capture process has been
    spawned and [isPaused] has not been written, and when the call has
    returned it has returned [{ success: false, error }]; (c) with the
    service running, no capture process and no operation in flight,
    the call returns [{ success: false, error: 'Unknown source type:
    <sourceType>' }] as soon as the microphone is granted and the
    health check has answered.  Nothing is claimed about the service
    process and the relay: the handler checks permissions, starts the
    service and opens the relay before it reaches the capture start,
    and its rollback then tears the relay down. *)
Theorem unknown_source_type_rejected_by_capture_start :
  forall (sourceType target : string) (w w' : World) (evs : list Event),
    choiceMap sourceType = None ->
    clientProcess (vars w) = None ->
    startClient sourceType target w
      = (Already (Rejected ("Unknown source type: " ++ sourceType)), w)
    /\ match run (start_session sourceType target) w' evs with
       | Done res w'' _ =>
           reports_failure res
           /\ isPaused (vars w'') = isPaused (vars w')
           /\ forall p, ~ In (ESpawn p Client) (since w' w'')
       | Suspended _ _ w'' =>
           isPaused (vars w'') = isPaused (vars w')
           /\ forall p, ~ In (ESpawn p Client) (since w' w'')
       end
    /\ forall (b : Pid) (mic health : Value),
         _sessionOpInProgress (vars w) = false ->
         backendProcess (vars w) = Some b ->
         truthy mic = true ->
         exists w2,
           run (start_session sourceType target) w
             [ CallSettled (fresh w) (Fulfilled mic);
               CallSettled (S (S (fresh w))) (Fulfilled health) ]
           = Done (Returned (Failure ("Unknown source type: " ++ sourceType)))
               w2 [].
Proof.
  intros sourceType target w w' evs Hchoice Hclient. split; [ | split ].
  - unfold startClient, bind, get. now rewrite Hclient, Hchoice.
  - pose proof (run_safe (pause_and_capture_untouched w') reports_failure
                  (untouched_handle w') evs
                  (start_session sourceType target) w'
                  (safe_start_session_unknown w' _ _ Hchoice)) as Hsafe.
    assert (Hstart : pause_and_capture_untouched w' w').
    { split; [ reflexivity | ]. exists []. now rewrite app_nil_r. }
    specialize (Hsafe Hstart).
    assert (Huntouched :
              forall w'', pause_and_capture_untouched w' w'' ->
                isPaused (vars w'') = isPaused (vars w')
                /\ forall p, ~ In (ESpawn p Client) (since w' w'')).
    { intros w'' (Hp & effs & Hout & Hall). split; [ exact Hp | ].
      intros p Hin. rewrite (since_app _ _ _ Hout) in Hin.
      rewrite forallb_forall in Hall. now apply Hall in Hin. }
    destruct (run (start_session sourceType target) w' evs)
      as [res w'' rest|wt k w''].
    + destruct Hsafe as [Hres Hw'']. split; [ exact Hres | auto ].
    + destruct Hsafe as [Hw'' _]. auto.
  - intros b mic health Hflag Hb Hmic.
    set (w0 := before_capture (entered w)).
    destruct (before_capture_keeps (entered w)) as (_ & Hc0 & _).
    fold w0 in Hc0. rewrite entered_vars in Hc0. cbn in Hc0.
    assert (Hbody : run (session_body sourceType target) (entered w)
                      [ CallSettled (fresh w) (Fulfilled mic);
                        CallSettled (S (S (fresh w))) (Fulfilled health) ]
                    = Done (Threw ("Unknown source type: " ++ sourceType))
                        (exec (setTimeout TSettle (Js.number_of_Z 120000))
                           w0) []).
    { change (fresh w) with (fresh (entered w)).
      rewrite (run_session_body_service_up _ _ (entered w) b)
        by (rewrite ?entered_vars; assumption).
      apply run_capture_start_unknown; [ exact Hchoice | ].
      now rewrite Hc0. }
    set (w1 := exec (setTimeout TSettle (Js.number_of_Z 120000)) w0) in *.
    assert (Hsettle : settles_stop w1 []).
    { unfold settles_stop.
      replace (clientProcess (vars w1)) with (clientProcess (vars w0))
        by (subst w1; destruct w0 as [s ts cs ps fr py o]; reflexivity).
      now rewrite Hc0, Hclient. }
    destruct (run_start_session_failure _ _ _ _ _ _ _ Hflag Hbody Hsettle)
      as (w2 & effs & Hrun & _).
    exists w2. rewrite <- Hrun. now rewrite app_nil_r.
Qed.

(* ---------------------------------------------------------------- *)
(** ** The relay after the service process has exited                 *)
(* ---------------------------------------------------------------- *)

(** The handlers of a stream request stay registered when the request
    is destroyed: when its stream then reports 'end' or 'error' and no
    reconnect is pending, a reconnect is scheduled with the stream's
    cursor, and the timer opens a new request. *)
Lemma stale_stream_reopens_relay w req lastId cur buffer :
  lookup req (conns w)
    = Some {| conn_lastId := lastId; conn_phase := Streaming buffer cur |} ->
  sseReconnectTimer (vars w) = None ->
  lookup (fresh w) (timers w) = None ->
  let failed := exec (handle (SseError req)) w in
  let retried := exec (handle (TimerFire (fresh w))) failed in
  enabled (TimerFire (fresh w)) failed = true
  /\ since w retried
     = (ESetTimeout (fresh w) (TReconnect cur) (sseBackoffDelay (vars w))
        :: match sseRequest (vars w) with
           | Some r => [EDestroy r]
           | None => []
           end
        ++ [EHttpGet (S (fresh w)) cur])%list
  /\ vars retried
     = mkState (backendProcess (vars w)) (clientProcess (vars w))
         (Some (S (fresh w))) (tray (vars w)) (popupWindow (vars w))
         (isShuttingDown (vars w)) (isPaused (vars w)) None
         SSE_BACKOFF_INITIAL (_sessionOpInProgress (vars w)).
Proof.
  intros Hconn Htimer Hfresh failed retried.
  destruct w as [[bp cp rq tr pw sd ip rt bd fl] ts cs ps fr py o].
  cbn [conns timers fresh vars sseReconnectTimer] in Hconn, Htimer, Hfresh.
  subst rt.
  assert (Hfailed :
            failed
            = mkWorld (mkState bp cp rq tr pw sd ip (Some fr)
                         (Js.Math_min (bd * SSE_BACKOFF_MULTIPLIER)
                            SSE_BACKOFF_MAX) fl)
                (ts ++ [(fr, TReconnect cur)])
                (map (fun e : ReqId * Conn =>
                        if Nat.eqb (fst e) req
                        then (fst e, {| conn_lastId := conn_lastId (snd e);
                                        conn_phase := Closed |})
                        else e) cs)
                ps (S fr) py
                (o ++ [ESetTimeout fr (TReconnect cur) bd])).
  { subst failed.
    unfold exec, handle, on_stream_closed, get_conn, bind at 1.
    cbn [conns snd fst]. rewrite Hconn.
    cbv [scheduleSSEReconnect setTimeout set_phase set_conns newHandle
         set_timers set_sseReconnectTimer set_sseBackoffDelay
         modify emit bind get ret snd fst
         vars timers conns procs fresh pythonInstalled out
         backendProcess clientProcess sseRequest tray popupWindow
         isShuttingDown isPaused sseReconnectTimer sseBackoffDelay
         _sessionOpInProgress].
    reflexivity. }
  assert (Hlook : lookup fr (ts ++ [(fr, TReconnect cur)])
                  = Some (TReconnect cur))
    by now apply lookup_snoc_fresh.
  assert (Hretried :
            exists ts3 cs3 fr3,
              retried
              = mkWorld (mkState bp cp (Some (S fr)) tr pw sd ip None
                           SSE_BACKOFF_INITIAL fl)
                  ts3 cs3 ps fr3 py
                  (o ++ ESetTimeout fr (TReconnect cur) bd
                        :: match rq with
                           | Some r => [EDestroy r]
                           | None => []
                           end ++ [EHttpGet (S fr) cur])).
  { subst retried. rewrite Hfailed.
    unfold exec, handle, timer_action, bind at 1.
    cbn [timers snd fst fresh]. rewrite Hlook.
    cbv [connectSSE disconnectSSE clearTimeout set_conns newHandle
         set_timers set_sseReconnectTimer set_sseBackoffDelay
         set_sseRequest modify emit bind get ret snd fst
         vars timers conns procs fresh pythonInstalled out
         backendProcess clientProcess sseRequest tray popupWindow
         isShuttingDown isPaused sseReconnectTimer sseBackoffDelay
         _sessionOpInProgress].
    destruct rq as [r|]; cbv beta iota; do 3 eexists;
      repeat rewrite <- app_assoc; reflexivity. }
  destruct Hretried as (ts3 & cs3 & fr3 & Hretried).
  split; [ | split ].
  - rewrite Hfailed. cbn [enabled timers fresh]. now rewrite Hlook.
  - unfold since. rewrite Hretried. cbn [out fresh vars sseBackoffDelay
                                         sseRequest].
    apply skipn_length_app.
  - rewrite Hretried. reflexivity.
Qed.

(** The world the close handler of the service process leaves: every
    handle is cleared and the relay disconnected, but the handlers of
    the stream request are still there, and so is what they hold. *)
Lemma backend_close_world w b c code :
  backendProcess (vars w) = Some b ->
  clientProcess (vars w) = Some c ->
  lookup b (procs w) = Some Backend ->
  timers_allocated w = true ->
  let w' := exec (handle (ProcClose b code)) w in
  vars w'
  = mkState None None None (tray (vars w)) (popupWindow (vars w))
      (isShuttingDown (vars w)) (isPaused (vars w)) None
      SSE_BACKOFF_INITIAL (_sessionOpInProgress (vars w))
  /\ conns w' = conns w
  /\ fresh w' = S (fresh w)
  /\ lookup (S (fresh w)) (timers w') = None.
Proof.
  intros Hb Hc Hrole Halloc w'.
  destruct w as [[bp cp rq tr pw sd ip rt bd fl] ts cs ps fr py o].
  cbn [vars backendProcess clientProcess procs] in Hb, Hc, Hrole.
  subst bp cp. unfold timers_allocated in Halloc.
  cbn [timers fresh] in Halloc.
  assert (Hw' : w' = exec (set_procs (remove_key b) ;;
                           on_backend_close code ;;
                           cancel_escalation b)
                      (mkWorld (mkState (Some b) (Some c) rq tr pw sd ip rt
                                  bd fl) ts cs ps fr py o)).
  { subst w'. unfold exec, handle, role_of, bind at 1. cbn [procs].
    now rewrite Hrole. }
  clearbody w'. subst w'.
  assert (Hnone : lookup (S fr) (ts ++ [(fr, TForceKill c SIGTERM)]) = None).
  { rewrite lookup_snoc_other by lia. apply (lookup_above _ fr); [ | lia ].
    exact Halloc. }
  cbv [bind ret exec send sendErrorToRenderer window_live
       disconnectSSE on_backend_close stopClient setTimeout newHandle
       cancel_escalation get modify emit clearTimeout
       set_procs set_timers set_clientProcess set_backendProcess
       set_sseBackoffDelay set_sseRequest set_sseReconnectTimer
       snd fst vars timers conns procs fresh pythonInstalled out
       backendProcess clientProcess sseRequest tray popupWindow
       isShuttingDown isPaused sseReconnectTimer sseBackoffDelay
       _sessionOpInProgress isDestroyed negb].
  destruct pw as [[[]]|], rq as [req|], rt as [t|]; cbv beta iota;
    (split; [ reflexivity | split; [ reflexivity | split;
       [ reflexivity | ] ] ]);
    apply lookup_filter_none;
    first [ exact Hnone | apply lookup_filter_none; exact Hnone ].
Qed.

(** C5 does not hold of the code.  In every state in which the service
    process exits while a capture process is running and the stream is
    being relayed, everything is reported inactive at the return of the
    close handler; but the handler only destroys the stream request,
    and when the destroyed request then reports 'error' its handler
    schedules a reconnect with the stream's cursor after the initial
    delay.  That timer can fire, and once it has fired a new request
    is open: [get-session-state] reports [sseConnected: true] although
    the service and the capture process are gone. *)
Theorem crashed_service_relay_reconnects :
  forall (w : World) (b c : Pid) (req : ReqId) (code : option Z)
         (lastId cur : Z) (buffer : string),
    backendProcess (vars w) = Some b ->
    clientProcess (vars w) = Some c ->
    lookup b (procs w) = Some Backend ->
    lookup req (conns w)
      = Some {| conn_lastId := lastId; conn_phase := Streaming buffer cur |} ->
    timers_allocated w = true ->
    let crashed := exec (handle (ProcClose b code)) w in
    let failed := exec (handle (SseError req)) crashed in
    let retried := exec (handle (TimerFire (S (fresh w)))) failed in
    fst (get_session_state crashed)
      = SessionState false false false (isPaused (vars w))
    /\ enabled (TimerFire (S (fresh w))) failed = true
    /\ since crashed retried
       = [ ESetTimeout (S (fresh w)) (TReconnect cur) SSE_BACKOFF_INITIAL;
           EHttpGet (S (S (fresh w))) cur ]
    /\ fst (get_session_state retried)
       = SessionState false false true (isPaused (vars w)).
Proof.
  intros w b c req code lastId cur buffer Hb Hc Hrole Hconn Halloc
         crashed failed retried.
  destruct (backend_close_world w b c code Hb Hc Hrole Halloc)
    as (Hvars & Hconns & Hfresh & Hnone).
  fold crashed in Hvars, Hconns, Hfresh, Hnone.
  destruct (stale_stream_reopens_relay crashed req lastId cur buffer)
    as (Hen & Hsince & Hvars').
  { now rewrite Hconns. }
  { now rewrite Hvars. }
  { now rewrite Hfresh. }
  rewrite Hfresh in Hen, Hsince, Hvars'. fold failed in Hen, Hsince, Hvars'.
  fold retried in Hsince, Hvars'.
  split; [ | split; [ exact Hen | split ] ].
  - unfold get_session_state, get, bind, ret. cbn [fst].
    now rewrite Hvars.
  - rewrite Hsince, Hvars. reflexivity.
  - unfold get_session_state, get, bind, ret. cbn [fst].
    rewrite Hvars', Hvars. reflexivity.
Qed.

End Relay.

(* ------------------------------------------------------------------ *)
(** ** Concrete sessions                                                *)
(* ------------------------------------------------------------------ *)

Module Scenario.

Local Open Scope nat_scope.

Definition root : string := "/opt/fact-checker".

(** The application once [app.whenReady()] has run, with the Python
    environment installed. *)
Definition ready : World := exec app_ready (boot true).

Definition play (evs : list Input) : Loop :=
  steps Js.parse_literal root (idle ready) evs.

Definition block (lines : list string) : string :=
  String.concat Js.nl lines ++ Js.nl ++ Js.nl.

(** A session started on a YouTube source and brought to the point
    where its stream is open: handles 1 (service), 5 (stream request)
    and 6 (capture client). *)
Definition start_youtube : list Input :=
  [ Invoke (StartSession "youtube" "https://youtu.be/x");
    Occur (CallSettled 0 (Fulfilled (VBool true)));
    Occur (ProcStdout 1 "[READY] Backend running on port 5002");
    Occur (CallSettled 4 (Fulfilled VJson));
    Occur (ProcStdout 6 "[CAPTURE] Recording started");
    Occur (SseResponse 5 200%Z) ].

(** The scenario of the specification: after a successful start every
    part of the session is reported active. *)
Example start_youtube_state :
  replies (play (start_youtube ++ [Invoke GetSessionState])%list)
  = [ (StartSession "youtube" "https://youtu.be/x", Returned Success);
      (GetSessionState, Returned (SessionState true true true false)) ].
Proof. vm_compute. reflexivity. Qed.

(** The [Last-Event-ID] of every stream request issued, oldest first. *)
Definition requested_cursors (effs : list Effect) : list Z :=
  flat_map (fun e => match e with
                     | EHttpGet _ lastEventId => [lastEventId]
                     | _ => []
                     end) effs.

(** The payloads forwarded to the renderer as alerts. *)
Definition alerts (effs : list Effect) : list Js.json :=
  flat_map (fun e => match e with
                     | ESend _ (PAlert parsed) => [parsed]
                     | _ => []
                     end) effs.

(** The delay of every reconnect timer armed, oldest first. *)
Definition reconnect_delays (effs : list Effect) : list float :=
  flat_map (fun e => match e with
                     | ESetTimeout _ (TReconnect _) ms => [ms]
                     | _ => []
                     end) effs.

(** The cursor held by the handlers of request [req]. *)
Definition cursor_of (req : ReqId) (c : Loop) : option Z :=
  match lookup req (conns (world c)) with
  | Some {| conn_phase := Streaming _ currentLastId |} => Some currentLastId
  | _ => None
  end.

(** C2, at a concrete session: the event with id 5 is delivered and the
    stream's cursor is 5; after pause-session and resume-session the new
    stream request carries [Last-Event-ID: 0], not 5. *)
Example resume_after_pause_requests_from_zero :
  let delivered :=
    (start_youtube
     ++ [Occur (SseData 5 (block ["id: 5"; "data: true"]))])%list in
  let resumed :=
    (delivered ++ [Invoke PauseSession; Invoke ResumeSession])%list in
  alerts (out (world (play delivered))) = [Js.JBool true]
  /\ cursor_of 5 (play delivered) = Some 5%Z
  /\ requested_cursors (since (world (play delivered)) (world (play resumed)))
     = [0%Z].
Proof. vm_compute. repeat split; reflexivity. Qed.

(** Three connection attempts that fail one after the other: the
    request of the session start errors, the reconnect timer (handle 9)
    fires and the new request (10) errors, and once more (11, 12). *)
Definition three_failures : list Input :=
  [ Invoke (StartSession "youtube" "https://youtu.be/x");
    Occur (CallSettled 0 (Fulfilled (VBool true)));
    Occur (ProcStdout 1 "[READY] Backend running on port 5002");
    Occur (CallSettled 4 (Fulfilled VJson));
    Occur (ProcStdout 6 "[CAPTURE] Recording started");
    Occur (SseRequestError 5);
    Occur (TimerFire 9);
    Occur (SseRequestError 10);
    Occur (TimerFire 11);
    Occur (SseRequestError 12) ].

(** C1, at a concrete run: over three consecutive failed connection
    attempts the reconnect timers are armed with 2000, 2000 and 2000
    ms, not 2000, 3000 and 4500: [connectSSE] begins with
    [disconnectSSE], which puts the delay back to its initial value
    before every attempt. *)
Example consecutive_failures_all_wait_2000 :
  reconnect_delays (out (world (play three_failures)))
  = [2000; 2000; 2000]%float.
Proof. vm_compute. reflexivity. Qed.

(** The update of [scheduleSSEReconnect] alone, iterated from the
    initial delay, is the sequence the backoff is meant to follow; the
    run above never gets past its first element. *)
Definition grown (delay : float) : float :=
  Js.Math_min (delay * SSE_BACKOFF_MULTIPLIER)%float SSE_BACKOFF_MAX.

Fixpoint grown_delays (n : nat) (delay : float) : list float :=
  match n with
  | O => []
  | S n' => delay :: grown_delays n' (grown delay)
  end.

Example delay_update_alone_grows_to_the_cap :
  grown_delays 9 SSE_BACKOFF_INITIAL
  = [2000; 3000; 4500; 6750; 10125; 15187.5; 22781.25; 30000; 30000]%float.
Proof. vm_compute. reflexivity. Qed.

(** The world of the active session of [start_youtube]. *)
Definition active : World := world (play start_youtube).

Definition final_world {R} (r : Run R) : World :=
  match r with
  | Done _ w _ => w
  | Suspended _ _ w => w
  end.

(** *** C10 *)

Lemma duplicate_start_witness :
  startClient "meet" "https://meet.example/abc" active
    = (Already (Rejected "Client already running"), active)
  /\ startBackend root active = (Already (Fulfilled VUndefined), active).
Proof.
  apply (duplicate_start_client_rejects_backend_resolves root
           active active 6 1 "meet" "https://meet.example/abc");
    reflexivity.
Defined.

(** *** The service process exits *)

Lemma backend_crash_witness :
  let w' := exec (handle Js.parse_literal (ProcClose 1 (Some 1%Z))) active in
  fst (get_session_state w') = SessionState false false false false
  /\ In (EKill 6 SIGINT) (since active w')
  /\ (forall req, sseRequest (vars active) = Some req ->
                  In (EDestroy req) (since active w'))
  /\ sseReconnectTimer (vars w') = None
  /\ (forall p, ~ In (ESpawn p Client) (since active w')).
Proof.
  apply (backend_crash_tears_down_session Js.parse_literal
           active 1 6 (Some 1%Z)); reflexivity.
Defined.

(** *** C4 *)

Lemma mutual_exclusion_witness :
  let c := steps Js.parse_literal root (idle ready)
             [Invoke (StartSession "youtube" "https://youtu.be/x")] in
  (List.length (in_flight (tasks c)) <= 1)%nat
  /\ forall h,
       session_op h = true ->
       in_flight (tasks c) <> [] ->
       invoke root h c
       = {| world := world c;
            tasks := tasks c;
            replies :=
              (replies c
               ++ [(h, Returned (Failure "Operation already in progress"))])%list
         |}.
Proof.
  apply (session_operations_are_mutually_exclusive Js.parse_literal root
           ready [Invoke (StartSession "youtube" "https://youtu.be/x")]).
  reflexivity.
Defined.

(** A stop issued while the start is waiting for the permission
    prompt, and a second start issued while the first is waiting for
    the capture process: both are turned away, and the first start
    goes on to succeed. *)
Example concurrent_calls_are_rejected :
  replies (play [ Invoke (StartSession "youtube" "https://youtu.be/x");
                  Invoke StopSession;
                  Occur (CallSettled 0 (Fulfilled (VBool true)));
                  Occur (ProcStdout 1 "[READY] Backend running on port 5002");
                  Occur (CallSettled 4 (Fulfilled VJson));
                  Invoke (StartSession "meet" "https://meet.example/abc");
                  Occur (ProcStdout 6 "[CAPTURE] Recording started") ])
  = [ (StopSession, Returned (Failure "Operation already in progress"));
      (StartSession "meet" "https://meet.example/abc",
       Returned (Failure "Operation already in progress"));
      (StartSession "youtube" "https://youtu.be/x", Returned Success) ].
Proof. vm_compute. reflexivity. Qed.

(** *** C7 *)

(** The stream of the two events as five chunks: cut within the first
    payload, within its blank line, within the second event's [data: ]
    prefix and within the closing blank line. *)
Definition five_chunks : list string :=
  [ "data: {oo";
    "ps" ++ Js.nl;
    Js.nl ++ "id: 7" ++ Js.nl ++ "da";
    "ta: true" ++ Js.nl;
    Js.nl ].

Lemma malformed_event_witness :
  let w' := feed Js.parse_literal 5 five_chunks active in
  since active w' = [ESend "fact-check-alert" (PAlert (Js.JBool true))]
  /\ vars w' = vars active
  /\ timers w' = timers active
  /\ lookup 5 (conns w')
     = Some {| conn_lastId := 0%Z;
               conn_phase := Streaming "" (cursor_after 0%Z (Some "7")) |}.
Proof.
  apply (malformed_event_dropped_next_event_forwarded Js.parse_literal
           active 5 0%Z 0%Z None (Some "7") "{oops" "true" (Js.JBool true)
           five_chunks);
    try (vm_compute; reflexivity).
  discriminate.
Defined.

(** While the relay is suppressed the same chunk moves the cursor but
    forwards nothing. *)
Example paused_relay_forwards_nothing :
  let paused := exec (set_isPaused true) active in
  let chunk := block ["data: {oops"] ++ block ["id: 7"; "data: true"] in
  let w' := exec (handle Js.parse_literal (SseData 5 chunk)) paused in
  since paused w' = []
  /\ lookup 5 (conns w')
     = Some {| conn_lastId := 0%Z; conn_phase := Streaming "" 7%Z |}.
Proof. vm_compute. split; reflexivity. Qed.

(** *** C6 *)


(** *** C8 and C9 *)

(** The capture process never reports that it records, and the race of
    [withTimeout] (timer 8) rejects. *)
Definition capture_times_out : list Event :=
  [ CallSettled 0 (Fulfilled (VBool true));
    ProcStdout 1 "[READY] Backend running on port 5002";
    CallSettled 4 (Fulfilled VJson);
    TimerFire 8 ].

Definition caught : World :=
  final_world (run Js.parse_literal
                 (session_body root "youtube" "https://youtu.be/x")
                 (entered ready) capture_times_out).


(** The service process is still there after the rollback and after a
    stop, and it is the application shutdown that signals it. *)
Example only_shutdown_stops_the_service :
  backendProcess (vars caught) = Some 1
  /\ backendProcess
       (vars (world (play (start_youtube ++ [Invoke StopSession;
                                             Occur (ProcClose 6 None)])%list)))
     = Some 1
  /\ since active
       (world (play (start_youtube ++ [Invoke Shutdown;
                                       Occur (ProcClose 6 None)])%list))
     = [ ERemoveHandlers; EDestroy 5;
         ESetTimeout 9 (TForceKill 6 SIGTERM) 10000; EKill 6 SIGINT;
         ESetTray false; ESend "session-status" (PStatus "stopped");
         ESetTimeout 10 (TForceKill 1 SIGKILL) 5000; EKill 1 SIGTERM ].
Proof. vm_compute. repeat split; reflexivity. Qed.

(** *** C3 *)

Definition start_podcast : list Event :=
  [ CallSettled 0 (Fulfilled (VBool true));
    ProcStdout 1 "[READY] Backend running on port 5002";
    CallSettled 4 (Fulfilled VJson) ].

(** C3 as stated fails: from the idle application, start-session with
    the unknown source type "podcast" does end with
    [{ success: false, error: 'Unknown source type: podcast' }], but
    only after the permission prompt, the service start and the health
    check; by then the service process has been spawned, and
    [get-session-state] reports [backendRunning: true] where it
    reported [false] before the call. *)
Example unknown_source_type_starts_the_service :
  let r := run Js.parse_literal
             (start_session root "podcast" "https://pod.example/1")
             ready start_podcast in
  fst (get_session_state ready) = SessionState false false false false
  /\ (exists w, r = Done (Returned (Failure "Unknown source type: podcast"))
                    w [])
  /\ fst (get_session_state (final_world r))
     = SessionState true false false false
  /\ since ready (final_world r)
     = [ ECall 0 AskMicrophone; ESpawn 1 Backend;
         ESetTimeout 2 TSettle 60000; ESetTimeout 3 TSettle 60000;
         ECall 4 FetchHealth; EHttpGet 5 0%Z;
         ESetTimeout 6 TSettle 120000; EDestroy 5 ].
Proof.
  vm_compute. repeat split; try reflexivity. eexists; reflexivity.
Qed.

(** The lookup in [choiceMap] also finds the members every object
    inherits: "constructor" is none of the four source types, yet the
    capture start accepts it and spawns the capture process. *)
Example inherited_member_passes_for_a_source_type :
  choiceMap "constructor" = Some (Inherited "constructor")
  /\ since ready (snd (startClient "constructor" "x" ready))
     = [ ESpawn 0 Client; EStdinChoice 0 (Inherited "constructor");
         EStdin 0 ("x" ++ Js.nl); EStdinEnd 0;
         ESetTimeout 1 TSettle 120000 ].
Proof. vm_compute. split; reflexivity. Qed.

(** *** The relay beyond a single event *)

Lemma suppressed_relay_witness :
  let paused := exec (set_isPaused true) active in
  same_but_conns paused
    (exec (handle Js.parse_literal
             (SseData 5 (block ["id: 7"; "data: true"]))) paused).
Proof.
  apply (suppressed_relay_sends_nothing Js.parse_literal).
  vm_compute. reflexivity.
Defined.

Lemma chunk_boundaries_witness :
  feed Js.parse_literal 5 five_chunks active
  = feed Js.parse_literal 5
      [block ["data: {oops"] ++ block ["id: 7"; "data: true"]] active.
Proof.
  apply (relay_ignores_chunk_boundaries Js.parse_literal);
    [ discriminate | discriminate | reflexivity | reflexivity
    | vm_compute; reflexivity ].
Defined.

Lemma heartbeat_witness :
  on_message Js.parse_literal 3%Z
    (String.concat Js.nl [": keep-alive"; ": 12:00"]) active
  = (3%Z, active).
Proof.
  apply (heartbeat_block_is_skipped Js.parse_literal); reflexivity.
Defined.

Lemma last_data_line_witness :
  on_message Js.parse_literal 0%Z
    (("data: " ++ "null") ++ Js.nl ++ ("data: " ++ "true")) active
  = on_message Js.parse_literal 0%Z ("data: " ++ "true") active.
Proof.
  apply (last_data_line_wins Js.parse_literal); reflexivity.
Defined.

(** *** Starting the capture process *)

Lemma capture_stdin_witness :
  since ready
    (exec (startClient "meet"
             ("https://meet.example/abc" ++ Js.nl ++ "4" ++ Js.nl)) ready)
  = [ ESpawn 0 Client;
      EStdinChoice 0 (Own "2");
      EStdin 0 ("https://meet.example/abc4" ++ Js.nl);
      EStdinEnd 0;
      ESetTimeout 1 TSettle 120000 ]
  /\ Js.split Js.nl ("https://meet.example/abc4" ++ Js.nl)
     = ["https://meet.example/abc4"; ""].
Proof.
  destruct (capture_stdin_is_two_lines "meet"
              ("https://meet.example/abc" ++ Js.nl ++ "4" ++ Js.nl) "2" ready
              eq_refl eq_refl)
    as (Hout & Hlines & _).
  split; [ exact Hout | exact Hlines ].
Defined.

(** *** Session starts that do not get to the capture process *)

Lemma denied_microphone_witness :
  exists w',
    run Js.parse_literal (start_session root "youtube" "https://youtu.be/x")
      ready [CallSettled (fresh ready) (Fulfilled (VBool false))]
    = Done (Returned (Failure "Screen Recording permission required")) w' []
    /\ vars w' = vars ready
    /\ since ready w'
       = (ECall (fresh ready) AskMicrophone
          :: (if fst (window_live ready)
              then [ESend "error-message"
                      (PError "Microphone permission denied"
                         "Please grant Microphone access in System Settings > Privacy & Security > Microphone.")]
              else [])
          ++ [EOpenExternal microphone_pane])%list.
Proof.
  apply (denied_microphone_fails_start Js.parse_literal root
           "youtube" "https://youtu.be/x" ready (VBool false));
    reflexivity.
Defined.

Lemma start_while_capturing_witness :
  exists w',
    run Js.parse_literal (start_session root "meet" "https://meet.example/abc")
      active
      [ CallSettled (fresh active) (Fulfilled (VBool true));
        CallSettled (S (S (fresh active))) (Fulfilled VJson);
        ProcClose 6 None ]
    = Done (Returned (Failure "Client already running")) w' []
    /\ fst (get_session_state w')
       = SessionState true false false (isPaused (vars active))
    /\ In (EKill 6 SIGINT) (since active w')
    /\ forall p r, ~ In (ESpawn p r) (since active w').
Proof.
  apply (start_while_capturing_stops_the_capture Js.parse_literal root
           "meet" "https://meet.example/abc" active 1 6
           (VBool true) VJson None);
    vm_compute; reflexivity.
Defined.

(** *** A capture process that exits while it is started *)

(** The session of [start_youtube] once it has been stopped: the
    service is running, the capture process is gone. *)
Definition stopped : World :=
  world (play (start_youtube
               ++ [Invoke StopSession; Occur (ProcClose 6 None)])%list).

Lemma capture_exits_witness :
  let p := fresh (before_capture stopped) in
  exists w',
    run Js.parse_literal (start_session root "meet" "https://meet.example/abc")
      stopped
      [ CallSettled (fresh stopped) (Fulfilled (VBool true));
        CallSettled (S (S (fresh stopped))) (Fulfilled VJson);
        ProcClose p (Some 1%Z) ]
    = Done (Returned Success) w' []
    /\ fst (get_session_state w') = SessionState true false false false
    /\ In (ESpawn p Client) (since stopped w')
    /\ (tray (vars stopped) = true ->
        exists before, since stopped w' = (before ++ [ESetTray true])%list).
Proof.
  apply (start_reports_success_when_capture_exits Js.parse_literal root
           "meet" "https://meet.example/abc" stopped 1 (Own "2")
           (VBool true) VJson (Some 1%Z));
    vm_compute; reflexivity.
Defined.

(** *** A capture process that outlives its stop *)

(** The first capture process (handle 6) ignores SIGINT; the stop
    escalates to SIGTERM after 10 s and returns; a second session is
    started (capture process 14, stream request 13) while process 6
    has still not closed. *)
Definition restarted : World :=
  world (play (start_youtube
               ++ [ Invoke StopSession;
                    Occur (TimerFire 9);
                    Invoke (StartSession "meet" "https://meet.example/abc");
                    Occur (CallSettled 10 (Fulfilled (VBool true)));
                    Occur (CallSettled 12 (Fulfilled VJson));
                    Occur (ProcStdout 14 "[CAPTURE] Recording started");
                    Occur (SseResponse 13 200%Z) ])%list).

Example restarted_session_is_active :
  fst (get_session_state restarted) = SessionState true true true false
  /\ clientProcess (vars restarted) = Some 14.
Proof. vm_compute. split; reflexivity. Qed.

Lemma late_close_witness :
  let w' := exec (handle Js.parse_literal (ProcClose 6 None)) restarted in
  clientProcess (vars w') = None
  /\ sseRequest (vars w') = None
  /\ lookup 14 (procs w') = Some Client
  /\ (forall q sig, ~ In (EKill q sig) (since restarted w'))
  /\ exists w'',
       run Js.parse_literal stop_session w' []
       = Done (Returned Success) w'' []
       /\ forall q sig, ~ In (EKill q sig) (since w' w'').
Proof.
  apply (late_close_orphans_the_new_capture Js.parse_literal
           restarted 6 14 None);
    try (vm_compute; reflexivity).
  discriminate.
Defined.

(** *** A stream that ends after it was disconnected *)

Lemma ended_stream_witness :
  let paused := exec pause_session active in
  let ended := exec (handle Js.parse_literal (SseEnd 5)) paused in
  let reconnected :=
    exec (handle Js.parse_literal (TimerFire (fresh active))) ended in
  fst (get_session_state paused)
    = SessionState
        (match backendProcess (vars active) with
         | Some _ => true | None => false end)
        (match clientProcess (vars active) with
         | Some _ => true | None => false end)
        false true
  /\ since paused ended
     = [ESetTimeout (fresh active) (TReconnect 0%Z) SSE_BACKOFF_INITIAL]
  /\ enabled (TimerFire (fresh active)) ended = true
  /\ since ended reconnected = [EHttpGet (S (fresh active)) 0%Z]
  /\ fst (get_session_state reconnected)
     = SessionState
         (match backendProcess (vars active) with
          | Some _ => true | None => false end)
         (match clientProcess (vars active) with
          | Some _ => true | None => false end)
         true true.
Proof.
  apply (ended_stream_reconnects_a_paused_relay Js.parse_literal
           active 5 0%Z 0%Z "");
    vm_compute; reflexivity.
Defined.

(** *** The health check and its retries *)

Lemma health_check_witness :
  exists w',
    run Js.parse_literal (waitForBackendReady 5) ready
      (checks 4 (fresh ready) "connect ECONNREFUSED"
         (Rejected "connect ECONNREFUSED"))
    = Done (Returned false) w' []
    /\ vars w' = vars ready
    /\ since ready w' = check_effects 4 (fresh ready).
Proof.
  apply (health_check_retries_then_settles Js.parse_literal 4 5 ready
           "connect ECONNREFUSED" (Rejected "connect ECONNREFUSED"));
    [ lia | reflexivity | reflexivity ].
Defined.

(** *** Shutdown *)

Lemma shutdown_witness :
  exists w',
    run Js.parse_literal shutdownApp active
      [ProcClose 6 None; ProcClose 1 None]
    = Done (Returned Void) w' []
    /\ vars w'
       = mkState None None None false (popupWindow (vars active)) true
           (isPaused (vars active)) None SSE_BACKOFF_INITIAL
           (_sessionOpInProgress (vars active))
    /\ signals (since active w') = [EKill 6 SIGINT; EKill 1 SIGTERM]
    /\ In ERemoveHandlers (since active w')
    /\ (fst (window_live active) = true ->
        In (ESend "error-message"
              (PError "Backend crashed"
                 ("Backend process exited with code " ++ show_code None)))
           (since active w'))
    /\ forall evs,
         run Js.parse_literal shutdownApp w' evs = Done (Returned Void) w' evs.
Proof.
  apply (shutdown_stops_capture_then_service Js.parse_literal
           active 1 6 None None);
    vm_compute; reflexivity.
Defined.

(** *** Session starts that fail at the service *)

(** The application on a machine where the setup script was not run. *)
Definition not_set_up : World := exec app_ready (boot false).

Lemma missing_python_witness :
  exists w',
    run Js.parse_literal (start_session root "youtube" "https://youtu.be/x")
      not_set_up [CallSettled (fresh not_set_up) (Fulfilled (VBool true))]
    = Done (Returned (Failure (python_missing root))) w' []
    /\ fst (get_session_state w')
       = SessionState false false false (isPaused (vars not_set_up))
    /\ (forall p r, ~ In (ESpawn p r) (since not_set_up w'))
    /\ (fst (window_live not_set_up) = true ->
        In (ESend "error-message"
              (PError "Setup required" (python_missing root)))
           (since not_set_up w')).
Proof.
  apply (missing_python_fails_start Js.parse_literal root
           "youtube" "https://youtu.be/x" not_set_up (VBool true));
    reflexivity.
Defined.

Example python_missing_message :
  python_missing root
  = "Python not found at /opt/fact-checker/backend/venv/bin/python. Run ./scripts/setup.sh first.".
Proof. reflexivity. Qed.

Lemma service_exit_witness :
  let p := S (fresh ready) in
  exists w',
    run Js.parse_literal (start_session root "youtube" "https://youtu.be/x")
      ready
      [CallSettled (fresh ready) (Fulfilled (VBool true));
       ProcClose p (Some 1%Z)]
    = Done (Returned (Failure (backend_exited (Some 1%Z)))) w' []
    /\ fst (get_session_state w')
       = SessionState false false false (isPaused (vars ready))
    /\ In (ESpawn p Backend) (since ready w')
    /\ signals (since ready w') = [].
Proof.
  apply (service_exit_fails_start Js.parse_literal root
           "youtube" "https://youtu.be/x" ready (VBool true) (Some 1%Z));
    reflexivity.
Defined.

(** *** The cursor *)

Lemma cursor_witness :
  on_message Js.parse_literal 3%Z
    (event_block (Some (Js.String_of_int 1024)) "true") active
  = (1024%Z, exec (send "fact-check-alert" (PAlert (Js.JBool true))) active)
  /\ on_message Js.parse_literal 3%Z
       (event_block (Some (Js.String_of_int 0)) "true") active
     = (3%Z, exec (send "fact-check-alert" (PAlert (Js.JBool true))) active).
Proof.
  split.
  - apply (relayed_event_moves_cursor_to_its_id Js.parse_literal 1024 3
             "true" (Js.JBool true) active);
      try reflexivity; discriminate.
  - apply (relayed_event_moves_cursor_to_its_id Js.parse_literal 0 3
             "true" (Js.JBool true) active);
      try reflexivity; discriminate.
Defined.

(** *** Errors written by the capture process *)

Lemma capture_error_witness :
  since active
    (exec (on_client_stdout
             (String.concat Js.nl
                (["[CAPTURE] starting"]
                 ++ ("[ERROR]" ++ "  Screen Capture denied ")
                    :: ["[ERROR] second"])))
       active)
  = ESend "error-message" (PError "Capture error" "Screen Capture denied")
    :: screen_recording_hint.
Proof.
  apply (first_error_line_is_reported
           ["[CAPTURE] starting"] ["[ERROR] second"]
           "  Screen Capture denied " active);
    reflexivity.
Defined.

(** *** Stale process cleanup *)

Lemma cleanup_witness :
  exists removed,
    calls (cleanupStaleProcesses root (Some (lsof_output [4242; 17]%Z))
             "/tmp/videodb-recorder.lock" (fun _ => true)
             {| files := ["/tmp/videodb-recorder.lock"; "/tmp/other"];
                calls := [] |})
    = ([] ++ map (fun n => HKill (Js.Int n) "SIGTERM") [4242; 17]%Z
       ++ map HUnlink removed)%list
    /\ incl removed (lockPaths root "/tmp/videodb-recorder.lock").
Proof.
  apply (cleanup_signals_each_listed_process root [4242; 17]%Z
           "/tmp/videodb-recorder.lock" (fun _ => true)
           {| files := ["/tmp/videodb-recorder.lock"; "/tmp/other"];
              calls := [] |}).
  - discriminate.
  - repeat constructor.
Defined.

Example cleanup_on_a_busy_port :
  cleanupStaleProcesses root (Some (lsof_output [4242; 17]%Z))
    "/tmp/videodb-recorder.lock" (fun _ => true)
    {| files := ["/tmp/videodb-recorder.lock"; "/tmp/other"]; calls := [] |}
  = {| files := ["/tmp/other"];
       calls := [ HKill (Js.Int 4242) "SIGTERM"; HKill (Js.Int 17) "SIGTERM";
                  HUnlink "/tmp/videodb-recorder.lock" ] |}.
Proof. vm_compute. reflexivity. Qed.

(** *** The health check inside a session start *)

Lemma unhealthy_start_witness :
  let w2 := exec (setTimeout TSettle (Js.number_of_Z 60000))
              (called AskMicrophone stopped) in
  exists w3,
    run Js.parse_literal
      (session_body root "meet" "https://meet.example/abc") stopped
      (CallSettled (fresh stopped) (Fulfilled (VBool true))
       :: checks 4 (fresh w2) "connect ECONNREFUSED"
            (Rejected "connect ECONNREFUSED") ++ [])
    = run Js.parse_literal (capture_start "meet" "https://meet.example/abc")
        (exec ensure_relay w3) []
    /\ vars w3 = vars stopped
    /\ procs w3 = procs stopped
    /\ since w2 w3 = check_effects 4 (fresh w2).
Proof.
  apply (failed_health_check_does_not_stop_the_start Js.parse_literal root
           "meet" "https://meet.example/abc" stopped 1 (VBool true) 4
           "connect ECONNREFUSED" (Rejected "connect ECONNREFUSED") []);
    try (vm_compute; reflexivity); lia.
Defined.

(** *** C5 *)

(** The session of [start_youtube] is active when the service process
    (handle 1) exits with code 1.  At the
    return of its close handler everything is reported inactive.  Then
    the stream of the request the handler destroyed (5) reports
    'error': its handler schedules a reconnect (timer 10, 2000 ms), and
    when that timer fires [connectSSE] opens request 11.  From then on
    [get-session-state] reports [sseConnected: true], with no service
    and no capture process. *)
Example service_crash_then_relay_reconnects :
  let crash := (start_youtube ++ [Occur (ProcClose 1 (Some 1%Z))])%list in
  let later :=
    (crash ++ [Occur (SseError 5); Occur (TimerFire 10);
               Invoke GetSessionState])%list in
  fst (get_session_state (world (play crash)))
    = SessionState false false false false
  /\ replies (play later)
     = [ (StartSession "youtube" "https://youtu.be/x", Returned Success);
         (GetSessionState, Returned (SessionState false false true false)) ]
  /\ since (world (play crash)) (world (play later))
     = [ ESetTimeout 10 (TReconnect 0) 2000; EHttpGet 11 0%Z ].
Proof. vm_compute. repeat split; reflexivity. Qed.

(** The same three events, delivered to the world of that session. *)
Lemma service_crash_witness :
  let crashed := exec (handle Js.parse_literal (ProcClose 1 (Some 1%Z)))
                   active in
  let failed := exec (handle Js.parse_literal (SseError 5)) crashed in
  let retried := exec (handle Js.parse_literal (TimerFire 10)) failed in
  fst (get_session_state crashed) = SessionState false false false false
  /\ enabled (TimerFire 10) failed = true
  /\ since crashed retried
     = [ ESetTimeout 10 (TReconnect 0) SSE_BACKOFF_INITIAL;
         EHttpGet 11 0%Z ]
  /\ fst (get_session_state retried) = SessionState false false true false.
Proof.
  apply (crashed_service_relay_reconnects Js.parse_literal
           active 1 6 5 (Some 1%Z) 0%Z 0%Z "");
    vm_compute; reflexivity.
Defined.

(** *** C6 *)



(** The same events, but the capture process does not exit and the
    stop is settled by the escalation timer (9) instead: the first
    call returns with the relay connected again (request 11), and the
    second call is the one that disconnects it. *)
Example stop_session_returns_with_relay_reopened :
  let first := run Js.parse_literal stop_session active
                 [SseError 5; TimerFire 10; TimerFire 9] in
  let second := run Js.parse_literal stop_session (final_world first) [] in
  (exists w1, first = Done (Returned Success) w1 [])
  /\ (exists w2, second = Done (Returned Success) w2 [])
  /\ fst (get_session_state (final_world first))
     = SessionState true false true false
  /\ fst (get_session_state (final_world second))
     = SessionState true false false false
  /\ since active (final_world first)
     = [ ESetTray false; EDestroy 5;
         ESetTimeout 9 (TForceKill 6 SIGTERM) 10000; EKill 6 SIGINT;
         ESetTimeout 10 (TReconnect 0) 2000; EHttpGet 11 0%Z;
         EKill 6 SIGTERM ].
Proof.
  vm_compute. repeat split; try reflexivity; eexists; reflexivity.
Qed.

(** *** C8 *)

(** The active session after its stream has ended: a reconnect is
    pending (timer 9). *)
Definition interrupted : World :=
  world (play (start_youtube ++ [Occur (SseEnd 5)])%list).

(** A second start-session on that session: the microphone is granted
    and the health check answers, and the capture start throws 'Client
    already running'. *)
Definition second_start : list Event :=
  [ CallSettled 10 (Fulfilled (VBool true));
    CallSettled 12 (Fulfilled VJson) ].

Definition thrown : World :=
  final_world (run Js.parse_literal
                 (session_body root "meet" "https://meet.example/abc")
                 (entered interrupted) second_start).

Lemma rollback_witness :
  exists w2,
    run Js.parse_literal (start_session root "meet" "https://meet.example/abc")
      interrupted
      (second_start ++ [ProcStdout 6 "[CAPTURE] Stopping"]
       ++ [ProcClose 6 None])
    = Done (Returned (Failure "Client already running")) w2 []
    /\ clientProcess (vars w2) = None
    /\ _sessionOpInProgress (vars w2) = false
    /\ In (EDestroy 5) (since thrown w2)
    /\ lookup 9 (timers thrown) = Some (TReconnect 0)
    /\ lookup 9 (timers w2) = None
    /\ In (EKill 6 SIGINT) (since thrown w2)
    /\ sseRequest (vars w2) = None
    /\ sseReconnectTimer (vars w2) = None.
Proof.
  destruct (start_session_exception_rolls_back Js.parse_literal root
              "meet" "https://meet.example/abc" interrupted second_start
              "Client already running" thrown
              [ProcStdout 6 "[CAPTURE] Stopping"] [ProcClose 6 None])
    as (w2 & Hrun & Hc & Hf & Hd & Ht & Hk & Hr).
  - reflexivity.
  - vm_compute. reflexivity.
  - vm_compute. reflexivity.
  - vm_compute. left. exists None. split; reflexivity.
  - vm_compute. reflexivity.
  - exists w2.
    split; [ exact Hrun | ]. split; [ exact Hc | ]. split; [ exact Hf | ].
    split; [ apply Hd; reflexivity | ].
    split; [ reflexivity | ].
    split; [ apply (Ht 9 (TReconnect 0)); reflexivity | ].
    split; [ apply Hk; reflexivity | ].
    apply Hr. right. exists 6, None. reflexivity.
Defined.

(** *** C3 *)

Lemma unknown_source_type_witness :
  startClient "podcast" "https://pod.example/1" stopped
    = (Already (Rejected ("Unknown source type: " ++ "podcast")), stopped)
  /\ match run Js.parse_literal
             (start_session root "podcast" "https://pod.example/1")
             ready [CallSettled 0 (Fulfilled (VBool true))] with
     | Done res w'' _ =>
         reports_failure res
         /\ isPaused (vars w'') = isPaused (vars ready)
         /\ forall p, ~ In (ESpawn p Client) (since ready w'')
     | Suspended _ _ w'' =>
         isPaused (vars w'') = isPaused (vars ready)
         /\ forall p, ~ In (ESpawn p Client) (since ready w'')
     end
  /\ exists w2,
       run Js.parse_literal
         (start_session root "podcast" "https://pod.example/1") stopped
         [ CallSettled (fresh stopped) (Fulfilled (VBool true));
           CallSettled (S (S (fresh stopped))) (Fulfilled VJson) ]
       = Done (Returned (Failure ("Unknown source type: " ++ "podcast")))
           w2 [].
Proof.
  destruct (unknown_source_type_rejected_by_capture_start
              Js.parse_literal root "podcast" "https://pod.example/1"
              stopped ready [CallSettled 0 (Fulfilled (VBool true))])
    as (Ha & Hb & Hc).
  - reflexivity.
  - reflexivity.
  - split; [ exact Ha | ]. split; [ exact Hb | ].
    apply (Hc 1 (VBool true) VJson); reflexivity.
Defined.

(** The call of the witness that is still waiting: the microphone has
    been granted and the service process spawned, and the call is
    suspended until the service is ready. *)
Example unknown_source_type_call_suspended :
  let r := run Js.parse_literal
             (start_session root "podcast" "https://pod.example/1")
             ready [CallSettled 0 (Fulfilled (VBool true))] in
  (exists wt k w, r = Suspended wt k w)
  /\ since ready (final_world r)
     = [ ECall 0 AskMicrophone; ESpawn 1 Backend;
         ESetTimeout 2 TSettle 60000; ESetTimeout 3 TSettle 60000 ].
Proof.
  vm_compute. split; [ do 3 eexists; reflexivity | reflexivity ].
Qed.

(** The rollback of a second start on the active session while the
    stream it destroyed (5) fails: the 'error' schedules a reconnect
    (timer 14), which fires and opens request 15 before the capture
    process exits; the close handler of the capture process then
    disconnects the relay again, and the call returns the error that
    was thrown. *)
Example rollback_while_stream_fails :
  let r := run Js.parse_literal
             (start_session root "meet" "https://meet.example/abc") active
             [ CallSettled 9 (Fulfilled (VBool true));
               CallSettled 11 (Fulfilled VJson);
               SseError 5; TimerFire 14; ProcClose 6 None ] in
  (exists w2, r = Done (Returned (Failure "Client already running")) w2 [])
  /\ fst (get_session_state (final_world r))
     = SessionState true false false false
  /\ since active (final_world r)
     = [ ECall 9 AskMicrophone; ESetTimeout 10 TSettle 60000;
         ECall 11 FetchHealth; ESetTimeout 12 TSettle 120000;
         EDestroy 5; ESetTimeout 13 (TForceKill 6 SIGTERM) 10000;
         EKill 6 SIGINT; ESetTimeout 14 (TReconnect 0) 2000;
         EHttpGet 15 0%Z; ESetTray false;
         ESend "session-status" (PStatus "stopped"); EDestroy 15 ].
Proof.
  vm_compute. repeat split; try reflexivity. eexists; reflexivity.
Qed.

End Scenario.
